(** * CoC7 actor importer: a shallow embedding of [module/apps/actor-importer.js]

    The importer turns a pasted stat block into a parsed record.  The
    development follows the source file top-down:

    - JavaScript strings are sequences of UTF-16 code units ([list N]);
    - numbers are the integral doubles the importer handles ([Int z], exact
      below 2^53) together with [NaN];
    - the importer object ([this.text], [this.parsed], the notifications it
      raises) is threaded through a state-and-exception monad;
    - the pattern registry ([actor-importer-regexp.js]) and the regular
      expression engine belong to the host and are a parameter [Host]. *)

From Stdlib Require Import ZArith NArith Lia Bool Ascii.
From Stdlib Require Import DecimalString.
From stdpp Require Import gmap strings list fin_maps.

Set Default Proof Using "Type".
Local Open Scope N_scope.
Local Open Scope list_scope.

(** ** JavaScript strings *)

Module JsString.

(** A string is its sequence of UTF-16 code units. *)
Abbreviation jsstring := (list N) (only parsing).

Fixpoint js (s : string) : jsstring :=
  match s with
  | EmptyString => []
  | String a s' => N_of_ascii a :: js s'
  end.

Definition LF : N := 10.
Definition CR : N := 13.
Definition SPACE : N := 32.

(** [WhiteSpace] and [LineTerminator] of ECMA-262: what [String.prototype.trim]
    strips and what [\s] matches. *)
Definition isWhiteSpace (c : N) : bool :=
  (c =? 9) || (c =? 10) || (c =? 11) || (c =? 12) || (c =? 13) || (c =? 32)
  || (c =? 160) || (c =? 5760) || ((8192 <=? c) && (c <=? 8202))
  || (c =? 8232) || (c =? 8233) || (c =? 8239) || (c =? 8287)
  || (c =? 12288) || (c =? 65279).

(** What [.] does not match (no [s] flag). *)
Definition isLineTerminator (c : N) : bool :=
  (c =? 10) || (c =? 13) || (c =? 8232) || (c =? 8233).

Definition isDigit (c : N) : bool := (48 <=? c) && (c <=? 57).

Fixpoint dropWhile (p : N -> bool) (s : jsstring) : jsstring :=
  match s with
  | [] => []
  | c :: s' => if p c then dropWhile p s' else s
  end.

Fixpoint takeWhile (p : N -> bool) (s : jsstring) : jsstring :=
  match s with
  | [] => []
  | c :: s' => if p c then c :: takeWhile p s' else []
  end.

Definition trimStart (s : jsstring) : jsstring := dropWhile isWhiteSpace s.
Definition trimEnd (s : jsstring) : jsstring := rev (dropWhile isWhiteSpace (rev s)).

(** [s.trim()] *)
Definition trim (s : jsstring) : jsstring := trimEnd (trimStart s).

Fixpoint eqs (a b : jsstring) : bool :=
  match a, b with
  | [], [] => true
  | x :: a', y :: b' => (x =? y) && eqs a' b'
  | _, _ => false
  end.

Fixpoint isPrefix (p s : jsstring) : bool :=
  match p, s with
  | [], _ => true
  | x :: p', y :: s' => (x =? y) && isPrefix p' s'
  | _ :: _, [] => false
  end.

(** [s.replace(pat, rep)] for a string pattern [pat] and a replacement
    without [$]: the first occurrence only; the empty pattern occurs at
    offset 0. *)
Fixpoint replaceFirst (pat rep s : jsstring) : jsstring :=
  if isPrefix pat s then rep ++ drop (length pat) s
  else match s with
       | [] => []
       | c :: s' => c :: replaceFirst pat rep s'
       end.

(** [s.indexOf(pat)], [None] for -1. *)
Fixpoint indexOf (pat s : jsstring) : option nat :=
  if isPrefix pat s then Some 0%nat
  else match s with
       | [] => None
       | _ :: s' => option_map S (indexOf pat s')
       end.

(** [s.substr(0, n)] *)
Definition substr0 (n : nat) (s : jsstring) : jsstring := take n s.

(** [s.replace(/(\n|\r)/g, ' ')] *)
Definition flattenBreaks (s : jsstring) : jsstring :=
  map (fun c => if (c =? LF) || (c =? CR) then SPACE else c) s.

(** [s.replace(/([\n\r]+)/g, ' ')]: every maximal run of line breaks
    becomes one space. *)
Fixpoint squeezeFrom (inRun : bool) (s : jsstring) : jsstring :=
  match s with
  | [] => []
  | c :: s' =>
      if (c =? LF) || (c =? CR)
      then (if inRun then squeezeFrom true s' else SPACE :: squeezeFrom true s')
      else c :: squeezeFrom false s'
  end.

Definition squeezeBreaks (s : jsstring) : jsstring := squeezeFrom false s.

(** [s.split(sep)] for a one-unit separator. *)
Fixpoint splitOn (sep : N) (s : jsstring) : list jsstring :=
  match s with
  | [] => [[]]
  | c :: s' =>
      if c =? sep then [] :: splitOn sep s'
      else match splitOn sep s' with
           | [] => [[c]]
           | p :: ps => (c :: p) :: ps
           end
  end.

End JsString.

Import JsString.

(** ** Values of the parsed record *)

(** The integral doubles and [NaN]. *)
Inductive JsNum := NaN | Int (z : Z).

Definition isNaN (n : JsNum) : bool :=
  match n with NaN => true | Int _ => false end.

(** [lastPercent] of [processCombat]: [false] before the first weapon, the
    weapon's own percentage, or [true] for a weapon listed without one. *)
Inductive LastPercent := lpFalse | lpTrue | lpNumber (n : JsNum).

Record RangeBand := { rb_value : Z; rb_damage : jsstring }.

Record Range := { normal : RangeBand; long : RangeBand; extreme : RangeBand }.

Record Properties :=
  { shotgun : bool; rngd : bool; melee : bool; ahdb : bool; addb : bool }.

(** The object pushed on [this.parsed.attacks]. *)
Record WeaponData :=
  { w_name : jsstring;
    w_type : jsstring;
    w_skill_id : LastPercent;
    w_properties : Properties;
    w_range : Range }.

(** The elements of the arrays of the parsed record. *)
Inductive Item :=
| ISkill (name : jsstring) (value : JsNum) (push : option bool)
| IWeapon (data : WeaponData)
| ISpell (name : jsstring).

Inductive JsVal :=
| VNum (n : JsNum)
| VStr (s : jsstring)
| VArr (items : list Item).

(** [String(n)] *)
Definition numToString (n : JsNum) : jsstring :=
  match n with
  | NaN => js "NaN"
  | Int z => js (NilZero.string_of_int (Z.to_int z))
  end.

Definition itemToString (i : Item) : jsstring :=
  match i with
  | ISpell s => s
  | _ => js "[object Object]"
  end.

Fixpoint joinWith (sep : jsstring) (l : list jsstring) : jsstring :=
  match l with
  | [] => []
  | [x] => x
  | x :: l' => x ++ sep ++ joinWith sep l'
  end.

(** [String(v)] *)
Definition ToString (v : JsVal) : jsstring :=
  match v with
  | VNum n => numToString n
  | VStr s => s
  | VArr l => joinWith (js ",") (map itemToString l)
  end.

(** ** The host: regular expressions, pattern registry, localisation *)

(** The result of [RegExp.prototype.exec]: [check[0]], [check.index] and
    [check.groups] ([None] when the pattern has no named group; a group that
    did not take part in the match is [undefined], here [None]). *)
Record Match :=
  { m_source : jsstring;
    m_index : nat;
    m_groups : option (list (string * option jsstring)) }.

(** A compiled (non-global) regular expression is what it answers to [exec];
    [re_replace s tpl] is [s.replace(re, tpl)] for the global ones. *)
Record RegExp :=
  { re_exec : jsstring -> option Match;
    re_replace : jsstring -> jsstring -> jsstring }.

(** An entry of the registry: a [RegExp] object or the source of one. *)
Inductive Pat := PatRe (r : RegExp) | PatStr (s : jsstring).

(** [this.regEx], [this.keys] (as [getRegularExpressions] and [getKeys] of
    [actor-importer-regexp.js] return them), [new RegExp(src, flags)]
    ([None]: a [SyntaxError]), [Number(s)] on strings and
    [game.i18n.localize]. *)
Record Host :=
  { regEx : string -> option Pat;
    keys : string -> option jsstring;
    newRegExp : jsstring -> string -> option RegExp;
    ToNumber : jsstring -> JsNum;
    localize : string -> jsstring }.

(** ** The importer object *)

Record Importer :=
  { text : jsstring;
    parsed : gmap string JsVal;
    notifications : list string }.

Definition withText (t : jsstring) (st : Importer) : Importer :=
  {| text := t; parsed := parsed st; notifications := notifications st |}.

Definition withParsed (p : gmap string JsVal) (st : Importer) : Importer :=
  {| text := text st; parsed := p; notifications := notifications st |}.

Definition warn (msg : string) (st : Importer) : Importer :=
  {| text := text st; parsed := parsed st;
     notifications := notifications st ++ [msg] |}.

(** [constructor ()].  The source leaves [this.text] unset until
    [parseCharacter] assigns it, before any method reads it; it is the empty
    string here. *)
Definition constructor : Importer :=
  {| text := []; parsed := ∅; notifications := [] |}.

Inductive Exn := TypeError | SyntaxError.

(** A method either returns, throws (the importer keeps what was written
    before the throw) or never returns. *)
Inductive Res (A : Type) :=
| Ok (a : A) (st : Importer)
| Throw (e : Exn) (st : Importer)
| Diverge.

Arguments Ok {A} a st.
Arguments Throw {A} e st.
Arguments Diverge {A}.

Definition M (A : Type) := Importer -> Res A.

Definition ret {A} (a : A) : M A := fun st => Ok a st.

Definition bind {A B} (c : M A) (k : A -> M B) : M B :=
  fun st =>
    match c st with
    | Ok a st' => k a st'
    | Throw e st' => Throw e st'
    | Diverge => Diverge
    end.

Definition throw {A} (e : Exn) : M A := fun st => Throw e st.
Definition get : M Importer := fun st => Ok st st.
Definition modify (f : Importer -> Importer) : M unit := fun st => Ok tt (f st).

Notation "'let*' x ':=' c 'in' k" := (bind c (fun x => k))
  (at level 10, x pattern, c at level 100, k at level 200).

(** ** [check]: the field extractor *)

Inductive OutType := asString | asNumber.

Record CheckOpts :=
  { removeFromText : bool;
    saveKeys : bool;
    type : OutType;
    opt_text : option jsstring;
    requiredGroup : option string }.

(** The defaults of the destructured argument of [check]. *)
Definition defaults : CheckOpts :=
  {| removeFromText := true; saveKeys := true; type := asString;
     opt_text := None; requiredGroup := None |}.

(** The result of a successful [check]: the groups with ['-source'] and
    ['-index']. *)
Record Output :=
  { o_groups : list (string * option jsstring);
    o_source : jsstring;
    o_index : nat }.

(** [groups[key]] *)
Fixpoint group (key : string) (g : list (string * option jsstring)) : option jsstring :=
  match g with
  | [] => None
  | (k, v) :: g' => if String.eqb k key then v else group key g'
  end.

(** [getRegEx (regex, modifiers = 'iu')] *)
Definition getRegEx (h : Host) (regex : Pat) (modifiers : string) : option RegExp :=
  match regex with
  | PatRe r => Some r
  | PatStr s => newRegExp h s modifiers
  end.

(** [String(x)] and [Number(x)] on a capture that may be [undefined]. *)
Definition StringOf (x : option jsstring) : jsstring :=
  match x with Some s => s | None => js "undefined" end.

Definition NumberOf (h : Host) (x : option jsstring) : JsNum :=
  match x with Some s => ToNumber h s | None => NaN end.

(** One turn of the [for (const key of Object.keys(check.groups))] loop. *)
Definition saveKey (h : Host) (ty : OutType) (p : gmap string JsVal)
    (kv : string * option jsstring) : gmap string JsVal :=
  match ty with
  | asString => <[fst kv := VStr (replaceFirst [LF] [SPACE] (StringOf (snd kv)))]> p
  | asNumber =>
      let value := NumberOf h (snd kv) in
      if isNaN value then p else <[fst kv := VNum (NumberOf h (snd kv))]> p
  end.

Definition saveGroups (h : Host) (ty : OutType)
    (g : list (string * option jsstring)) (p : gmap string JsVal) : gmap string JsVal :=
  fold_left (saveKey h ty) g p.

(** The pattern [check] looks up: [this.regEx[regExKey]], else
    [this.keys[regExKey]]. *)
Definition lookupPattern (h : Host) (regExKey : string) : option Pat :=
  match regEx h regExKey with
  | Some p => Some p
  | None => option_map PatStr (keys h regExKey)
  end.

Definition check (h : Host) (regExKey : string) (o : CheckOpts) : M (option Output) :=
  fun st =>
    match lookupPattern h regExKey with
    | None => Ok None st
    | Some p =>
        match getRegEx h p "iu" with
        | None => Throw SyntaxError st
        | Some regExp =>
            let text0 := match opt_text o with Some t => t | None => text st end in
            match re_exec regExp text0 with
            | None => Ok None st
            | Some chk =>
                let groups := match m_groups chk with Some g => g | None => [] end in
                let required :=
                  match requiredGroup o with
                  | None => true
                  | Some r => match group r groups with Some _ => true | None => false end
                  end in
                if required then
                  let output :=
                    {| o_groups := groups; o_source := m_source chk;
                       o_index := m_index chk |} in
                  let st1 :=
                    if removeFromText o
                    then withText (trim (replaceFirst (trim (m_source chk)) [LF] (text st))) st
                    else st in
                  if saveKeys o then
                    match m_groups chk with
                    | None => Throw TypeError st1
                    | Some g =>
                        Ok (Some output)
                           (withParsed (saveGroups h (type o) g (parsed st1)) st1)
                    end
                  else Ok (Some output) st1
                else Ok None st
            end
        end
    end.

(** ** [cleanString], [translateRoll] *)

Definition DOT : N := 46.

Definition dropDot (s : jsstring) : jsstring :=
  match s with
  | c :: s' => if c =? DOT then s' else s
  | [] => []
  end.

(** [s.replace(/\s*\.?\s*\.?$/, '')]: the leftmost match is the longest
    suffix made of blanks, an optional full stop, blanks and an optional full
    stop; read from the end of the string. *)
Definition stripTail (s : jsstring) : jsstring :=
  rev (dropWhile isWhiteSpace (dropDot (dropWhile isWhiteSpace (dropDot (rev s))))).

Definition cleanString (s : jsstring) : jsstring :=
  stripTail (trimStart (flattenBreaks s)).

(** The source of the dice pattern built by [translateRoll]. *)
Definition diceSource (diceShort : jsstring) : jsstring :=
  js "(?<n1>\d+)" ++ diceShort ++ js "(?<n2>\d+)".

Definition translateRoll (h : Host) (s : jsstring) : M jsstring :=
  match keys h "diceShort" with
  | Some diceShort =>
      match newRegExp h (diceSource diceShort) "iug" with
      | Some regEx => ret (re_replace regEx s (js "$<n1>D$<n2>"))
      | None => throw SyntaxError
      end
  | None => ret s
  end.

(** ** [processCombat] *)

(** The [data] object of a weapon (the object literal and the five
    [properties] assignments that follow it). *)
Definition weaponData (name damage : jsstring) (lastPercent : LastPercent)
    (isRanged ahdb addb : bool) : WeaponData :=
  let damages := splitOn 47 damage in
  let isShotgun := Nat.eqb (length damages) 3 in
  {| w_name := name;
     w_type := js "weapon";
     w_skill_id := lastPercent;
     w_properties :=
       {| shotgun := isShotgun;
          rngd := isRanged || isShotgun;
          melee := negb (isRanged || isShotgun);
          ahdb := ahdb;
          addb := addb |};
     w_range :=
       {| normal := {| rb_value := if isShotgun then 10%Z else 0%Z;
                       rb_damage := nth 0 damages [] |};
          long := {| rb_value := if isShotgun then 20%Z else 0%Z;
                     rb_damage := if isShotgun then nth 1 damages [] else [] |};
          extreme := {| rb_value := if isShotgun then 50%Z else 0%Z;
                        rb_damage := if isShotgun then nth 2 damages [] else [] |} |} |}.

(** [this.parsed.db.replace(/^[-+]/, '')] *)
Definition stripSign (db : jsstring) : jsstring :=
  match db with
  | c :: db' => if (c =? 45) || (c =? 43) then db' else db
  | [] => []
  end.

(** [this.keys.k] spliced into a string. *)
Definition keyText (h : Host) (k : string) : jsstring := StringOf (keys h k).

Definition halfdbSource (h : Host) (db : jsstring) : jsstring :=
  js "\s*[+-]?\s*(" ++ keyText h "halfdb" ++ js ")\s*(" ++ keyText h "fulldb"
  ++ js ")?[-+]?\s*(" ++ stripSign db ++ js ")?".

Definition fulldbSource (h : Host) (db : jsstring) : jsstring :=
  js "\s*[+-]?\s*(" ++ keyText h "fulldb" ++ js ")\s*[-+]?\s*("
  ++ stripSign db ++ js ")?".

(** [this.getRegEx(source built from this.parsed.db).exec(damage)] *)
Definition dbExec (h : Host) (source : Host -> jsstring -> jsstring)
    (damage : jsstring) : M (option Match) :=
  fun st =>
    match parsed st !! "db" with
    | Some (VStr db) =>
        match newRegExp h (source h db) "iu" with
        | Some re => Ok (re_exec re damage) st
        | None => Throw SyntaxError st
        end
    | _ => Throw TypeError st
    end.

(** The inner [do ... while (found)].  A turn that finds a match and leaves
    [damage] as it was repeats for ever; every other turn that goes on has
    shortened [damage], so that [fuel] above its length is never used up. *)
Fixpoint stripDb (fuel : nat) (h : Host) (damage : jsstring) (ahdb addb : bool)
    : M (jsstring * bool * bool) :=
  match fuel with
  | O => fun _ => Diverge
  | S fuel' =>
      let* found := dbExec h halfdbSource damage in
      match found with
      | Some f =>
          let damage' := replaceFirst (m_source f) [] damage in
          if eqs damage' damage then fun _ => Diverge
          else stripDb fuel' h damage' true addb
      | None =>
          let* found := dbExec h fulldbSource damage in
          match found with
          | Some f =>
              let damage' := replaceFirst (m_source f) [] damage in
              if eqs damage' damage then fun _ => Diverge
              else stripDb fuel' h damage' ahdb true
          | None => ret (damage, ahdb, addb)
          end
      end
  end.

(** [if (typeof this.parsed[key] === 'undefined') this.parsed[key] = []] *)
Definition initArray (key : string) : M unit :=
  fun st =>
    match parsed st !! key with
    | None => Ok tt (withParsed (<[key := VArr []]> (parsed st)) st)
    | Some _ => Ok tt st
    end.

(** [this.parsed[key].push(item)] *)
Definition push (key : string) (item : Item) : M unit :=
  fun st =>
    match parsed st !! key with
    | Some (VArr l) => Ok tt (withParsed (<[key := VArr (l ++ [item])]> (parsed st)) st)
    | _ => Throw TypeError st
    end.

(** The options of the five category checks on the weapon name. *)
Definition onName (name : jsstring) : CheckOpts :=
  {| removeFromText := false; saveKeys := false; type := asString;
     opt_text := Some name; requiredGroup := None |}.

(** [a || b] on two checks: [b] is not run when [a] matched. *)
Definition orElse (a b : M bool) : M bool :=
  let* x := a in if x then ret true else b.

Definition matched (c : M (option Output)) : M bool :=
  let* r := c in ret (match r with Some _ => true | None => false end).

Definition isRangedName (h : Host) (name : jsstring) : M bool :=
  orElse (matched (check h "handgun" (onName name)))
    (orElse (matched (check h "rifle" (onName name)))
       (orElse (matched (check h "smb" (onName name)))
          (orElse (matched (check h "machineGun" (onName name)))
             (matched (check h "launched" (onName name)))))).

(** [text.match(/^(.+)\n/)]: the first line, when it is not empty, holds no
    line terminator and ends in a line feed; the result is [newline[0]]. *)
Definition firstLine (t : jsstring) : option jsstring :=
  let l := takeWhile (fun c => negb (isLineTerminator c)) t in
  match l, drop (length l) t with
  | _ :: _, c :: _ => if c =? LF then Some (l ++ [LF]) else None
  | _, _ => None
  end.

(** [text.match(/^[^\n]+$/)] *)
Definition singleLine (t : jsstring) : bool :=
  match t with
  | [] => false
  | _ => forallb (fun c => negb (c =? LF)) t
  end.

(** The variables of the outer loop: [text], whether [weapon] and [dodge]
    are truthy, [lastPercent]. *)
Record CombatVars :=
  { c_text : jsstring;
    c_weapon : bool;
    c_dodge : bool;
    c_lastPercent : LastPercent }.

Definition onText (t : jsstring) (required : option string) : CheckOpts :=
  {| removeFromText := true; saveKeys := false; type := asString;
     opt_text := Some t; requiredGroup := required |}.

(** One turn of the outer [do ... while], after [maxLoops--]. *)
Definition combatStep (h : Host) (v : CombatVars) : M CombatVars :=
  let text := trim (c_text v) in
  let* dodge := check h "weaponDodge" (onText text None) in
  match dodge with
  | Some d =>
      let text := replaceFirst (o_source d) [LF] text in
      let* _ := initArray "skills" in
      let* name :=
        match group "name" (o_groups d) with
        | Some n => ret (cleanString n)
        | None => throw TypeError
        end in
      let* _ := push "skills"
                  (ISkill name (NumberOf h (group "percentage" (o_groups d))) (Some false)) in
      ret {| c_text := text; c_weapon := c_weapon v; c_dodge := true;
             c_lastPercent := c_lastPercent v |}
  | None =>
      let* weapon :=
        check h "weapon"
          (onText text (match c_lastPercent v with
                        | lpFalse => Some "percentage"%string
                        | _ => None
                        end)) in
      match weapon with
      | Some w =>
          let text := replaceFirst (o_source w) [LF] text in
          let name := cleanString (default [] (group "name" (o_groups w))) in
          let* damage := translateRoll h (cleanString (default [] (group "damage" (o_groups w)))) in
          let* isRanged := isRangedName h name in
          let lastPercent :=
            match group "percentage" (o_groups w) with
            | Some p => lpNumber (ToNumber h p)
            | None => lpTrue
            end in
          let* (damage, ahdb, addb) := stripDb (S (length damage)) h damage false false in
          let data := weaponData name damage lastPercent isRanged ahdb addb in
          let* _ := initArray "attacks" in
          let* _ := push "attacks" (IWeapon data) in
          ret {| c_text := text; c_weapon := true; c_dodge := false;
                 c_lastPercent := lastPercent |}
      | None =>
          let text :=
            match firstLine text with
            | Some newline0 => replaceFirst newline0 [LF] text
            | None => if singleLine text then [] else text
            end in
          ret {| c_text := text; c_weapon := false; c_dodge := false;
                 c_lastPercent := c_lastPercent v |}
      end
  end.

(** [while (maxLoops > 0 && (!!weapon || !!dodge || !!text))] *)
Definition goesOn (v : CombatVars) : bool :=
  c_weapon v || c_dodge v || negb (eqs (c_text v) []).

(** The outer loop; [n] is [maxLoops] after the [maxLoops--] of the turn
    being run.  The result holds the final [maxLoops]. *)
Fixpoint combatLoop (h : Host) (n : nat) (v : CombatVars) : M (nat * CombatVars) :=
  let* v' := combatStep h v in
  match n with
  | O => ret (O, v')
  | S n' => if goesOn v' then combatLoop h n' v' else ret (n, v')
  end.

Definition combatStart (text : jsstring) : CombatVars :=
  {| c_text := text; c_weapon := false; c_dodge := false; c_lastPercent := lpFalse |}.

Definition unexpectedWeapons : string :=
  "Unexpected weapons text, please raise a bug report with the text you are attempting to import".

Definition processCombat (h : Host) (text : jsstring) : M unit :=
  if eqs (trim text) [] then ret tt
  else
    let* (maxLoops, _) := combatLoop h 39 (combatStart text) in
    if Nat.eqb maxLoops 0 then modify (warn unexpectedWeapons) else ret tt.

(** ** [processSpells] *)

(** [text.split(/\.\r?\n/)[0]]: the text before the first full stop that ends
    a line (the whole text when there is none, which is also what the source
    keeps when [breaks.length] is 1). *)
Fixpoint firstSentence (s : jsstring) : jsstring :=
  match s with
  | [] => []
  | c :: s' =>
      if (c =? DOT) && (isPrefix [LF] s' || isPrefix [CR; LF] s') then []
      else c :: firstSentence s'
  end.

Definition LPAREN : N := 40.
Definition RPAREN : N := 41.
Definition COMMA : N := 44.

(** The lookbehind [\([^)]+] of the spell separator, on the text before the
    comma read backwards: one unit that is not [)], then units that are not
    [)] down to a [(]. *)
Definition lookbehindParen (before : jsstring) : bool :=
  match before with
  | [] => false
  | c :: rest =>
      negb (c =? RPAREN)
      && existsb (fun d => d =? LPAREN) (takeWhile (fun d => negb (d =? RPAREN)) rest)
  end.

(** Whether the unit [c], with [before] read backwards in front of it, is a
    match of [/(?<!\([^)]+),/]. *)
Definition isSeparator (before : jsstring) (c : N) : bool :=
  (c =? COMMA) && negb (lookbehindParen before).

(** [s.split(/(?<!\([^)]+),/)], with the text already passed in [before]. *)
Fixpoint splitSpells (before s : jsstring) : list jsstring :=
  match s with
  | [] => [[]]
  | c :: s' =>
      if isSeparator before c then [] :: splitSpells (c :: before) s'
      else match splitSpells (c :: before) s' with
           | [] => [[c]]
           | p :: ps => (c :: p) :: ps
           end
  end.

Fixpoint pushSpells (spellsArr : list jsstring) : M unit :=
  match spellsArr with
  | [] => ret tt
  | spell :: rest =>
      let* _ := initArray "spells" in
      let* _ := push "spells" (ISpell (cleanString spell)) in
      pushSpells rest
  end.

Definition processSpells (span : jsstring) : M unit :=
  if eqs (trim span) [] then ret tt
  else
    let span := firstSentence span in
    let spellsArr := splitSpells [] (squeezeBreaks span) in
    let* _ := modify (fun st => withText (replaceFirst (trim span) [LF] (text st)) st) in
    pushSpells spellsArr.

(** ** [parseCharacter]: normalisation, header, attributes

    The method is modelled up to the attacks per round; the split into
    sections that follows hands the spans to [processCombat],
    [processSkills] and [processSpells]. *)

Definition normalizeUnit (c : N) : N :=
  if (c =? 8211) || (c =? 8212) || (c =? 8722) then 45
  else if c =? 8217 then 39
  else c.

(** [.replace(/[\udbc0-\udbfe][\udc00-\udfff]/g, '')] *)
Fixpoint dropPrivatePlanes (s : jsstring) : jsstring :=
  match s with
  | [] => []
  | hi :: s' =>
      match s' with
      | [] => [hi]
      | lo :: s'' =>
          if (56256 <=? hi) && (hi <=? 56318) && (56320 <=? lo) && (lo <=? 57343)
          then dropPrivatePlanes s''
          else hi :: dropPrivatePlanes s'
      end
  end.

(** The value given to [this.text] at the start of [parseCharacter]. *)
Definition normalize (raw : jsstring) : jsstring :=
  dropPrivatePlanes (map normalizeUnit (trim raw)).

(** The keys of the eleven checks that look for the end of the header, in
    the order of the source. *)
Definition characteristicKeys : list string :=
  ["str"; "con"; "siz"; "int"; "pow"; "dex"; "app"; "edu"; "san"; "hp"; "mp"]%string.

Definition numeric : CheckOpts :=
  {| removeFromText := true; saveKeys := true; type := asNumber;
     opt_text := None; requiredGroup := None |}.

Definition inText (t : jsstring) : CheckOpts :=
  {| removeFromText := true; saveKeys := true; type := asString;
     opt_text := Some t; requiredGroup := None |}.

(** The eleven [check ... if (!isNaN(check)) min = Math.min(min, check)]. *)
Fixpoint scanCharacteristics (h : Host) (ks : list string) (min : nat) : M nat :=
  match ks with
  | [] => ret min
  | k :: ks' =>
      let* chk := check h k numeric in
      scanCharacteristics h ks'
        (match chk with Some o => Nat.min min (o_index o) | None => min end)
  end.

Definition setParsed (key : string) (v : JsVal) : M unit :=
  modify (fun st => withParsed (<[key := v]> (parsed st)) st).

Definition unnamed (h : Host) : JsVal :=
  VStr (localize h "CoC7.ImportedUnnamedCharacter").

(** [.replace(/,$/, '')] *)
Definition dropLastComma (s : jsstring) : jsstring :=
  match rev s with
  | c :: r => if c =? COMMA then rev r else s
  | [] => []
  end.

(** [occupation]: the header, or its part up to the first full stop. *)
Definition firstStop (header : jsstring) : jsstring :=
  match indexOf [DOT] header with
  | Some i => substr0 (i + 1) header
  | None => header
  end.

(** [if (min > 0) { ... } else { ... }] *)
Definition parseHeader (h : Host) (min : nat) : M unit :=
  if Nat.ltb 0 min then
    let* st := get in
    let header := substr0 min (text st) in
    let* chk := check h "name" (inText header) in
    let* header :=
      match chk with
      | None => let* _ := setParsed "name" (unnamed h) in ret header
      | Some o => ret (replaceFirst (o_source o) [LF] header)
      end in
    let* chk := check h "age" (inText header) in
    let header :=
      match chk with
      | Some o => replaceFirst (o_source o) [LF] header
      | None => header
      end in
    let* chk := check h "occupation" (inText header) in
    match chk with
    | None =>
        if negb (eqs (trim header) []) then
          let occupation := firstStop header in
          let* _ := setParsed "occupation"
                      (VStr (dropLastComma (trim (squeezeBreaks occupation)))) in
          modify (fun st => withText (replaceFirst (trim occupation) [LF] (text st)) st)
        else ret tt
    | Some _ => ret tt
    end
  else setParsed "name" (unnamed h).

(** [s.match(/^(?<age>\d+),(?<occupation>.+)$/)]: the two groups. *)
Definition occupationAge (s : jsstring) : option (jsstring * jsstring) :=
  let age := takeWhile isDigit s in
  match age, drop (length age) s with
  | _ :: _, c :: occupation =>
      if (c =? COMMA) && negb (eqs occupation [])
         && forallb (fun d => negb (isLineTerminator d)) occupation
      then Some (age, occupation)
      else None
  | _, _ => None
  end.

(** The split of an occupation that starts with the age. *)
Definition splitOccupationAge : M unit :=
  fun st =>
    match parsed st !! "occupation", parsed st !! "age" with
    | Some occ, None =>
        match occ with
        | VStr s =>
            match occupationAge s with
            | Some (age, occupation) =>
                Ok tt (withParsed (<["occupation" := VStr (trim occupation)]>
                                     (<["age" := VStr age]> (parsed st))) st)
            | None => Ok tt st
            end
        | _ => Throw TypeError st
        end
    | _, _ => Ok tt st
    end.

(** The first part of [parseCharacter], up to the split of age and
    occupation. *)
Definition parseCharacter_header (h : Host) (raw : jsstring) : M unit :=
  let* _ := modify (withText (normalize raw)) in
  let* st := get in
  let* min := scanCharacteristics h characteristicKeys (length (text st)) in
  let* _ := parseHeader h min in
  splitOccupationAge.

(** The options of the checks against a "none" sentinel;
    [text: this.parsed[key]] is [undefined] when the key is not set, and the
    default of [check], [this.text], then applies. *)
Definition sentinel (key : string) (st : Importer) : CheckOpts :=
  {| removeFromText := false; saveKeys := false; type := asString;
     opt_text := option_map ToString (parsed st !! key); requiredGroup := None |}.

(** [this.parsed[key] = this.translateRoll(this.parsed[key])] *)
Definition translateParsed (h : Host) (key : string) : M unit :=
  fun st =>
    match parsed st !! key with
    | None => Ok tt st
    | Some (VStr s) => (let* r := translateRoll h s in setParsed key (VStr r)) st
    | Some _ =>
        match keys h "diceShort" with
        | None => Ok tt st
        | Some diceShort =>
            match newRegExp h (diceSource diceShort) "iug" with
            | Some _ => Throw TypeError st
            | None => Throw SyntaxError st
            end
        end
    end.

(** [if (!this.check(key) || this.check(keyNone, ...)) this.parsed[key] = '0'] *)
Definition absentOrNone (h : Host) (key keyNone : string) : M unit :=
  let* found := check h key defaults in
  let* none :=
    match found with
    | None => ret true
    | Some _ => let* st := get in matched (check h keyNone (sentinel key st))
    end in
  if none then setParsed key (VStr (js "0")) else ret tt.

(** [if (this.check(key) && this.check(keyNone, ...)) this.parsed[key] = '0'] *)
Definition presentAndNone (h : Host) (key keyNone : string) : M unit :=
  let* found := check h key defaults in
  let* none :=
    match found with
    | None => ret false
    | Some _ => let* st := get in matched (check h keyNone (sentinel key st))
    end in
  if none then setParsed key (VStr (js "0")) else ret tt.

(** The second part of [parseCharacter]: damage bonus, build, armor,
    movement, luck, sanity loss, attacks per round; cut where the armor and
    the attacks per round are looked for. *)
Definition attributes_before_armor (h : Host) : M unit :=
  let* _ := absentOrNone h "db" "dbNone" in
  let* _ := translateParsed h "db" in
  let* _ := check h "build" defaults in
  ret tt.

Definition attributes_before_attacks (h : Host) : M unit :=
  let* _ := attributes_before_armor h in
  let* _ := absentOrNone h "armor" "armorNone" in
  let* _ := check h "mov" numeric in
  let* _ := check h "lck" numeric in
  let* _ := check h "sanLoss" defaults in
  translateParsed h "sanLoss".

Definition parseCharacter_attributes (h : Host) : M unit :=
  let* _ := attributes_before_attacks h in
  presentAndNone h "attacksPerRound" "attacksPerRoundNone".

(** ** [needsConversion], [convert7E] and the choice made by [createActor] *)

Definition ToNumberVal (h : Host) (v : JsVal) : JsNum :=
  match v with
  | VNum n => n
  | _ => ToNumber h (ToString v)
  end.

Definition mulNum (a b : JsNum) : JsNum :=
  match a, b with Int x, Int y => Int (x * y) | _, _ => NaN end.

Definition addNum (a b : JsNum) : JsNum :=
  match a, b with Int x, Int y => Int (x + y) | _, _ => NaN end.

Definition subNum (a b : JsNum) : JsNum :=
  match a, b with Int x, Int y => Int (x - y) | _, _ => NaN end.

Definition leNum (a b : JsNum) : bool :=
  match a, b with Int x, Int y => (x <=? y)%Z | _, _ => false end.

Definition gtNum (a b : JsNum) : bool :=
  match a, b with Int x, Int y => (y <? x)%Z | _, _ => false end.

Definition characteristics : list string :=
  ["str"; "con"; "siz"; "dex"; "app"; "int"; "pow"; "edu"]%string.

Definition needsConversion (h : Host) (npc : gmap string JsVal) : bool :=
  fold_left
    (fun needsConversionResult key =>
       match npc !! key with
       | Some v => if gtNum (ToNumberVal h v) (Int 30) then false else needsConversionResult
       | None => needsConversionResult
       end)
    characteristics true.

(** [creature[key] *= 5] when the key is defined. *)
Definition times5 (h : Host) (creature : gmap string JsVal) (key : string)
    : gmap string JsVal :=
  match creature !! key with
  | Some v => <[key := VNum (mulNum (ToNumberVal h v) (Int 5))]> creature
  | None => creature
  end.

(** [creature.edu + 90 - 18]: [+] concatenates when [edu] is not a number. *)
Definition remapEdu (h : Host) (edu : JsVal) : JsNum :=
  match edu with
  | VNum n => subNum (addNum n (Int 90)) (Int 18)
  | _ => subNum (ToNumber h (ToString edu ++ js "90")) (Int 18)
  end.

Definition convertEdu (h : Host) (creature : gmap string JsVal) : gmap string JsVal :=
  match creature !! "edu" with
  | Some edu =>
      if leNum (ToNumberVal h edu) (Int 18)
      then <["edu" := VNum (mulNum (ToNumberVal h edu) (Int 5))]> creature
      else if leNum (ToNumberVal h edu) (Int 26)
      then <["edu" := VNum (remapEdu h edu)]> creature
      else <["edu" := VNum (Int 99)]> creature
  | None => creature
  end.

Definition convertDb (creature : gmap string JsVal) : gmap string JsVal :=
  match creature !! "db" with
  | Some (VStr db) =>
      if eqs db (js "-1d4") then <["db" := VNum (Int (-1))]> creature
      else if eqs db (js "-1d6") then <["db" := VNum (Int (-2))]> creature
      else creature
  | _ => creature
  end.

(** The keys of the first loop of [convert7E]. *)
Definition multiplied : list string :=
  ["str"; "con"; "siz"; "dex"; "app"; "int"; "pow"]%string.

Definition convert7E (h : Host) (creature : gmap string JsVal) : gmap string JsVal :=
  convertDb (convertEdu h (fold_left (times5 h) multiplied creature)).

(** The conversion step of [createActor], on [inputs.convertFrom6E] and the
    record [parseCharacter] returned. *)
Definition shouldConvert (h : Host) (convertFrom6E : jsstring)
    (character : gmap string JsVal) : bool :=
  (eqs convertFrom6E (js "coc-guess") && needsConversion h character)
  || eqs convertFrom6E (js "coc-convert").

Definition convertStep (h : Host) (convertFrom6E : jsstring)
    (character : gmap string JsVal) : gmap string JsVal :=
  if shouldConvert h convertFrom6E character
  then convert7E h character
  else character.

(** ** A small host

    Modelled from the spec: the pattern registry [actor-importer-regexp.js]
    and the regular expression engine are not part of the sources.  [Sample]
    is a small English registry in the shape the spec gives it (one template
    per field, named captures called after the fields, lexical keys for the
    damage-bonus words and the weapon categories), run by a backtracking
    matcher.  The general results below hold for every host; this one is
    where they are evaluated. *)

Module Sample.

Inductive Rx :=
| Eps
| Chr (p : N -> bool)
| Seq (a b : Rx)
| Alt (a b : Rx)
| Star (a : Rx)
| Grp (name : string) (a : Rx)
| Bol
| Eol.

Definition Caps := list (string * option jsstring).

Fixpoint setCap (name : string) (v : jsstring) (c : Caps) : Caps :=
  match c with
  | [] => []
  | (k, old) :: c' =>
      if String.eqb k name then (k, Some v) :: c' else (k, old) :: setCap name v c'
  end.

Definition slice (b e : nat) (s : jsstring) : jsstring := take (e - b) (drop b s).

(** Backtracking search with a continuation; [Star] is greedy and gives up
    on an iteration that consumes nothing. *)
Fixpoint go (fuel : nat) (s : jsstring) (r : Rx) (pos : nat) (caps : Caps)
    (k : nat -> Caps -> option (nat * Caps)) : option (nat * Caps) :=
  match fuel with
  | O => None
  | S f =>
      match r with
      | Eps => k pos caps
      | Chr p =>
          match drop pos s with
          | c :: _ => if p c then k (S pos) caps else None
          | [] => None
          end
      | Seq a b => go f s a pos caps (fun pos' caps' => go f s b pos' caps' k)
      | Alt a b =>
          match go f s a pos caps k with
          | Some res => Some res
          | None => go f s b pos caps k
          end
      | Star a =>
          match go f s a pos caps
                  (fun pos' caps' =>
                     if Nat.ltb pos pos' then go f s (Star a) pos' caps' k else None) with
          | Some res => Some res
          | None => k pos caps
          end
      | Grp name a =>
          go f s a pos caps (fun pos' caps' => k pos' (setCap name (slice pos pos' s) caps'))
      | Bol => if Nat.eqb pos 0 then k pos caps else None
      | Eol => if Nat.eqb pos (length s) then k pos caps else None
      end
  end.

Fixpoint groupNames (r : Rx) : list string :=
  match r with
  | Seq a b | Alt a b => groupNames a ++ groupNames b
  | Star a => groupNames a
  | Grp name a => name :: groupNames a
  | _ => []
  end.

Definition noCaps (r : Rx) : Caps := map (fun n => (n, None)) (groupNames r).

Definition fuelFor (s : jsstring) : nat := 64 + 16 * length s.

(** The leftmost match that starts at [start] or one of the [n] offsets
    after it. *)
Fixpoint search (fuel : nat) (r : Rx) (s : jsstring) (n start : nat)
    : option (nat * nat * Caps) :=
  match go fuel s r start (noCaps r) (fun e c => Some (e, c)) with
  | Some (e, c) => Some (start, e, c)
  | None =>
      match n with
      | O => None
      | S n' => search fuel r s n' (S start)
      end
  end.

Definition exec (r : Rx) (s : jsstring) : option Match :=
  match search (fuelFor s) r s (length s) 0 with
  | Some (b, e, c) =>
      Some {| m_source := slice b e s; m_index := b;
              m_groups := match c with [] => None | _ => Some c end |}
  | None => None
  end.

(** [$<name>] in a replacement template. *)
Fixpoint expand (fuel : nat) (tpl : jsstring) (c : Caps) : jsstring :=
  match fuel with
  | O => tpl
  | S f =>
      match tpl with
      | 36 :: 60 :: rest =>
          let name := takeWhile (fun d => negb (d =? 62)) rest in
          let after := drop (S (length name)) rest in
          let key := String.string_of_list_ascii (map ascii_of_N name) in
          default [] (group key c) ++ expand f after c
      | d :: rest => d :: expand f rest c
      | [] => []
      end
  end.

(** [s.replace(re, tpl)] for a global [re]; [done] is what has been passed. *)
Fixpoint replaceAll (fuel : nat) (r : Rx) (tpl s : jsstring) (from : nat) : jsstring :=
  match fuel with
  | O => drop from s
  | S f =>
      match search (fuelFor s) r s (length s - from) from with
      | Some (b, e, c) =>
          slice from b s ++ expand (length tpl) tpl c
          ++ (if Nat.ltb b e then replaceAll f r tpl s e
              else slice b (S b) s ++ replaceAll f r tpl s (S b))
      | None => drop from s
      end
  end.

Definition compile (r : Rx) : RegExp :=
  {| re_exec := exec r;
     re_replace := fun s tpl => replaceAll (S (length s)) r tpl s 0 |}.

(** Pattern combinators. *)
Definition lower (c : N) : N := if (65 <=? c) && (c <=? 90) then c + 32 else c.

Definition unit_i (x : N) : Rx := Chr (fun c => lower c =? lower x).

Fixpoint lit (s : jsstring) : Rx :=
  match s with
  | [] => Eps
  | [x] => unit_i x
  | x :: s' => Seq (unit_i x) (lit s')
  end.

Definition word (s : string) : Rx := lit (js s).
Definition plus (r : Rx) : Rx := Seq r (Star r).
Definition opt (r : Rx) : Rx := Alt r Eps.
Definition ws : Rx := Chr isWhiteSpace.
Definition digit : Rx := Chr isDigit.
Definition isLetter (c : N) : bool :=
  ((65 <=? c) && (c <=? 90)) || ((97 <=? c) && (c <=? 122)).
Definition oneOf (s : string) : Rx := Chr (fun c => existsb (N.eqb c) (js s)).
Definition noneOf (s : jsstring) : Rx := Chr (fun c => negb (existsb (N.eqb c) s)).

Fixpoint seq (l : list Rx) : Rx :=
  match l with
  | [] => Eps
  | [r] => r
  | r :: l' => Seq r (seq l')
  end.

Fixpoint alt (l : list Rx) : Rx :=
  match l with
  | [] => Chr (fun _ => false)
  | [r] => r
  | r :: l' => Alt r (alt l')
  end.

(** [LABEL:? (?<key>\d+)] *)
Definition labelled (label key : string) : Rx :=
  seq [word label; opt (oneOf ":"); Star ws; Grp key (plus digit)].

(** [LABEL:? (?<key>none|value+)] *)
Definition labelledText (label key : string) (value : Rx) : Rx :=
  seq [word label; opt (oneOf ":"); Star ws; Grp key (Alt (word "none") (plus value))].

Definition nameUnit : Rx := Chr (fun c => isLetter c || (c =? 32) || (c =? 39) || (c =? 46)).
Definition weaponNameUnit : Rx :=
  Chr (fun c => isLetter c || (c =? 32) || (c =? 40) || (c =? 41) || (c =? 46)).
Definition rollUnit : Rx :=
  Chr (fun c => isDigit c || isLetter c || (c =? 43) || (c =? 45) || (c =? 47) || (c =? 32)).

Definition weaponRx : Rx :=
  seq [Bol;
       Grp "name" (plus weaponNameUnit);
       opt (seq [plus ws; Grp "percentage" (plus digit); oneOf "%"]);
       opt (seq [opt (oneOf ","); Star ws; word "damage"; plus ws; Grp "damage" (plus rollUnit)]);
       alt [oneOf ","; Chr (fun c => c =? LF); Eol]].

Definition table : list (string * Rx) :=
  [ ("str", labelled "STR" "str"); ("con", labelled "CON" "con");
    ("siz", labelled "SIZ" "siz"); ("int", labelled "INT" "int");
    ("pow", labelled "POW" "pow"); ("dex", labelled "DEX" "dex");
    ("app", labelled "APP" "app"); ("edu", labelled "EDU" "edu");
    ("san", labelled "SAN" "san"); ("hp", labelled "HP" "hp");
    ("mp", labelled "MP" "mp");
    ("name", seq [Bol; Star ws; Grp "name" (plus nameUnit);
                  alt [oneOf ","; Chr (fun c => c =? LF); Eol]]);
    ("age", seq [opt (seq [word "age"; opt (oneOf ":")]); Star ws;
                 Grp "age" (plus digit); opt (oneOf ",")]);
    ("occupation", seq [word "occupation"; opt (oneOf ":"); Star ws;
                        Grp "occupation" (plus (noneOf [LF; DOT]))]);
    ("db", labelledText "damage bonus" "db" (Alt digit (oneOf "+-dDwW")));
    ("dbNone", word "none");
    ("build", seq [word "build"; opt (oneOf ":"); Star ws;
                   Grp "build" (seq [opt (oneOf "+-"); plus digit])]);
    ("armor", labelledText "armor" "armor" (noneOf [LF; DOT]));
    ("armorNone", word "none");
    ("mov", labelled "move" "mov");
    ("lck", labelled "luck" "lck");
    ("sanLoss", seq [word "sanity loss"; opt (oneOf ":"); Star ws;
                     Grp "sanLoss" (plus (Alt digit (oneOf "+-dDwW/")))]);
    ("attacksPerRound", labelledText "attacks per round" "attacksPerRound" digit);
    ("attacksPerRoundNone", word "none");
    ("weaponDodge", seq [Grp "name" (word "dodge"); plus ws;
                         Grp "percentage" (plus digit); oneOf "%"; opt (oneOf ",")]);
    ("weapon", weaponRx);
    ("handgun", alt [word "pistol"; word "revolver"; word "handgun"]);
    ("rifle", alt [word "rifle"; word "shotgun"; word "carbine"]);
    ("smb", alt [word "smg"; word "submachine gun"]);
    ("machineGun", word "machine gun");
    ("launched", alt [word "bow"; word "sling"]) ].

Fixpoint assoc {A} (key : string) (l : list (string * A)) : option A :=
  match l with
  | [] => None
  | (k, v) :: l' => if String.eqb k key then Some v else assoc key l'
  end.

Definition keyTable : list (string * jsstring) :=
  [ ("diceShort", js "W"); ("halfdb", js "half"); ("fulldb", js "db") ].

Definition halfdbRx (db : jsstring) : Rx :=
  seq [Star ws; opt (oneOf "+-"); Star ws; word "half";
       Star ws; opt (word "db"); opt (oneOf "-+"); Star ws; opt (lit db)].

Definition fulldbRx (db : jsstring) : Rx :=
  seq [Star ws; opt (oneOf "+-"); Star ws; word "db"; Star ws; opt (oneOf "-+");
       Star ws; opt (lit db)].

Definition diceRx : Rx :=
  seq [Grp "n1" (plus digit); word "W"; Grp "n2" (plus digit)].

(** The registry without an engine, for the sources built from its keys. *)
Definition registry : Host :=
  {| regEx := fun _ => None;
     keys := fun k => assoc k keyTable;
     newRegExp := fun _ _ => None;
     ToNumber := fun _ => NaN;
     localize := fun k => js k |}.

(** The sources this host knows how to compile: the dice pattern and the two
    damage-bonus patterns for the damage bonuses [dbs]. *)
Definition sources (dbs : list jsstring) : list (jsstring * Rx) :=
  (diceSource (js "W"), diceRx)
  :: flat_map
       (fun db =>
          [ (halfdbSource registry db, halfdbRx (stripSign db));
            (fulldbSource registry db, fulldbRx (stripSign db)) ])
       dbs.

Fixpoint assocs {A} (key : jsstring) (l : list (jsstring * A)) : option A :=
  match l with
  | [] => None
  | (k, v) :: l' => if eqs k key then Some v else assocs key l'
  end.

(** [Number(s)] on the literals of this registry: blanks around an optional
    sign and decimal digits; the empty string is 0. *)
Fixpoint digitsValue (acc : Z) (s : jsstring) : JsNum :=
  match s with
  | [] => Int acc
  | c :: s' => if isDigit c then digitsValue (10 * acc + Z.of_N (c - 48)) s' else NaN
  end.

Definition signedValue (s : jsstring) : JsNum :=
  match s with
  | 45 :: d =>
      match d with
      | [] => NaN
      | _ => match digitsValue 0 d with Int z => Int (- z) | NaN => NaN end
      end
  | 43 :: d => match d with [] => NaN | _ => digitsValue 0 d end
  | _ => digitsValue 0 s
  end.

Definition toNumber (s : jsstring) : JsNum := signedValue (trim s).

Definition host : Host :=
  {| regEx := fun k => option_map (fun r => PatRe (compile r)) (assoc k table);
     keys := fun k => assoc k keyTable;
     newRegExp := fun src _ =>
       option_map compile
         (assocs src (sources [js "0"; js "1D4"; js "+1D4"; js "-1D4"]));
     ToNumber := toNumber;
     localize := fun k =>
       if String.eqb k "CoC7.ImportedUnnamedCharacter" then js "Unnamed character"
       else js k |}.

(** Whether a pattern can match the empty string, and whether every match
    of it fills the group [name]. *)
Fixpoint nullable (r : Rx) : bool :=
  match r with
  | Eps | Bol | Eol | Star _ => true
  | Chr _ => false
  | Seq a b => nullable a && nullable b
  | Alt a b => nullable a || nullable b
  | Grp _ a => nullable a
  end.

Fixpoint fills (name : string) (r : Rx) : bool :=
  match r with
  | Grp n a => String.eqb n name || fills name a
  | Seq a b => fills name a || fills name b
  | Alt a b => fills name a && fills name b
  | _ => false
  end.

End Sample.

(** ** Notions used to state the results *)

(** Whether a key of the record vetoes the conversion. *)
Definition above30 (h : Host) (npc : gmap string JsVal) (key : string) : bool :=
  match npc !! key with
  | Some v => gtNum (ToNumberVal h v) (Int 30)
  | None => false
  end.

(** The importer as [parseCharacter] leaves it for the section parsers
    when the text had no damage bonus: [this.parsed.db] is the string "0". *)
Definition afterAttributes : Importer :=
  withParsed (<["db" := VStr (js "0")]> ∅) constructor.

(** The items of one array of the parsed record. *)
Definition items (key : string) (st : Importer) : list Item :=
  match parsed st !! key with
  | Some (VArr l) => l
  | _ => []
  end.

(** How many units of [s] are separators of the spell list, with [before]
    read backwards in front of [s]. *)
Fixpoint countSeparators (before s : jsstring) : nat :=
  match s with
  | [] => O
  | c :: s' =>
      (if isSeparator before c then 1 else 0)%nat + countSeparators (c :: before) s'
  end.

(** The text a call of [check] runs its pattern on. *)
Definition subject (o : CheckOpts) (st : Importer) : jsstring :=
  match opt_text o with Some t => t | None => text st end.

(** [regExKey] stands for the compiled expression [re]. *)
Definition resolves (h : Host) (regExKey : string) (re : RegExp) : Prop :=
  exists p, lookupPattern h regExKey = Some p /\ getRegEx h p "iu" = Some re.

(** The pattern of [regExKey], when there is one, compiles. *)
Definition compiles (h : Host) (regExKey : string) : Prop :=
  forall p, lookupPattern h regExKey = Some p -> is_Some (getRegEx h p "iu").

Definition unmatched (h : Host) (regExKey : string) (t : jsstring) : Prop :=
  forall re, resolves h regExKey re -> re_exec re t = None.

Definition matches (h : Host) (regExKey : string) (t : jsstring) (m : Match) : Prop :=
  exists re, resolves h regExKey re /\ re_exec re t = Some m.

(** [check.groups || {}] *)
Definition groupsOf (m : Match) : list (string * option jsstring) :=
  match m_groups m with Some g => g | None => [] end.

Definition outputOf (m : Match) : Output :=
  {| o_groups := groupsOf m; o_source := m_source m; o_index := m_index m |}.

(** What [removeFromText] does to the importer. *)
Definition removed (o : CheckOpts) (m : Match) (st : Importer) : Importer :=
  if removeFromText o
  then withText (trim (replaceFirst (trim (m_source m)) [LF] (text st))) st
  else st.

Definition requiredOk (o : CheckOpts) (m : Match) : bool :=
  match requiredGroup o with
  | None => true
  | Some r => match group r (groupsOf m) with Some _ => true | None => false end
  end.

(** The keys [processCombat] hands to [check]. *)
Definition combatKeys : list string :=
  ["weaponDodge"; "weapon"; "handgun"; "rifle"; "smb"; "machineGun"; "launched"]%string.

(** A compiled expression whose matches are non-empty pieces of the text it
    is run on. *)
Definition consumes (re : RegExp) : Prop :=
  forall t m, re_exec re t = Some m ->
    m_source m <> [] /\ exists a b, t = a ++ m_source m ++ b.

Definition arrayOrAbsent (key : string) (st : Importer) : Prop :=
  parsed st !! key = None \/ exists l, parsed st !! key = Some (VArr l).

(** What [processCombat] relies on to return: its patterns compile, the
    dodge pattern captures a name, the dice pattern compiles, the damage
    bonus is a string whose two patterns compile and only match what they
    can delete, and the two arrays it pushes on are arrays when they exist. *)
Record CombatReady (h : Host) (st : Importer) : Prop :=
  { ready_patterns : Forall (compiles h) combatKeys;
    ready_dodge : forall t m, matches h "weaponDodge" t m ->
                              is_Some (group "name" (groupsOf m));
    ready_dice : forall d, keys h "diceShort" = Some d ->
                           is_Some (newRegExp h (diceSource d) "iug");
    ready_db : exists db, parsed st !! "db" = Some (VStr db)
                 /\ (exists re, newRegExp h (halfdbSource h db) "iu" = Some re
                                /\ consumes re)
                 /\ (exists re, newRegExp h (fulldbSource h db) "iu" = Some re
                                /\ consumes re);
    ready_skills : arrayOrAbsent "skills" st;
    ready_attacks : arrayOrAbsent "attacks" st }.

(** [lastPercent] after a weapon match. *)
Definition percentOf (h : Host) (m : Match) : LastPercent :=
  match group "percentage" (groupsOf m) with
  | Some p => lpNumber (ToNumber h p)
  | None => lpTrue
  end.

(** The [requiredGroup] of the weapon check. *)
Definition weaponRequired (lastPercent : LastPercent) : option string :=
  match lastPercent with
  | lpFalse => Some "percentage"%string
  | _ => None
  end.

(** [text] after a turn in which neither pattern matched. *)
Definition skipLine (t : jsstring) : jsstring :=
  match firstLine t with
  | Some newline0 => replaceFirst newline0 [LF] t
  | None => if singleLine t then [] else t
  end.

(** The number of turns of the outer loop, from the final [maxLoops]. *)
Definition turns (maxLoops : nat) : nat := 40 - maxLoops.

(** The first [k] turns of the outer loop run one after the other, whatever
    they leave: [k] times the body of the [do ... while]. *)
Fixpoint combatTurns (h : Host) (k : nat) (v : CombatVars) : M CombatVars :=
  match k with
  | O => ret v
  | S k' => let* v' := combatStep h v in combatTurns h k' v'
  end.

(** On the text [t] the dodge pattern does not match and the weapon pattern
    matches [source], with the given name and percentage captures. *)
Definition weaponMatch (h : Host) (t source name : jsstring)
    (percentage : option jsstring) : Prop :=
  unmatched h "weaponDodge" t
  /\ exists m, matches h "weapon" t m
               /\ m_source m = source
               /\ group "name" (groupsOf m) = Some name
               /\ group "percentage" (groupsOf m) = percentage.

(** [lastPercent] for a percentage capture. *)
Definition percentFor (h : Host) (percentage : option jsstring) : LastPercent :=
  match percentage with
  | Some p => lpNumber (ToNumber h p)
  | None => lpTrue
  end.

(** The names and the skill references of the weapons of a list of items. *)
Definition weaponNames (l : list Item) : list jsstring :=
  flat_map (fun i => match i with IWeapon d => [w_name d] | _ => [] end) l.

Definition skillIds (l : list Item) : list LastPercent :=
  flat_map (fun i => match i with IWeapon d => [w_skill_id d] | _ => [] end) l.

(** The occupation recorded for a header with no occupation pattern in it. *)
Definition headerOccupation (header : jsstring) : jsstring :=
  dropLastComma (trim (squeezeBreaks (firstStop header))).

(** The keys of the three header checks. *)
Definition headerKeys : list string := ["name"; "age"; "occupation"]%string.

(** What [check] stores for a string capture. *)
Definition captured (v : option jsstring) : jsstring :=
  replaceFirst [LF] [SPACE] (StringOf v).

(** Every match of the pattern has one named group, called after the key. *)
Definition ownGroup (h : Host) (key : string) : Prop :=
  forall t m, matches h key t m -> exists v, m_groups m = Some [(key, v)].

Definition attributeKeys : list string :=
  ["db"; "build"; "armor"; "mov"; "lck"; "sanLoss"; "attacksPerRound"]%string.

Definition sentinelKeys : list string :=
  ["dbNone"; "armorNone"; "attacksPerRoundNone"]%string.

(** The dice pattern compiles and finds no roll in "0". *)
Definition diceKeepsZero (h : Host) : Prop :=
  forall d, keys h "diceShort" = Some d ->
    exists re, newRegExp h (diceSource d) "iug" = Some re
               /\ re_replace re (js "0") (js "$<n1>D$<n2>") = js "0".

(** What the attribute part of [parseCharacter] relies on: its patterns
    compile, each field pattern has its one group, the dice pattern leaves
    "0" alone. *)
Record AttributesReady (h : Host) : Prop :=
  { attr_compiles : Forall (compiles h) (attributeKeys ++ sentinelKeys);
    attr_groups : Forall (ownGroup h) attributeKeys;
    attr_dice : diceKeepsZero h }.

(** The field pattern matched and the value it stored matches the "none"
    sentinel. *)
Definition matchedNone (h : Host) (key keyNone : string) (t : jsstring) : Prop :=
  exists m v n, matches h key t m /\ m_groups m = Some [(key, v)]
                /\ matches h keyNone (captured v) n.

(** The field pattern matched and the value it stored is not "none". *)
Definition matchedValue (h : Host) (key keyNone : string) (t : jsstring)
    (value : jsstring) : Prop :=
  exists m v, matches h key t m /\ m_groups m = Some [(key, v)]
              /\ unmatched h keyNone (captured v) /\ value = captured v.

(** ** Further methods of the importer *)

(** What [/^[,.\s]+$/] is made of. *)
Definition isFiller (c : N) : bool :=
  (c =? COMMA) || (c =? DOT) || isWhiteSpace c.

(** [text.replace(/^[,.\s]+$/, '')] *)
Definition dropFiller (line : jsstring) : jsstring :=
  match line with
  | [] => []
  | _ => if forallb isFiller line then [] else line
  end.

(** The lines [toHTML] keeps: trimmed, emptied when they hold nothing but
    commas, full stops and blanks, and then filtered. *)
Definition paragraphs (s : jsstring) : list jsstring :=
  List.filter (fun t => negb (eqs t []))
    (map (fun t => dropFiller (trim t)) (splitOn LF (trim s))).

Definition toHTML (s : jsstring) : jsstring :=
  if eqs (trim s) [] then []
  else
    let s := joinWith (js "</p><p>") (paragraphs s) in
    if eqs s [] then [] else js "<p>" ++ s ++ js "</p>".

(** One turn of the loop of [processSkills], after [maxLoops--]: the text
    left and whether [skill] is truthy. *)
Definition skillStep (h : Host) (key : string) (t : jsstring) : M (jsstring * bool) :=
  let t := trim t in
  let* skill := check h "skill" (onText t None) in
  match skill with
  | Some s =>
      let t := replaceFirst (o_source s) [LF] t in
      let* _ := initArray key in
      let* name :=
        match group "name" (o_groups s) with
        | Some n => ret (cleanString n)
        | None => throw TypeError
        end in
      let* _ := push key (ISkill name (NumberOf h (group "percentage" (o_groups s))) None) in
      ret (t, true)
  | None => ret (t, false)
  end.

(** The loop of [processSkills]; [n] is [maxLoops] after the [maxLoops--] of
    the turn being run.  The result holds the final [maxLoops] and whether
    the last turn found a skill. *)
Fixpoint skillLoop (h : Host) (key : string) (n : nat) (t : jsstring) : M (nat * bool) :=
  let* r := skillStep h key t in
  match n with
  | O => ret (O, snd r)
  | S n' => if snd r then skillLoop h key n' (fst r) else ret (n, false)
  end.

Definition unexpectedSkills : string :=
  "Unexpected skills text, please raise a bug report with the text you are attempting to import".

(** [processSkills (text, key = 'skills')] *)
Definition processSkills (h : Host) (span : jsstring) (key : string) : M unit :=
  if eqs (trim span) [] then ret tt
  else
    let* r := skillLoop h key 39 (firstSentence span) in
    if Nat.eqb (fst r) 0 then modify (warn unexpectedSkills) else ret tt.

(** The values of [updateData] in [createEntity]. *)
Inductive UpdateVal := UBool (b : bool) | UNum (n : JsNum) | UStr (s : jsstring).

(** [Math.max(0, n)] *)
Definition atLeastZero (n : JsNum) : JsNum :=
  match n with
  | NaN => NaN
  | Int z => Int (Z.max 0 z)
  end.

(** [a !== b] on numbers. *)
Definition differs (a b : JsNum) : bool :=
  match a, b with
  | Int x, Int y => negb (x =? y)%Z
  | _, _ => true
  end.

(** [`data.attribs.${key}.${field}`] *)
Definition attribPath (key field : string) : string :=
  String.append "data.attribs." (String.append key (String.append "." field)).

(** [disableAttribAuto (key, attribValue, check, updateData)], on the numbers
    its callers hand it. *)
Definition disableAttribAuto (key : string) (attribValue check : JsNum)
    (updateData : gmap string UpdateVal) : gmap string UpdateVal :=
  let value := atLeastZero attribValue in
  if differs value check then
    let updateData := <[attribPath key "auto" := UBool false]> updateData in
    let updateData := <[attribPath key "value" := UNum value]> updateData in
    if String.eqb key "build"
    then <[attribPath key "current" := UNum value]> updateData
    else <[attribPath key "max" := UNum value]> updateData
  else updateData.

(** The object [actorData] returns ([flags] and the empty [keeper] it starts
    from are constants). *)
Record ActorData :=
  { a_characteristics : gmap string JsNum;
    a_attribs : gmap string JsVal;
    a_infos : gmap string JsVal;
    a_sanLoss : option (jsstring * option jsstring);
    a_attacksPerRound : option JsNum;
    a_keeper : option JsVal;
    a_locked : bool;
    a_displayFormula : bool }.

(** [data[key] = { value: Number(pc[key]) }] for the keys that are defined. *)
Definition numbersOf (h : Host) (pc : gmap string JsVal) (ks : list string)
    : gmap string JsNum :=
  fold_left
    (fun data key =>
       match pc !! key with
       | Some v => <[key := ToNumberVal h v]> data
       | None => data
       end)
    ks ∅.

Definition attribKeys : list string :=
  ["san"; "mov"; "build"; "armor"; "lck"; "hp"; "mp"]%string.

(** [data[key] = pc[key]] for the keys that are defined. *)
Definition copied (pc : gmap string JsVal) (ks : list string) : gmap string JsVal :=
  fold_left
    (fun data key =>
       match pc !! key with
       | Some v => <[key := v]> data
       | None => data
       end)
    ks ∅.

(** [actorData (pc)]; [None] is the [TypeError] of [pc.sanLoss.split] on a
    sanity loss that is not a string. *)
Definition actorData (h : Host) (pc : gmap string JsVal) : option ActorData :=
  let attribs :=
    match pc !! "db" with
    | Some db => <["db" := db]> (VNum <$> numbersOf h pc attribKeys)
    | None => VNum <$> numbersOf h pc attribKeys
    end in
  let build (sanLoss : option (jsstring * option jsstring)) :=
    {| a_characteristics := numbersOf h pc characteristics;
       a_attribs := attribs;
       a_infos := copied pc ["age"; "occupation"]%string;
       a_sanLoss := sanLoss;
       a_attacksPerRound := ToNumberVal h <$> pc !! "attacksPerRound";
       a_keeper := pc !! "gmnotes";
       a_locked := false;
       a_displayFormula := false |} in
  match pc !! "sanLoss" with
  | None => Some (build None)
  | Some (VStr s) =>
      Some (build (Some (nth 0 (splitOn 47 s) [],
                         match splitOn 47 s with
                         | _ :: failed :: _ => Some failed
                         | _ => None
                         end)))
  | Some _ => None
  end.

(** The documents and compendium packs [guessItem] looks through. *)
Record ItemDoc :=
  { d_type : jsstring;
    d_name : jsstring;
    d_combat : option bool }.

Record Pack :=
  { p_entity : jsstring;
    p_package : jsstring;
    p_documents : list ItemDoc }.

(** [game.items], [game.packs] and [String.prototype.toLowerCase]. *)
Record Game :=
  { g_items : list ItemDoc;
    g_packs : list Pack;
    toLowerCase : jsstring -> jsstring }.

(** The predicate of the two [find]: [name] is already in lower case,
    [combat] is [None] for [null]. *)
Definition isItem (g : Game) (type name : jsstring) (combat : option bool)
    (item : ItemDoc) : bool :=
  eqs (d_type item) type
  && eqs (toLowerCase g (d_name item)) name
  && match combat with
     | None => true
     | Some c =>
         match d_combat item with
         | Some c' => Bool.eqb c' c
         | None => false
         end
     end.

(** The condition under which a pack is opened, for the location letter
    [loc]. *)
Definition packOpened (loc : N) (pack : Pack) : bool :=
  eqs (p_entity pack) (js "Item")
  && (((loc =? 119) && eqs (p_package pack) (js "world"))
      || ((loc =? 83) && eqs (p_package pack) (js "CoC7"))
      || ((loc =? 115)
          && negb (eqs (p_package pack) (js "world") || eqs (p_package pack) (js "CoC7")))).

(** [for (const pack of game.packs)] *)
Fixpoint searchPacks (g : Game) (loc : N) (type name : jsstring) (combat : option bool)
    (packs : list Pack) : option ItemDoc :=
  match packs with
  | [] => None
  | pack :: rest =>
      if packOpened loc pack then
        match List.find (isItem g type name combat) (p_documents pack) with
        | Some existing => Some existing
        | None => searchPacks g loc type name combat rest
        end
      else searchPacks g loc type name combat rest
  end.

(** The loop over the letters of [this.itemLocations]. *)
Fixpoint searchLocations (g : Game) (itemLocations : jsstring) (type name : jsstring)
    (combat : option bool) : option ItemDoc :=
  match itemLocations with
  | [] => None
  | loc :: rest =>
      if loc =? 105 then
        match List.find (isItem g type name combat) (g_items g) with
        | Some existing => Some existing
        | None => searchLocations g rest type name combat
        end
      else if (loc =? 119) || (loc =? 109) || (loc =? 115) then
        match searchPacks g loc type name combat (g_packs g) with
        | Some existing => Some existing
        | None => searchLocations g rest type name combat
        end
      else searchLocations g rest type name combat
  end.

(** [guessItem (type, name, { combat = null } = {})]; [None] is
    [undefined]. *)
Definition guessItem (g : Game) (itemLocations type name : jsstring)
    (combat : option bool) : option ItemDoc :=
  searchLocations g itemLocations type (toLowerCase g name) combat.

(** The modelled part of [parseCharacter]. *)
Definition parseCharacter_fields (h : Host) (raw : jsstring) : M unit :=
  let* _ := parseCharacter_header h raw in
  parseCharacter_attributes h.

(** ** Further notions *)

(** The education [convert7E] stores for the education [edu]. *)
Definition eduTier (h : Host) (edu : JsVal) : JsNum :=
  if leNum (ToNumberVal h edu) (Int 18) then mulNum (ToNumberVal h edu) (Int 5)
  else if leNum (ToNumberVal h edu) (Int 26) then remapEdu h edu
  else Int 99.

(** The damage bonus [convert7E] stores for the damage bonus [db]. *)
Definition dbTier (db : JsVal) : JsVal :=
  match db with
  | VStr s =>
      if eqs s (js "-1d4") then VNum (Int (-1))
      else if eqs s (js "-1d6") then VNum (Int (-2))
      else db
  | _ => db
  end.

(** What [processSkills] relies on to return: the skill pattern compiles,
    its matches capture a name, and the array it pushes on is an array when
    it exists. *)
Record SkillsReady (h : Host) (key : string) (st : Importer) : Prop :=
  { skills_pattern : compiles h "skill";
    skills_name : forall t m, matches h "skill" t m ->
                              is_Some (group "name" (groupsOf m));
    skills_array : arrayOrAbsent key st }.

(** The entries [processSkills] pushes: a name and a value, no [push]. *)
Definition isSkillEntry (i : Item) : Prop :=
  exists name value, i = ISkill name value None.

(** The entry [processCombat] pushes for a dodge. *)
Definition isDodgeEntry (i : Item) : Prop :=
  exists name value, i = ISkill name value (Some false).

(** A weapon entry that names its skill, by a percentage or, with [true],
    by the weapon listed before it. *)
Definition isWeaponEntry (i : Item) : Prop :=
  exists d, i = IWeapon d /\ w_skill_id d <> lpFalse.

(** A weapon entry with a percentage of its own. *)
Definition hasOwnPercent (i : Item) : Prop :=
  exists d n, i = IWeapon d /\ w_skill_id d = lpNumber n.

(** The keys under which the field stages of [parseCharacter] store numbers,
    and those under which they store texts. *)
Definition numberKeys : list string := characteristicKeys ++ ["mov"; "lck"]%string.

Definition textKeys : list string :=
  headerKeys ++ ["db"; "build"; "armor"; "sanLoss"; "attacksPerRound"]%string.

Definition numberOrAbsent (key : string) (st : Importer) : Prop :=
  parsed st !! key = None \/ exists z, parsed st !! key = Some (VNum (Int z)).

Definition textOrAbsent (key : string) (st : Importer) : Prop :=
  parsed st !! key = None \/ exists s, parsed st !! key = Some (VStr s).

Definition isText (key : string) (st : Importer) : Prop :=
  exists s, parsed st !! key = Some (VStr s).

(** The shape of the parsed record while the fields are read. *)
Record Shaped (st : Importer) : Prop :=
  { shaped_numbers : forall key, key ∈ numberKeys -> numberOrAbsent key st;
    shaped_texts : forall key, key ∈ textKeys -> textOrAbsent key st }.

(** [st'] is reached from [st] by reading fields: the record keeps its
    shape, a text field that was set is still set, nothing was notified and
    the buffer did not grow. *)
Record Follows (st st' : Importer) : Prop :=
  { follows_shape : Shaped st';
    follows_texts : forall key, key ∈ textKeys -> isText key st -> isText key st';
    follows_quiet : notifications st' = notifications st;
    follows_buffer : (length (text st') <= length (text st))%nat }.

(** What the field stages of [parseCharacter] rely on: their patterns
    compile, each field pattern has its one group, called after the field,
    and the dice pattern compiles. *)
Record FieldsReady (h : Host) : Prop :=
  { fields_compile :
      Forall (compiles h) (characteristicKeys ++ headerKeys ++ attributeKeys ++ sentinelKeys);
    fields_groups :
      Forall (ownGroup h) (characteristicKeys ++ headerKeys ++ attributeKeys);
    fields_dice : forall d, keys h "diceShort" = Some d ->
                            is_Some (newRegExp h (diceSource d) "iug") }.

(** [s] reads [age], a comma, [occupation], where [age] is a non-empty run
    of digits and [occupation] a non-empty text on one line. *)
Definition readsAgeFirst (s age occupation : jsstring) : Prop :=
  s = age ++ COMMA :: occupation
  /\ age <> [] /\ forallb isDigit age = true
  /\ occupation <> []
  /\ forallb (fun d => negb (isLineTerminator d)) occupation = true.

(** The keys of the five categories of ranged weapons, in the order
    [processCombat] tries them. *)
Definition rangedKeys : list string :=
  ["handgun"; "rifle"; "smb"; "machineGun"; "launched"]%string.

(** ** A host with a skill pattern *)

(** Modelled from the spec: the pattern of one entry of a skill list, a name
    followed by a percentage, in the manner of the patterns of [Sample]. *)
Definition skillRx : Sample.Rx :=
  Sample.seq [Sample.Grp "name" (Sample.plus Sample.weaponNameUnit);
              Sample.plus Sample.ws;
              Sample.Grp "percentage" (Sample.plus Sample.digit);
              Sample.oneOf "%"; Sample.opt (Sample.oneOf ",")].

(** Modelled from the spec: the registry [Sample.host] with the skill
    pattern added. *)
Definition skillsHost : Host :=
  {| regEx := fun k =>
       if String.eqb k "skill" then Some (PatRe (Sample.compile skillRx))
       else regEx Sample.host k;
     keys := keys Sample.host;
     newRegExp := newRegExp Sample.host;
     ToNumber := ToNumber Sample.host;
     localize := localize Sample.host |}.

(** * Results *)

(** ** Strings *)

Lemma eqs_eq (a b : jsstring) : eqs a b = true <-> a = b.
Proof.
  revert b; induction a as [|x a IH]; intros [|y b]; simpl; try (split; done).
  rewrite andb_true_iff, N.eqb_eq, IH. split.
  - by intros [-> ->].
  - by intros [= -> ->].
Qed.

Lemma eqs_refl (a : jsstring) : eqs a a = true.
Proof. by apply eqs_eq. Qed.

Lemma eqs_neq (a b : jsstring) : eqs a b = false <-> a <> b.
Proof.
  rewrite <- eqs_eq. destruct (eqs a b); split; try done.
Qed.

Lemma dropWhile_length (p : N -> bool) (s : jsstring) :
  (length (dropWhile p s) <= length s)%nat.
Proof.
  induction s as [|c s IH]; simpl; [lia|]. destruct (p c); simpl; lia.
Qed.

Lemma trimStart_length (s : jsstring) : (length (trimStart s) <= length s)%nat.
Proof. apply dropWhile_length. Qed.

Lemma trimEnd_length (s : jsstring) : (length (trimEnd s) <= length s)%nat.
Proof.
  unfold trimEnd. rewrite length_rev.
  etransitivity; [apply dropWhile_length|]. by rewrite length_rev.
Qed.

Lemma trim_length (s : jsstring) : (length (trim s) <= length s)%nat.
Proof.
  unfold trim. etransitivity; [apply trimEnd_length | apply trimStart_length].
Qed.

Lemma isPrefix_length (p s : jsstring) :
  isPrefix p s = true -> (length p <= length s)%nat.
Proof.
  revert s; induction p as [|x p IH]; intros [|y s]; simpl; try done; try lia.
  rewrite andb_true_iff. intros [_ H]. apply IH in H. lia.
Qed.

Lemma isPrefix_app (p s : jsstring) :
  isPrefix p s = true <-> exists r, s = p ++ r.
Proof.
  revert s; induction p as [|x p IH]; intros s; simpl.
  - split; [intros _; by exists s | done].
  - destruct s as [|y s].
    + split; [done | by intros [r [=]]].
    + rewrite andb_true_iff, N.eqb_eq, IH. split.
      * intros [-> [r ->]]. by exists r.
      * intros [r [= -> ->]]. split; [done | by exists r].
Qed.

(** A replacement that is not longer than a non-empty pattern never lengthens
    the string. *)
Lemma replaceFirst_length (pat rep s : jsstring) :
  (length rep <= length pat)%nat ->
  (length (replaceFirst pat rep s) <= length s)%nat.
Proof.
  intros Hle. induction s as [|c s IH]; simpl.
  - destruct (isPrefix pat []) eqn:E; [|simpl; lia].
    apply isPrefix_length in E. rewrite length_app, length_drop. simpl in *. lia.
  - destruct (isPrefix pat (c :: s)) eqn:E; [|simpl; lia].
    apply isPrefix_length in E. rewrite length_app, length_drop. simpl in *. lia.
Qed.

Lemma replaceFirst_empty (rep s : jsstring) : replaceFirst [] rep s = rep ++ s.
Proof. by destruct s. Qed.

(** Deleting a pattern either leaves the string as it is or shortens it. *)
Lemma replaceFirst_delete (pat s : jsstring) :
  replaceFirst pat [] s = s \/ (length (replaceFirst pat [] s) < length s)%nat.
Proof.
  induction s as [|c s IH]; simpl.
  - destruct (isPrefix pat []) eqn:E; [|by left]. left. by rewrite drop_nil.
  - destruct (isPrefix pat (c :: s)) eqn:E.
    + destruct pat as [|x pat]; [by left|]. right.
      apply isPrefix_length in E. rewrite length_drop. simpl in *. lia.
    + destruct IH as [-> | IH]; [by left | right; simpl; lia].
Qed.

Lemma replaceFirst_prefix (pat rep s : jsstring) :
  isPrefix pat s = true -> replaceFirst pat rep s = rep ++ drop (length pat) s.
Proof. intros E. destruct s; simpl; by rewrite E. Qed.

(** A pattern that occurs and is not empty is deleted. *)
Lemma replaceFirst_delete_occurs (pat a b : jsstring) :
  pat <> [] ->
  (length (replaceFirst pat [] (a ++ pat ++ b)) < length (a ++ pat ++ b))%nat.
Proof.
  intros Hne. induction a as [|c a IH].
  - rewrite app_nil_l, replaceFirst_prefix by (apply isPrefix_app; by exists b).
    rewrite app_nil_l, length_drop, length_app.
    destruct pat; [done | simpl; lia].
  - simpl. destruct (isPrefix pat (c :: a ++ pat ++ b)) eqn:E.
    + apply isPrefix_length in E. rewrite length_drop.
      destruct pat; [done | simpl in *; lia].
    + simpl. simpl in IH. lia.
Qed.

Lemma trim_after_newline (s : jsstring) : trim ([LF] ++ s) = trim s.
Proof. reflexivity. Qed.

(** ** [check] *)

(** The buffer after the removal step of [check]. *)
Lemma removal_shrinks (source t : jsstring) :
  (length (trim (replaceFirst (trim source) [LF] t)) <= length t)%nat.
Proof.
  destruct (trim source) as [|c r] eqn:E.
  - rewrite replaceFirst_empty, trim_after_newline. apply trim_length.
  - etransitivity; [apply trim_length|]. apply replaceFirst_length. simpl. lia.
Qed.

(** C9.  One call of [check], whatever its options and whether or not the
    pattern matched, returns or throws with a text buffer that is not longer
    than before the call. *)
Theorem check_buffer_never_grows (h : Host) (regExKey : string) (o : CheckOpts)
    (st : Importer) :
  match check h regExKey o st with
  | Ok _ st' => (length (text st') <= length (text st))%nat
  | Throw _ st' => (length (text st') <= length (text st))%nat
  | Diverge => False
  end.
Proof.
  unfold check.
  destruct (lookupPattern h regExKey) as [p|]; [|done].
  destruct (getRegEx h p "iu") as [re|]; [|done].
  destruct (re_exec re _) as [chk|]; [|done].
  destruct (match requiredGroup o with Some _ => _ | None => _ end); [|done].
  assert (Hst1 : (length (text (if removeFromText o
                    then withText (trim (replaceFirst (trim (m_source chk)) [LF] (text st))) st
                    else st)) <= length (text st))%nat).
  { destruct (removeFromText o); simpl; [apply removal_shrinks | lia]. }
  destruct (saveKeys o); [|done].
  destruct (m_groups chk); simpl; done.
Qed.

Lemma saveKey_other (h : Host) (ty : OutType) (p : gmap string JsVal)
    (kv : string * option jsstring) (key : string) :
  fst kv <> key -> saveKey h ty p kv !! key = p !! key.
Proof.
  intros Hne. unfold saveKey. destruct ty.
  - by rewrite lookup_insert_ne.
  - destruct (isNaN _); [done | by rewrite lookup_insert_ne].
Qed.

Lemma saveGroups_cons (h : Host) (ty : OutType) (kv : string * option jsstring)
    (g : list (string * option jsstring)) (p : gmap string JsVal) :
  saveGroups h ty (kv :: g) p = saveGroups h ty g (saveKey h ty p kv).
Proof. reflexivity. Qed.

Lemma saveGroups_other (h : Host) (ty : OutType)
    (g : list (string * option jsstring)) (p : gmap string JsVal) (key : string) :
  key ∉ map fst g -> saveGroups h ty g p !! key = p !! key.
Proof.
  revert p; induction g as [|kv g IH]; intros p Hnot; [done|].
  simpl in Hnot. apply not_elem_of_cons in Hnot as [Hne Hnot].
  rewrite saveGroups_cons, IH by done. by apply saveKey_other.
Qed.

Lemma saveGroups_number (h : Host) (g : list (string * option jsstring))
    (p : gmap string JsVal) (key : string) (v : option jsstring) :
  NoDup (map fst g) -> (key, v) ∈ g ->
  saveGroups h asNumber g p !! key =
    if isNaN (NumberOf h v) then p !! key else Some (VNum (NumberOf h v)).
Proof.
  revert p; induction g as [|[k0 v0] g IH]; intros p Hnd Hin.
  - by apply elem_of_nil in Hin.
  - simpl in Hnd. apply NoDup_cons in Hnd as [Hk0 Hnd].
    rewrite saveGroups_cons.
    apply elem_of_cons in Hin as [[= -> ->] | Hin].
    + rewrite saveGroups_other by done. unfold saveKey. simpl.
      destruct (isNaN (NumberOf h v0)); [done | by rewrite lookup_insert_eq].
    + rewrite IH by done.
      assert (k0 <> key).
      { intros ->. apply Hk0. by apply (list_elem_of_fmap_2 fst) in Hin. }
      destruct (isNaN (NumberOf h v)); [|done]. by apply saveKey_other.
Qed.

(** C8.  A call of [check] that asks for numbers and whose pattern matches
    returns normally; a named capture whose value is not a number leaves the
    parsed record as it was under that name, and every capture of the same
    match that is a number is recorded. *)
Theorem check_number_skips_invalid (h : Host) (regExKey : string) (o : CheckOpts)
    (st : Importer) (p : Pat) (re : RegExp) (chk : Match)
    (g : list (string * option jsstring)) :
  type o = asNumber ->
  saveKeys o = true ->
  lookupPattern h regExKey = Some p ->
  getRegEx h p "iu" = Some re ->
  re_exec re (match opt_text o with Some t => t | None => text st end) = Some chk ->
  m_groups chk = Some g ->
  NoDup (map fst g) ->
  (forall r, requiredGroup o = Some r -> is_Some (group r g)) ->
  exists out st',
    check h regExKey o st = Ok (Some out) st'
    /\ forall key v, (key, v) ∈ g ->
         if isNaN (NumberOf h v)
         then parsed st' !! key = parsed st !! key
         else parsed st' !! key = Some (VNum (NumberOf h v)).
Proof.
  intros Hty Hsave Hp Hre Hexec Hg Hnd Hreq.
  unfold check. rewrite Hp, Hre, Hexec, Hg, Hsave, Hty.
  assert (Hr : match requiredGroup o with
               | Some r => match group r g with Some _ => true | None => false end
               | None => true
               end = true).
  { destruct (requiredGroup o) as [r|]; [|done].
    destruct (Hreq r eq_refl) as [x ->]. done. }
  rewrite Hr. eexists _, _. split; [reflexivity|].
  intros key v Hin. simpl.
  rewrite (saveGroups_number h g _ key v Hnd Hin).
  destruct (removeFromText o); simpl; by destruct (isNaN _).
Qed.

Lemma check_number_skips_invalid_witness :
  exists out st',
    check Sample.host "weapon" numeric (withText (js "Rifle 45%") constructor)
      = Ok (Some out) st'
    /\ parsed st' !! "name" = None
    /\ parsed st' !! "percentage" = Some (VNum (Int 45)).
Proof.
  destruct (check_number_skips_invalid Sample.host "weapon" numeric
              (withText (js "Rifle 45%") constructor)
              (PatRe (Sample.compile Sample.weaponRx)) (Sample.compile Sample.weaponRx)
              {| m_source := js "Rifle 45%"; m_index := 0;
                 m_groups := Some [("name", Some (js "Rifle"));
                                   ("percentage", Some (js "45"));
                                   ("damage", None)] |}
              [("name", Some (js "Rifle")); ("percentage", Some (js "45"));
               ("damage", None)])
    as (out & st' & Hc & Hg).
  - reflexivity.
  - reflexivity.
  - reflexivity.
  - reflexivity.
  - vm_compute. reflexivity.
  - reflexivity.
  - apply (bool_decide_unpack _). vm_compute. exact I.
  - intros r [=].
  - exists out, st'. split; [exact Hc|]. split.
    + apply (Hg "name" (Some (js "Rifle"))). apply (bool_decide_unpack _). vm_compute. exact I.
    + apply (Hg "percentage" (Some (js "45"))). apply (bool_decide_unpack _). vm_compute. exact I.
Defined.

(** ** [needsConversion] and [convert7E] *)

Lemma fold_veto {A} (f : bool -> A -> bool) (bad : A -> bool) (l : list A) (acc : bool) :
  (forall r x, f r x = if bad x then false else r) ->
  fold_left f l acc = acc && forallb (fun x => negb (bad x)) l.
Proof.
  intros Hf. revert acc; induction l as [|x l IH]; intros acc; simpl.
  - by rewrite andb_true_r.
  - rewrite IH, Hf. by destruct (bad x), acc.
Qed.

Lemma needsConversion_forallb (h : Host) (npc : gmap string JsVal) :
  needsConversion h npc = forallb (fun key => negb (above30 h npc key)) characteristics.
Proof.
  unfold needsConversion. rewrite (fold_veto _ (above30 h npc)); [done|].
  intros r key. unfold above30. by destruct (npc !! key).
Qed.

Lemma above30_number (h : Host) (npc : gmap string JsVal) (key : string) (z : Z) :
  npc !! key = Some (VNum (Int z)) -> above30 h npc key = (30 <? z)%Z.
Proof. intros E. unfold above30. by rewrite E. Qed.

(** C10.  On a record whose defined characteristics are numbers, the
    auto-detect mode converts exactly when every defined characteristic is
    at most 30: one defined characteristic above 30 keeps the record as it
    is, and a record without characteristics is converted. *)
Theorem coc_guess_converts_iff (h : Host) (character : gmap string JsVal) :
  (forall key v, key ∈ characteristics -> character !! key = Some v ->
                 exists z, v = VNum (Int z)) ->
  (shouldConvert h (js "coc-guess") character = true
   <-> forall key z, key ∈ characteristics ->
                     character !! key = Some (VNum (Int z)) -> (z <= 30)%Z)
  /\ (forall key z, key ∈ characteristics ->
                    character !! key = Some (VNum (Int z)) -> (30 < z)%Z ->
                    convertStep h (js "coc-guess") character = character)
  /\ ((forall key, key ∈ characteristics -> character !! key = None) ->
      convertStep h (js "coc-guess") character = convert7E h character)
  /\ convertStep h (js "coc-guess") character
     = (if shouldConvert h (js "coc-guess") character
        then convert7E h character else character).
Proof.
  intros Hnum.
  assert (Hiff : shouldConvert h (js "coc-guess") character = true
                 <-> forall key z, key ∈ characteristics ->
                       character !! key = Some (VNum (Int z)) -> (z <= 30)%Z).
  { unfold shouldConvert. rewrite eqs_refl. simpl. rewrite orb_false_r.
    rewrite needsConversion_forallb, forallb_forall. split.
    - intros H key z Hin Hz. apply list_elem_of_In in Hin.
      specialize (H key Hin). rewrite (above30_number _ _ _ _ Hz) in H.
      apply negb_true_iff, Z.ltb_ge in H. lia.
    - intros H key Hin. apply list_elem_of_In in Hin.
      unfold above30. destruct (character !! key) as [v|] eqn:E; [|done].
      destruct (Hnum key v Hin E) as [z ->]. simpl.
      apply negb_true_iff, Z.ltb_ge. by apply (H key z). }
  split; [exact Hiff|]. split; [|split; [|reflexivity]].
  - intros key z Hin Hz Hgt. unfold convertStep.
    destruct (shouldConvert h (js "coc-guess") character) eqn:E; [|done].
    destruct Hiff as [Hiff _]. specialize (Hiff eq_refl key z Hin Hz). lia.
  - intros Hnone. unfold convertStep.
    assert (E : shouldConvert h (js "coc-guess") character = true).
    { apply Hiff. intros key z Hin Hz. rewrite (Hnone key Hin) in Hz. done. }
    by rewrite E.
Qed.

Lemma coc_guess_converts_iff_witness :
  shouldConvert Sample.host (js "coc-guess")
    (<["str" := VNum (Int 12)]> (<["edu" := VNum (Int 30)]> ∅)) = true
  /\ convertStep Sample.host (js "coc-guess")
       (<["str" := VNum (Int 12)]> (<["edu" := VNum (Int 30)]> ∅)) !! "str"
     = Some (VNum (Int 60)).
Proof.
  assert (Hnum : forall key v, key ∈ characteristics ->
            (<["str" := VNum (Int 12)]> (<["edu" := VNum (Int 30)]> ∅) : gmap string JsVal)
              !! key = Some v ->
            exists z, v = VNum (Int z)).
  { intros key v _ Hv.
    destruct (decide (key = "str")) as [->|Hs].
    - rewrite lookup_insert_eq in Hv. injection Hv as <-. by exists 12%Z.
    - rewrite lookup_insert_ne in Hv by done.
      destruct (decide (key = "edu")) as [->|He].
      + rewrite lookup_insert_eq in Hv. injection Hv as <-. by exists 30%Z.
      + rewrite lookup_insert_ne in Hv by done. by rewrite lookup_empty in Hv. }
  destruct (coc_guess_converts_iff Sample.host _ Hnum) as (Hiff & _ & _ & Hstep).
  split.
  - reflexivity.
  - rewrite Hstep. reflexivity.
Defined.

Lemma times5_lookup (h : Host) (c : gmap string JsVal) (k key : string) :
  times5 h c k !! key =
    if decide (k = key)
    then (fun v => VNum (mulNum (ToNumberVal h v) (Int 5))) <$> c !! key
    else c !! key.
Proof.
  unfold times5. destruct (decide (k = key)) as [->|Hne].
  - destruct (c !! key) as [v|] eqn:E; simpl.
    + by rewrite lookup_insert_eq.
    + by rewrite E.
  - destruct (c !! k); [by rewrite lookup_insert_ne | done].
Qed.

Lemma fold_times5_lookup (h : Host) (ks : list string) (c : gmap string JsVal)
    (key : string) :
  NoDup ks ->
  fold_left (times5 h) ks c !! key =
    if decide (key ∈ ks)
    then (fun v => VNum (mulNum (ToNumberVal h v) (Int 5))) <$> c !! key
    else c !! key.
Proof.
  revert c; induction ks as [|k ks IH]; intros c Hnd; simpl.
  - destruct (decide (key ∈ [])) as [Hin|]; [by apply elem_of_nil in Hin | done].
  - apply NoDup_cons in Hnd as [Hk Hnd]. rewrite IH by done.
    rewrite times5_lookup.
    destruct (decide (key ∈ ks)) as [Hin|Hnin].
    + destruct (decide (k = key)) as [->|Hne]; [done|].
      destruct (decide (key ∈ k :: ks)) as [|Hn]; [done|].
      exfalso. apply Hn. by right.
    + destruct (decide (k = key)) as [->|Hne].
      * destruct (decide (key ∈ key :: ks)) as [|Hn]; [done|].
        exfalso. apply Hn. by left.
      * destruct (decide (key ∈ k :: ks)) as [Hin|]; [|done].
        apply elem_of_cons in Hin as [->|Hin]; done.
Qed.

Lemma convertEdu_other (h : Host) (c : gmap string JsVal) (key : string) :
  key <> "edu" -> convertEdu h c !! key = c !! key.
Proof.
  intros Hne. unfold convertEdu. destruct (c !! "edu"); [|done].
  repeat (destruct (leNum _ _)); by rewrite lookup_insert_ne.
Qed.

Lemma convertDb_other (c : gmap string JsVal) (key : string) :
  key <> "db" -> convertDb c !! key = c !! key.
Proof.
  intros Hne. unfold convertDb. destruct (c !! "db") as [[| db |]|]; try done.
  repeat (destruct (eqs db _)); try done; by rewrite lookup_insert_ne.
Qed.

Lemma multiplied_NoDup : NoDup multiplied.
Proof. apply (bool_decide_unpack _). by vm_compute. Qed.

(** C1, amended.  On every record run through [convert7E]: a characteristic
    of 15 becomes 75, an education of 20 becomes 92 (20 + 90 - 18, inside the
    91-98 band of the middle tier), an education of 27 becomes 99, and the
    damage bonus "-1d4" becomes the number -1. *)
Theorem convert7E_samples (h : Host) (creature : gmap string JsVal) :
  (forall key, key ∈ characteristics -> creature !! key = Some (VNum (Int 15)) ->
               convert7E h creature !! key = Some (VNum (Int 75)))
  /\ (creature !! "edu" = Some (VNum (Int 20)) ->
      convert7E h creature !! "edu" = Some (VNum (Int 92)))
  /\ (creature !! "edu" = Some (VNum (Int 27)) ->
      convert7E h creature !! "edu" = Some (VNum (Int 99)))
  /\ (creature !! "db" = Some (VStr (js "-1d4")) ->
      convert7E h creature !! "db" = Some (VNum (Int (-1)))).
Proof.
  assert (Hedu : forall v, creature !! "edu" = Some v ->
            convert7E h creature !! "edu"
            = convertEdu h (<["edu" := v]> ∅) !! "edu").
  { intros v Hv. unfold convert7E. rewrite convertDb_other by done.
    unfold convertEdu. rewrite fold_times5_lookup by apply multiplied_NoDup.
    destruct (decide ("edu" ∈ multiplied)) as [Hin|_].
    { exfalso. revert Hin. apply (bool_decide_unpack _). by vm_compute. }
    rewrite Hv, lookup_insert_eq.
    repeat (destruct (leNum _ _)); by rewrite !lookup_insert_eq. }
  split; [|split; [|split]].
  - intros key Hin Hv. destruct (decide (key = "edu")) as [->|He].
    + rewrite (Hedu _ Hv). reflexivity.
    + assert (Hd : key <> "db").
      { intros ->. revert Hin. apply (bool_decide_unpack _). by vm_compute. }
      assert (Hm : key ∈ multiplied).
      { revert Hin. unfold characteristics, multiplied.
        rewrite !elem_of_cons, !elem_of_nil. tauto. }
      unfold convert7E. rewrite convertDb_other, convertEdu_other by done.
      rewrite fold_times5_lookup by apply multiplied_NoDup.
      destruct (decide (key ∈ multiplied)); [|done]. by rewrite Hv.
  - intros Hv. rewrite (Hedu _ Hv). reflexivity.
  - intros Hv. rewrite (Hedu _ Hv). reflexivity.
  - intros Hv. unfold convert7E, convertDb.
    rewrite convertEdu_other by done.
    rewrite fold_times5_lookup by apply multiplied_NoDup.
    destruct (decide ("db" ∈ multiplied)) as [Hin|_].
    { exfalso. revert Hin. apply (bool_decide_unpack _). by vm_compute. }
    rewrite Hv. simpl. by rewrite lookup_insert_eq.
Qed.

Lemma convert7E_samples_witness :
  convert7E Sample.host
    (<["siz" := VNum (Int 15)]> (<["edu" := VNum (Int 20)]>
       (<["db" := VStr (js "-1d4")]> ∅))) !! "siz" = Some (VNum (Int 75))
  /\ convert7E Sample.host
       (<["siz" := VNum (Int 15)]> (<["edu" := VNum (Int 20)]>
          (<["db" := VStr (js "-1d4")]> ∅))) !! "edu" = Some (VNum (Int 92))
  /\ convert7E Sample.host
       (<["siz" := VNum (Int 15)]> (<["edu" := VNum (Int 20)]>
          (<["db" := VStr (js "-1d4")]> ∅))) !! "db" = Some (VNum (Int (-1)))
  /\ convert7E Sample.host (<["edu" := VNum (Int 27)]> ∅) !! "edu"
     = Some (VNum (Int 99)).
Proof.
  destruct (convert7E_samples Sample.host
              (<["siz" := VNum (Int 15)]> (<["edu" := VNum (Int 20)]>
                 (<["db" := VStr (js "-1d4")]> ∅)))) as (H15 & H20 & _ & Hdb).
  destruct (convert7E_samples Sample.host (<["edu" := VNum (Int 27)]> ∅))
    as (_ & _ & H27 & _).
  split; [|split; [|split]].
  - apply (H15 "siz"); [apply (bool_decide_unpack _); vm_compute; exact I | reflexivity].
  - apply H20. reflexivity.
  - apply Hdb. reflexivity.
  - apply H27. reflexivity.
Defined.

(** C1 as stated fails: an education of 20 does not become 100. *)
Lemma convert7E_edu_20_is_not_100 :
  convert7E Sample.host (<["edu" := VNum (Int 20)]> ∅) !! "edu"
    = Some (VNum (Int 92))
  /\ convert7E Sample.host (<["edu" := VNum (Int 20)]> ∅) !! "edu"
     <> Some (VNum (Int 100)).
Proof. split; [reflexivity | by vm_compute]. Qed.

(** ** Weapon records *)

Lemma splitOn_not_nil (sep : N) (s : jsstring) : splitOn sep s <> [].
Proof.
  destruct s as [|c s]; simpl; [done|].
  destruct (c =? sep); [done|]. by destruct (splitOn sep s).
Qed.

(** The number of parts is one more than the number of separators. *)
Lemma splitOn_length (sep : N) (s : jsstring) :
  length (splitOn sep s) = S (length (filter (fun c => c = sep) s)).
Proof.
  induction s as [|c s IH]; [done|]. cbn [splitOn].
  rewrite filter_cons. destruct (N.eqb_spec c sep) as [->|Hne].
  - rewrite decide_True by done. simpl. by rewrite IH.
  - rewrite decide_False by done. rewrite <- IH.
    pose proof (splitOn_not_nil sep s). by destruct (splitOn sep s).
Qed.

Lemma splitOn_no_separator (sep : N) (s : jsstring) :
  sep ∉ s -> splitOn sep s = [s].
Proof.
  induction s as [|c s IH]; intros Hnot; simpl; [done|].
  apply not_elem_of_cons in Hnot as [Hne Hnot].
  destruct (N.eqb_spec c sep) as [->|_]; [done|]. by rewrite IH.
Qed.

(** C5, amended.  A damage expression that splits on [/] into exactly three
    parts gives a shotgun with bands at 10, 20 and 50 that hold the three
    parts in order.  With any other number of parts the weapon is not a
    shotgun, the three bands are at distance 0, the long and extreme damages
    are empty and the normal band holds the first part, which is the whole
    expression when it has no [/]. *)
Theorem weaponData_range_bands (name damage : jsstring) (lastPercent : LastPercent)
    (isRanged ahdb addb : bool) :
  (forall a b c, splitOn 47 damage = [a; b; c] ->
     shotgun (w_properties (weaponData name damage lastPercent isRanged ahdb addb)) = true
     /\ w_range (weaponData name damage lastPercent isRanged ahdb addb)
        = {| normal := {| rb_value := 10; rb_damage := a |};
             long := {| rb_value := 20; rb_damage := b |};
             extreme := {| rb_value := 50; rb_damage := c |} |})
  /\ (length (splitOn 47 damage) <> 3%nat ->
      shotgun (w_properties (weaponData name damage lastPercent isRanged ahdb addb)) = false
      /\ w_range (weaponData name damage lastPercent isRanged ahdb addb)
         = {| normal := {| rb_value := 0; rb_damage := hd [] (splitOn 47 damage) |};
              long := {| rb_value := 0; rb_damage := [] |};
              extreme := {| rb_value := 0; rb_damage := [] |} |})
  /\ (47 ∉ damage ->
      rb_damage (normal (w_range (weaponData name damage lastPercent isRanged ahdb addb)))
      = damage).
Proof.
  unfold weaponData. simpl. split; [|split].
  - intros a b c ->. done.
  - intros Hlen. apply Nat.eqb_neq in Hlen. rewrite Hlen.
    split; [done|]. by destruct (splitOn 47 damage).
  - intros Hnot. by rewrite splitOn_no_separator.
Qed.

Lemma weaponData_range_bands_witness :
  w_range (weaponData (js "Shotgun") (js "4D6/2D6/1D6") (lpNumber (Int 40)) true false false)
  = {| normal := {| rb_value := 10; rb_damage := js "4D6" |};
       long := {| rb_value := 20; rb_damage := js "2D6" |};
       extreme := {| rb_value := 50; rb_damage := js "1D6" |} |}
  /\ w_range (weaponData (js "Club") (js "1D6/1D8") (lpNumber (Int 40)) false false false)
     = {| normal := {| rb_value := 0; rb_damage := js "1D6" |};
          long := {| rb_value := 0; rb_damage := [] |};
          extreme := {| rb_value := 0; rb_damage := [] |} |}
  /\ rb_damage (normal (w_range
       (weaponData (js "Knife") (js "1D4") (lpNumber (Int 30)) false false false)))
     = js "1D4".
Proof.
  split; [|split].
  - apply (weaponData_range_bands (js "Shotgun") (js "4D6/2D6/1D6")
             (lpNumber (Int 40)) true false false).
    reflexivity.
  - apply (proj1 (proj2 (weaponData_range_bands (js "Club") (js "1D6/1D8")
                           (lpNumber (Int 40)) false false false))).
    vm_compute. lia.
  - apply (proj2 (proj2 (weaponData_range_bands (js "Knife") (js "1D4")
                           (lpNumber (Int 30)) false false false))).
    apply (bool_decide_unpack _). vm_compute. exact I.
Defined.

(** C5 as stated fails: with two parts the normal band holds the first part,
    not the whole expression. *)
Lemma two_part_damage_keeps_first_part :
  exists st data,
    processCombat Sample.host (js "Club 40%, damage 1D6/1D8") afterAttributes = Ok tt st
    /\ items "attacks" st = [IWeapon data]
    /\ data = weaponData (js "Club") (js "1D6/1D8") (lpNumber (Int 40)) false false false
    /\ length (splitOn 47 (js "1D6/1D8")) = 2%nat
    /\ rb_damage (normal (w_range data)) = js "1D6"
    /\ rb_damage (normal (w_range data)) <> js "1D6/1D8".
Proof.
  eexists _, _. split; [vm_compute; reflexivity|].
  split; [vm_compute; reflexivity|]. repeat split; by vm_compute.
Qed.

(** ** Spells *)

Lemma splitSpells_not_nil (before s : jsstring) : splitSpells before s <> [].
Proof.
  destruct s as [|c s]; simpl; [done|].
  destruct (isSeparator before c); [done|]. by destruct (splitSpells (c :: before) s).
Qed.



(** There is one part more than there are separators. *)
Lemma splitSpells_length (before s : jsstring) :
  length (splitSpells before s) = S (countSeparators before s).
Proof.
  revert before; induction s as [|c s IH]; intros before; simpl; [done|].
  specialize (IH (c :: before)).
  pose proof (splitSpells_not_nil (c :: before) s) as Hne.
  destruct (isSeparator before c); simpl.
  - by rewrite IH.
  - destruct (splitSpells (c :: before) s); [done|]. simpl in *. lia.
Qed.

Lemma takeWhile_app_all (p : N -> bool) (a b : jsstring) :
  forallb p a = true -> takeWhile p (a ++ b) = a ++ takeWhile p b.
Proof.
  induction a as [|x a IH]; simpl; [done|].
  rewrite andb_true_iff. intros [-> H]. by rewrite IH.
Qed.


Lemma pushSpells_array (spellsArr : list jsstring) (st : Importer) (l : list Item) :
  parsed st !! "spells" = Some (VArr l) ->
  pushSpells spellsArr st
  = Ok tt (withParsed
             (<["spells" := VArr (l ++ map (fun s => ISpell (cleanString s)) spellsArr)]>
                (parsed st)) st).
Proof.
  revert st l; induction spellsArr as [|s rest IH]; intros st l Hl.
  - simpl. unfold ret. f_equal. destruct st as [t p n]. unfold withParsed. simpl in *.
    f_equal. rewrite app_nil_r. symmetry. by apply insert_id.
  - simpl. unfold bind at 1. unfold initArray at 1. rewrite Hl.
    unfold bind at 1. unfold push at 1. rewrite Hl.
    rewrite (IH _ (l ++ [ISpell (cleanString s)])).
    + f_equal. unfold withParsed. simpl. f_equal.
      rewrite insert_insert_eq. by rewrite <- app_assoc.
    + simpl. by rewrite lookup_insert_eq.
Qed.

Lemma pushSpells_fresh (spellsArr : list jsstring) (st : Importer) :
  parsed st !! "spells" = None -> spellsArr <> [] ->
  pushSpells spellsArr st
  = Ok tt (withParsed
             (<["spells" := VArr (map (fun s => ISpell (cleanString s)) spellsArr)]>
                (parsed st)) st).
Proof.
  intros Hnone Hne. destruct spellsArr as [|s rest]; [done|].
  simpl. unfold bind at 1. unfold initArray at 1. rewrite Hnone.
  unfold bind at 1. unfold push at 1. simpl. rewrite lookup_insert_eq.
  rewrite (pushSpells_array rest _ [ISpell (cleanString s)]).
  - f_equal. unfold withParsed. simpl. f_equal. by rewrite !insert_insert_eq.
  - simpl. by rewrite lookup_insert_eq.
Qed.




(** ** The cases of [check] *)

Lemma resolves_functional (h : Host) (key : string) (re re' : RegExp) :
  resolves h key re -> resolves h key re' -> re = re'.
Proof. intros (p & Hp & Hre) (p' & Hp' & Hre'). congruence. Qed.

Lemma check_unmatched (h : Host) (key : string) (o : CheckOpts) (st : Importer) :
  compiles h key -> unmatched h key (subject o st) ->
  check h key o st = Ok None st.
Proof.
  intros Hc Hu. unfold check.
  destruct (lookupPattern h key) as [p|] eqn:Hp; [|done].
  destruct (Hc p Hp) as [re Hre]. rewrite Hre.
  fold (subject o st). rewrite (Hu re); [done|]. by exists p.
Qed.

Lemma check_matched (h : Host) (key : string) (o : CheckOpts) (st : Importer)
    (m : Match) :
  matches h key (subject o st) m ->
  check h key o st =
    if requiredOk o m then
      if saveKeys o then
        match m_groups m with
        | None => Throw TypeError (removed o m st)
        | Some g =>
            Ok (Some (outputOf m))
               (withParsed (saveGroups h (type o) g (parsed (removed o m st)))
                  (removed o m st))
        end
      else Ok (Some (outputOf m)) (removed o m st)
    else Ok None st.
Proof.
  intros (re & (p & Hp & Hre) & Hm). unfold check. rewrite Hp, Hre.
  fold (subject o st). rewrite Hm. reflexivity.
Qed.

Lemma check_cases (h : Host) (key : string) (t : jsstring) :
  compiles h key -> unmatched h key t \/ exists m, matches h key t m.
Proof.
  intros Hc. destruct (lookupPattern h key) as [p|] eqn:Hp.
  - destruct (Hc p Hp) as [re Hre].
    destruct (re_exec re t) as [m|] eqn:Hm.
    + right. exists m, re. split; [by exists p | done].
    + left. intros re' (p' & Hp' & Hre'). congruence.
  - left. intros re' (p' & Hp' & _). congruence.
Qed.

Lemma unmatched_not_matches (h : Host) (key : string) (t : jsstring) (m : Match) :
  unmatched h key t -> matches h key t m -> False.
Proof. intros Hu (re & Hr & Hm). rewrite (Hu re Hr) in Hm. done. Qed.

Lemma parsed_removed (o : CheckOpts) (m : Match) (st : Importer) :
  parsed (removed o m st) = parsed st.
Proof. unfold removed. by destruct (removeFromText o). Qed.

Lemma notifications_removed (o : CheckOpts) (m : Match) (st : Importer) :
  notifications (removed o m st) = notifications st.
Proof. unfold removed. by destruct (removeFromText o). Qed.

(** A call that does not save keys returns, and leaves the parsed record
    alone. *)
Lemma check_quiet (h : Host) (key : string) (o : CheckOpts) (st : Importer) :
  compiles h key -> saveKeys o = false ->
  (check h key o st = Ok None st)
  \/ (exists m, matches h key (subject o st) m
                /\ check h key o st = Ok (Some (outputOf m)) (removed o m st)).
Proof.
  intros Hc Hs. destruct (check_cases h key (subject o st) Hc) as [Hu | [m Hm]].
  - left. by apply check_unmatched.
  - rewrite (check_matched _ _ _ _ _ Hm), Hs.
    destruct (requiredOk o m); [right; by exists m | by left].
Qed.

(** ** [processCombat] returns *)

Lemma bind_ok {A B} (c : M A) (k : A -> M B) (st st' : Importer) (a : A) :
  c st = Ok a st' -> bind c k st = k a st'.
Proof. intros H. unfold bind. by rewrite H. Qed.

Lemma Forall_compiles (h : Host) (ks : list string) (key : string) :
  Forall (compiles h) ks -> key ∈ ks -> compiles h key.
Proof. intros H Hin. by eapply (proj1 (Forall_forall _ _) H). Qed.

Ltac combat_key :=
  eapply Forall_compiles; [eassumption | apply (bool_decide_unpack _); by vm_compute].

Lemma translateRoll_ok (h : Host) (s : jsstring) (st : Importer) :
  (forall d, keys h "diceShort" = Some d -> is_Some (newRegExp h (diceSource d) "iug")) ->
  exists r, translateRoll h s st = Ok r st.
Proof.
  intros Hd. unfold translateRoll. destruct (keys h "diceShort") as [d|]; [|by eexists].
  destruct (Hd d eq_refl) as [re ->]. by eexists.
Qed.

Lemma matched_quiet (h : Host) (key : string) (name : jsstring) (st : Importer) :
  compiles h key -> exists b, matched (check h key (onName name)) st = Ok b st.
Proof.
  intros Hc. unfold matched.
  destruct (check_quiet h key (onName name) st Hc eq_refl) as [E | (m & _ & E)].
  - rewrite (bind_ok _ _ _ _ _ E). by eexists.
  - rewrite (bind_ok _ _ _ _ _ E). by eexists.
Qed.

Lemma orElse_ok (a b : M bool) (st : Importer) :
  (exists x, a st = Ok x st) -> (exists y, b st = Ok y st) ->
  exists z, orElse a b st = Ok z st.
Proof.
  intros [x Ha] [y Hb]. unfold orElse. rewrite (bind_ok _ _ _ _ _ Ha).
  destruct x; [by eexists | by exists y].
Qed.

Lemma isRangedName_ok (h : Host) (name : jsstring) (st : Importer) :
  Forall (compiles h) combatKeys ->
  exists b, isRangedName h name st = Ok b st.
Proof.
  intros Hk. unfold isRangedName.
  repeat (apply orElse_ok; [apply matched_quiet; combat_key|]).
  apply matched_quiet; combat_key.
Qed.

Lemma dbExec_ok (h : Host) (source : Host -> jsstring -> jsstring) (damage db : jsstring)
    (re : RegExp) (st : Importer) :
  parsed st !! "db" = Some (VStr db) ->
  newRegExp h (source h db) "iu" = Some re ->
  dbExec h source damage st = Ok (re_exec re damage) st.
Proof. intros Hdb Hre. unfold dbExec. by rewrite Hdb, Hre. Qed.

Lemma consumes_shortens (re : RegExp) (damage : jsstring) (f : Match) :
  consumes re -> re_exec re damage = Some f ->
  eqs (replaceFirst (m_source f) [] damage) damage = false
  /\ (length (replaceFirst (m_source f) [] damage) < length damage)%nat.
Proof.
  intros Hc Hf. destruct (Hc _ _ Hf) as (Hne & a & b & Hab).
  assert (Hlt : (length (replaceFirst (m_source f) [] damage) < length damage)%nat).
  { rewrite Hab at 1 2. by apply replaceFirst_delete_occurs. }
  split; [|done]. apply eqs_neq. intros E. rewrite E in Hlt. lia.
Qed.

(** The inner loop returns with the fuel [processCombat] gives it. *)
Lemma stripDb_ok (h : Host) (st : Importer) (db : jsstring) (reH reF : RegExp) :
  parsed st !! "db" = Some (VStr db) ->
  newRegExp h (halfdbSource h db) "iu" = Some reH -> consumes reH ->
  newRegExp h (fulldbSource h db) "iu" = Some reF -> consumes reF ->
  forall fuel damage ahdb addb,
    (length damage < fuel)%nat ->
    exists r, stripDb fuel h damage ahdb addb st = Ok r st.
Proof.
  intros Hdb HreH HcH HreF HcF.
  induction fuel as [|fuel IH]; intros damage ahdb addb Hlen; [lia|].
  simpl. rewrite (bind_ok _ _ _ _ _ (dbExec_ok h halfdbSource damage db reH st Hdb HreH)).
  destruct (re_exec reH damage) as [f|] eqn:Hf.
  - destruct (consumes_shortens _ _ _ HcH Hf) as [-> Hlt]. apply IH. lia.
  - rewrite (bind_ok _ _ _ _ _ (dbExec_ok h fulldbSource damage db reF st Hdb HreF)).
    destruct (re_exec reF damage) as [f|] eqn:Hf'.
    + destruct (consumes_shortens _ _ _ HcF Hf') as [-> Hlt]. apply IH. lia.
    + by eexists.
Qed.

(** The fuel of the inner loop does not matter once it is above the length
    of the damage text: the loop never stops for lack of it. *)
Lemma stripDb_fuel (h : Host) :
  forall fuel fuel' damage ahdb addb st,
    (length damage < fuel)%nat -> (length damage < fuel')%nat ->
    stripDb fuel h damage ahdb addb st = stripDb fuel' h damage ahdb addb st.
Proof.
  induction fuel as [|fuel IH]; intros [|fuel'] damage ahdb addb st Hl Hl'; try lia.
  cbn [stripDb]. unfold bind.
  assert (Hsame : forall source r st',
            dbExec h source damage st = Ok r st' -> st' = st).
  { intros source r st'. unfold dbExec.
    destruct (parsed st !! "db") as [[| db |]|]; try done.
    destruct (newRegExp h (source h db) "iu"); [|done]. by intros [= _ <-]. }
  destruct (dbExec h halfdbSource damage st) as [[f|] st1 | |] eqn:E1; try done.
  - apply Hsame in E1 as ->.
    destruct (eqs (replaceFirst (m_source f) [] damage) damage) eqn:Eq; [done|].
    apply eqs_neq in Eq.
    destruct (replaceFirst_delete (m_source f) damage) as [E | Hlt]; [done|].
    apply IH; lia.
  - apply Hsame in E1 as ->.
    destruct (dbExec h fulldbSource damage st) as [[f|] st2 | |] eqn:E2; try done.
    apply Hsame in E2 as ->.
    destruct (eqs (replaceFirst (m_source f) [] damage) damage) eqn:Eq; [done|].
    apply eqs_neq in Eq.
    destruct (replaceFirst_delete (m_source f) damage) as [E | Hlt]; [done|].
    apply IH; lia.
Qed.

(** [initArray] and [push] on an array that exists or not. *)
Lemma push_ok (key : string) (item : Item) (st : Importer) :
  arrayOrAbsent key st ->
  (let* _ := initArray key in push key item) st
  = Ok tt (withParsed (<[key := VArr (items key st ++ [item])]> (parsed st)) st).
Proof.
  intros [Hnone | [l Hl]]; unfold bind, initArray, push, items.
  - rewrite Hnone. unfold withParsed. cbn [parsed text notifications].
    rewrite lookup_insert_eq. cbn [app]. by rewrite insert_insert_eq.
  - by rewrite Hl, Hl.
Qed.

Lemma CombatReady_frame (h : Host) (st st' : Importer) :
  CombatReady h st ->
  parsed st' !! "db" = parsed st !! "db" ->
  arrayOrAbsent "skills" st' -> arrayOrAbsent "attacks" st' ->
  CombatReady h st'.
Proof.
  intros [Hp Hd Hdice Hdb _ _] Edb Hs Ha. split; try done. by rewrite Edb.
Qed.

Lemma CombatReady_removed (h : Host) (o : CheckOpts) (m : Match) (st : Importer) :
  CombatReady h st -> CombatReady h (removed o m st).
Proof.
  intros H. apply (CombatReady_frame h st); [done | | |];
    unfold arrayOrAbsent; rewrite parsed_removed; try done; apply H.
Qed.

Lemma CombatReady_pushed (h : Host) (key : string) (l : list Item) (st : Importer) :
  CombatReady h st -> key = "skills" \/ key = "attacks" ->
  CombatReady h (withParsed (<[key := VArr l]> (parsed st)) st).
Proof.
  intros H Hkey. destruct H as [Hp Hd Hdice Hdb Hs Ha].
  split; try done; unfold arrayOrAbsent in *; cbn [parsed withParsed].
  - destruct Hkey as [-> | ->]; by rewrite lookup_insert_ne.
  - destruct Hkey as [-> | ->].
    + right. exists l. by rewrite lookup_insert_eq.
    + by rewrite lookup_insert_ne.
  - destruct Hkey as [-> | ->].
    + by rewrite lookup_insert_ne.
    + right. exists l. by rewrite lookup_insert_eq.
Qed.

(** [initArray], a value, then [push]: the order of the source. *)
Lemma init_push {A B} (key : string) (x : M A) (a : A) (mk : A -> Item) (k : M B)
    (st : Importer) :
  arrayOrAbsent key st ->
  (forall st', x st' = Ok a st') ->
  (let* _ := initArray key in let* y := x in let* _ := push key (mk y) in k) st
  = k (withParsed (<[key := VArr (items key st ++ [mk a])]> (parsed st)) st).
Proof.
  intros Harr Hx. unfold bind at 1. unfold initArray, items.
  destruct Harr as [Hnone | [l Hl]].
  - rewrite Hnone. unfold bind at 1. rewrite Hx. unfold bind, push.
    cbn [parsed withParsed]. rewrite lookup_insert_eq.
    cbn [app]. by rewrite insert_insert_eq.
  - rewrite Hl. unfold bind at 1. rewrite Hx. unfold bind, push. by rewrite Hl.
Qed.

(** A turn in which the dodge pattern matches. *)
Lemma combatStep_dodge (h : Host) (v : CombatVars) (st : Importer) (m : Match) :
  CombatReady h st ->
  matches h "weaponDodge" (trim (c_text v)) m ->
  exists name,
    group "name" (groupsOf m) = Some name
    /\ combatStep h v st
       = Ok {| c_text := replaceFirst (m_source m) [LF] (trim (c_text v));
               c_weapon := c_weapon v; c_dodge := true;
               c_lastPercent := c_lastPercent v |}
            (withParsed
               (<["skills" :=
                    VArr (items "skills" st
                          ++ [ISkill (cleanString name)
                                (NumberOf h (group "percentage" (groupsOf m)))
                                (Some false)])]> (parsed st))
               (removed (onText (trim (c_text v)) None) m st)).
Proof.
  intros Hr Hm. destruct (ready_dodge h st Hr _ _ Hm) as [name Hname].
  exists name. split; [done|]. unfold combatStep.
  rewrite (bind_ok _ _ _ _ _
             (check_matched h _ (onText (trim (c_text v)) None) st m Hm)).
  cbn [o_groups o_source outputOf]. rewrite Hname.
  rewrite (init_push "skills" _ (cleanString name)
             (fun n => ISkill n (NumberOf h (group "percentage" (groupsOf m))) (Some false))).
  - unfold ret. unfold items. by rewrite !parsed_removed.
  - unfold arrayOrAbsent. rewrite parsed_removed. apply Hr.
  - done.
Qed.

(** A turn in which the dodge pattern does not match and the weapon pattern
    does, with the percentage it has to show. *)
Lemma combatStep_weapon (h : Host) (v : CombatVars) (st : Importer) (m : Match) :
  CombatReady h st ->
  unmatched h "weaponDodge" (trim (c_text v)) ->
  matches h "weapon" (trim (c_text v)) m ->
  requiredOk (onText (trim (c_text v)) (weaponRequired (c_lastPercent v))) m = true ->
  exists damage isRanged ahdb addb,
    combatStep h v st
    = Ok {| c_text := replaceFirst (m_source m) [LF] (trim (c_text v));
            c_weapon := true; c_dodge := false;
            c_lastPercent := percentOf h m |}
         (withParsed
            (<["attacks" :=
                 VArr (items "attacks" st
                       ++ [IWeapon
                             (weaponData
                                (cleanString (default [] (group "name" (groupsOf m))))
                                damage (percentOf h m) isRanged ahdb addb)])]>
               (parsed st))
            (removed (onText (trim (c_text v)) (weaponRequired (c_lastPercent v))) m st)).
Proof.
  intros Hr Hu Hm Hreq. unfold combatStep.
  rewrite (bind_ok _ _ _ _ _
             (check_unmatched h "weaponDodge" (onText (trim (c_text v)) None) st
                ltac:(destruct Hr; combat_key) Hu)).
  fold (weaponRequired (c_lastPercent v)).
  pose proof (check_matched h _ (onText (trim (c_text v))
                                   (weaponRequired (c_lastPercent v))) st m Hm) as Hc.
  rewrite Hreq in Hc. rewrite (bind_ok _ _ _ _ _ Hc).
  set (st1 := removed _ m st).
  assert (Hr1 : CombatReady h st1) by (by apply CombatReady_removed).
  cbn [o_groups o_source outputOf].
  destruct (translateRoll_ok h
              (cleanString (default [] (group "damage" (groupsOf m)))) st1
              (ready_dice h st1 Hr1)) as [damage Hd].
  rewrite (bind_ok _ _ _ _ _ Hd).
  destruct (isRangedName_ok h
              (cleanString (default [] (group "name" (groupsOf m)))) st1
              (ready_patterns h st1 Hr1)) as [isRanged Hi].
  rewrite (bind_ok _ _ _ _ _ Hi).
  destruct (ready_db h st1 Hr1) as (db & Hdb & (reH & HreH & HcH) & (reF & HreF & HcF)).
  destruct (stripDb_ok h st1 db reH reF Hdb HreH HcH HreF HcF
              (S (length damage)) damage false false ltac:(lia)) as [[[d a1] a2] Hs].
  rewrite (bind_ok _ _ _ _ _ Hs).
  exists d, isRanged, a1, a2.
  fold (percentOf h m).
  pose proof (push_ok "attacks"
                (IWeapon (weaponData
                            (cleanString (default [] (group "name" (groupsOf m))))
                            d (percentOf h m) isRanged a1 a2))
                st1 (ready_attacks h st1 Hr1)) as Hpush.
  unfold bind in Hpush. unfold bind.
  destruct (initArray "attacks" st1) as [u st2 | |]; try done.
  rewrite Hpush. unfold ret. subst st1. unfold items. by rewrite !parsed_removed.
Qed.

(** A turn in which neither pattern matches, or the weapon pattern matches
    without the percentage it has to show. *)
Lemma combatStep_idle (h : Host) (v : CombatVars) (st : Importer) :
  CombatReady h st ->
  unmatched h "weaponDodge" (trim (c_text v)) ->
  (unmatched h "weapon" (trim (c_text v))
   \/ exists m, matches h "weapon" (trim (c_text v)) m
                /\ requiredOk (onText (trim (c_text v))
                                 (weaponRequired (c_lastPercent v))) m = false) ->
  combatStep h v st
  = Ok {| c_text := skipLine (trim (c_text v)); c_weapon := false; c_dodge := false;
          c_lastPercent := c_lastPercent v |} st.
Proof.
  intros Hr Hu Hw. unfold combatStep.
  rewrite (bind_ok _ _ _ _ _
             (check_unmatched h "weaponDodge" (onText (trim (c_text v)) None) st
                ltac:(destruct Hr; combat_key) Hu)).
  fold (weaponRequired (c_lastPercent v)).
  assert (Hc : check h "weapon"
                 (onText (trim (c_text v)) (weaponRequired (c_lastPercent v))) st
               = Ok None st).
  { destruct Hw as [Hw | (m & Hm & Hreq)].
    - apply check_unmatched; [destruct Hr; combat_key | done].
    - by rewrite (check_matched h "weapon"
                    (onText (trim (c_text v)) (weaponRequired (c_lastPercent v)))
                    st m Hm), Hreq. }
  rewrite (bind_ok _ _ _ _ _ Hc). reflexivity.
Qed.

(** Every turn returns and keeps the importer ready for the next one. *)
Lemma combatStep_ok (h : Host) (v : CombatVars) (st : Importer) :
  CombatReady h st ->
  exists v' st', combatStep h v st = Ok v' st' /\ CombatReady h st'.
Proof.
  intros Hr.
  destruct (check_cases h "weaponDodge" (trim (c_text v))
              ltac:(destruct Hr; combat_key)) as [Hu | [m Hm]].
  - destruct (check_cases h "weapon" (trim (c_text v))
                ltac:(destruct Hr; combat_key)) as [Hw | [m Hm]].
    + rewrite combatStep_idle by auto. by eexists _, _.
    + destruct (requiredOk (onText (trim (c_text v))
                              (weaponRequired (c_lastPercent v))) m) eqn:Hreq.
      * destruct (combatStep_weapon h v st m Hr Hu Hm Hreq) as (d & r & a1 & a2 & ->).
        eexists _, _. split; [done|].
        apply (CombatReady_pushed h "attacks" _
                 (removed (onText (trim (c_text v)) (weaponRequired (c_lastPercent v)))
                    m st)); [by apply CombatReady_removed | by right].
      * rewrite combatStep_idle by eauto. by eexists _, _.
  - destruct (combatStep_dodge h v st m Hr Hm) as (name & _ & ->).
    eexists _, _. split; [done|].
    apply (CombatReady_pushed h "skills" _
             (removed (onText (trim (c_text v)) None) m st));
      [by apply CombatReady_removed | by left].
Qed.

Lemma combatLoop_ok (h : Host) (n : nat) (v : CombatVars) (st : Importer) :
  CombatReady h st ->
  exists maxLoops v' st',
    combatLoop h n v st = Ok (maxLoops, v') st'
    /\ (maxLoops <= n)%nat
    /\ ((0 < maxLoops)%nat -> goesOn v' = false)
    /\ CombatReady h st'.
Proof.
  revert v st; induction n as [|n IH]; intros v st Hr;
    destruct (combatStep_ok h v st Hr) as (v1 & st1 & Hstep & Hr1).
  - exists O, v1, st1. simpl. rewrite (bind_ok _ _ _ _ _ Hstep).
    split; [done|]. split; [lia|]. split; [lia | done].
  - simpl. rewrite (bind_ok _ _ _ _ _ Hstep).
    destruct (goesOn v1) eqn:Hg.
    + destruct (IH v1 st1 Hr1) as (m & v' & st' & Hloop & Hle & Hstop & Hr').
      exists m, v', st'. split; [done|]. split; [lia|]. split; done.
    + exists (S n), v1, st1. split; [done|]. split; [lia|]. split; done.
Qed.

Lemma goesOn_false (v : CombatVars) :
  goesOn v = false -> c_weapon v = false /\ c_dodge v = false /\ c_text v = [].
Proof.
  unfold goesOn. rewrite !orb_false_iff, negb_false_iff, eqs_eq. tauto.
Qed.

Lemma goesOn_true (v : CombatVars) :
  goesOn v = true -> c_weapon v = true \/ c_dodge v = true \/ c_text v <> [].
Proof.
  unfold goesOn. rewrite !orb_true_iff, negb_true_iff, eqs_neq. tauto.
Qed.

(** The outer loop is its body run turn after turn: it runs [k] turns, goes
    on after each of the turns before the [k]-th because a weapon or a dodge
    matched or text is left, and stops at the [k]-th because none of this
    holds any more or because [maxLoops] is used up. *)
Lemma combatLoop_trace (h : Host) (n : nat) :
  forall v st,
    CombatReady h st ->
    exists k vk sk,
      (1 <= k <= S n)%nat
      /\ combatLoop h n v st = Ok ((S n - k)%nat, vk) sk
      /\ combatTurns h k v st = Ok vk sk
      /\ (forall j, (1 <= j < k)%nat ->
            exists vj sj, combatTurns h j v st = Ok vj sj /\ goesOn vj = true)
      /\ ((k < S n)%nat -> goesOn vk = false).
Proof.
  induction n as [|n IH]; intros v st Hr;
    destruct (combatStep_ok h v st Hr) as (v1 & st1 & Hstep & Hr1).
  - exists 1%nat, v1, st1. cbn [combatLoop combatTurns].
    rewrite !(bind_ok _ _ _ _ _ Hstep).
    split; [lia|]. split; [done|]. split; [done|]. split; intros; lia.
  - cbn [combatLoop]. rewrite (bind_ok _ _ _ _ _ Hstep).
    destruct (goesOn v1) eqn:Hg.
    + destruct (IH v1 st1 Hr1) as (k & vk & sk & Hk & Hloop & Hturns & Hon & Hstop).
      exists (S k), vk, sk. split; [lia|]. split; [by rewrite Hloop|].
      split; [cbn [combatTurns]; by rewrite (bind_ok _ _ _ _ _ Hstep)|].
      split; [|intros ?; apply Hstop; lia].
      intros [|[|j]] Hj; [lia| |].
      * exists v1, st1. cbn [combatTurns]. by rewrite (bind_ok _ _ _ _ _ Hstep).
      * destruct (Hon (S j) ltac:(lia)) as (vj & sj & Hj1 & Hj2).
        exists vj, sj. split; [|done].
        change (combatTurns h (S (S j)) v st)
          with ((let* v' := combatStep h v in combatTurns h (S j) v') st).
        by rewrite (bind_ok _ _ _ _ _ Hstep).
    + exists 1%nat, v1, st1. split; [lia|].
      split; [f_equal; f_equal; lia|].
      split; [cbn [combatTurns]; by rewrite (bind_ok _ _ _ _ _ Hstep)|].
      split; [intros; lia|done].
Qed.

(** C7.  On every span, for an importer that is ready, the outer loop of
    [processCombat] returns after at most 40 turns, and what it returns is
    what that many turns of its body leave.  It goes on after a turn only
    when a weapon or a dodge matched in it or text is left, so that it stops
    at the first turn after which none of this holds, or after the 40th;
    when it stops before the 40th no dodge and no weapon matched in its last
    turn and no text is left; after the 40th turn the method raises the
    warning, keeps the parsed record the loop built and returns. *)
Theorem processCombat_bounded (h : Host) (span : jsstring) (st : Importer) :
  CombatReady h st ->
  exists maxLoops v st1,
    combatLoop h 39 (combatStart span) st = Ok (maxLoops, v) st1
    /\ (1 <= turns maxLoops <= 40)%nat
    /\ combatTurns h (turns maxLoops) (combatStart span) st = Ok v st1
    /\ (forall j, (1 <= j < turns maxLoops)%nat ->
          exists vj sj,
            combatTurns h j (combatStart span) st = Ok vj sj
            /\ (c_weapon vj = true \/ c_dodge vj = true \/ c_text vj <> []))
    /\ ((turns maxLoops < 40)%nat ->
        c_weapon v = false /\ c_dodge v = false /\ c_text v = [])
    /\ (trim span <> [] ->
        exists st',
          processCombat h span st = Ok tt st'
          /\ parsed st' = parsed st1
          /\ notifications st'
             = if Nat.eqb (turns maxLoops) 40
               then notifications st1 ++ [unexpectedWeapons]
               else notifications st1)
    /\ (trim span = [] -> processCombat h span st = Ok tt st).
Proof.
  intros Hr.
  destruct (combatLoop_trace h 39 (combatStart span) st Hr)
    as (k & v & st1 & Hk & Hloop & Hturns & Hon & Hstop).
  exists (40 - k)%nat, v, st1. unfold turns.
  replace (40 - (40 - k))%nat with k by lia.
  split; [done|]. split; [lia|]. split; [done|]. split; [|split; [|split]].
  - intros j Hj. destruct (Hon j Hj) as (vj & sj & Hj1 & Hj2).
    exists vj, sj. split; [done|]. by apply goesOn_true.
  - intros Hlt. apply goesOn_false, Hstop. lia.
  - intros Hne. apply eqs_neq in Hne. unfold processCombat. rewrite Hne.
    rewrite (bind_ok _ _ _ _ _ Hloop).
    destruct (Nat.eqb_spec (40 - k) 0) as [E|E].
    + eexists. split; [reflexivity|]. split; [done|].
      replace k with 40%nat by lia. done.
    + eexists. split; [reflexivity|]. split; [done|].
      assert (E' : Nat.eqb k 40 = false) by (apply Nat.eqb_neq; lia).
      by rewrite E'.
  - intros He. unfold processCombat. by rewrite He.
Qed.

(** ** The matcher of the small host *)

Lemma setCap_keys (name : string) (v : jsstring) (c : Sample.Caps) :
  map fst (Sample.setCap name v c) = map fst c.
Proof.
  induction c as [|[k old] c IH]; simpl; [done|].
  destruct (String.eqb k name); simpl; [done | by rewrite IH].
Qed.

Lemma setCap_keeps (name n : string) (v : jsstring) (c : Sample.Caps) :
  is_Some (group n c) -> is_Some (group n (Sample.setCap name v c)).
Proof.
  induction c as [|[k old] c IH]; simpl; [done|].
  destruct (String.eqb_spec k name) as [->|Hne]; simpl.
  - destruct (String.eqb_spec name n) as [->|]; [by eexists | done].
  - destruct (String.eqb k n); [done | apply IH].
Qed.

Lemma setCap_sets (name : string) (v : jsstring) (c : Sample.Caps) :
  name ∈ map fst c -> is_Some (group name (Sample.setCap name v c)).
Proof.
  induction c as [|[k old] c IH]; simpl; intros Hin.
  - by apply elem_of_nil in Hin.
  - destruct (String.eqb_spec k name) as [->|Hne]; simpl.
    + rewrite String.eqb_refl. by eexists.
    + destruct (String.eqb_spec k name); [done|].
      apply IH. apply elem_of_cons in Hin as [->|Hin]; done.
Qed.

Lemma drop_cons_lt {A} (s : list A) (pos : nat) (c : A) (r : list A) :
  drop pos s = c :: r -> (pos < length s)%nat.
Proof.
  intros E. apply (f_equal length) in E. rewrite length_drop in E. simpl in E. lia.
Qed.

(** What a successful search hands to its continuation. *)
Lemma go_spec (fuel : nat) (s : jsstring) :
  forall (r : Sample.Rx) (pos : nat) (caps : Sample.Caps)
         (k : nat -> Sample.Caps -> option (nat * Sample.Caps)) (res : nat * Sample.Caps),
    Sample.go fuel s r pos caps k = Some res ->
    (pos <= length s)%nat ->
    exists e c,
      k e c = Some res
      /\ (pos <= e <= length s)%nat
      /\ (Sample.nullable r = false -> (pos < e)%nat)
      /\ map fst c = map fst caps
      /\ (forall n, is_Some (group n caps) -> is_Some (group n c))
      /\ (forall n, Sample.fills n r = true -> n ∈ map fst caps -> is_Some (group n c)).
Proof.
  induction fuel as [|f IH]; intros r pos caps k res Hgo Hpos; [done|].
  destruct r as [| p | a b | a b | a | name a | |]; simpl in Hgo.
  - exists pos, caps. repeat split; try done; lia.
  - destruct (drop pos s) as [|c rest] eqn:Ed; [done|].
    destruct (p c); [|done]. apply drop_cons_lt in Ed.
    exists (S pos), caps. repeat split; try done; lia.
  - apply IH in Hgo as (e1 & c1 & Hb & He1 & Hn1 & Hk1 & Hm1 & Hf1); [|done].
    apply IH in Hb as (e & c & Hk & He & Hn & Hk2 & Hm2 & Hf2); [|lia].
    exists e, c. split; [done|]. split; [lia|]. split; [|split; [congruence|split]].
    + simpl. rewrite andb_false_iff. intros [Ha | Hb']; [apply Hn1 in Ha | apply Hn in Hb']; lia.
    + intros n Hs. by apply Hm2, Hm1.
    + intros n Hf Hin. simpl in Hf. apply orb_true_iff in Hf as [Hf | Hf].
      * by apply Hm2, Hf1.
      * apply Hf2; [done | by rewrite Hk1].
  - destruct (Sample.go f s a pos caps k) as [res'|] eqn:Ea.
    + injection Hgo as <-.
      apply IH in Ea as (e & c & Hk & He & Hn & Hk1 & Hm1 & Hf1); [|done].
      exists e, c. repeat split; try done; try lia.
      * simpl. rewrite orb_false_iff. intros [Ha _]. by apply Hn.
      * intros n Hf. simpl in Hf. apply andb_true_iff in Hf as [Hf _]. by apply Hf1.
    + apply IH in Hgo as (e & c & Hk & He & Hn & Hk1 & Hm1 & Hf1); [|done].
      exists e, c. repeat split; try done; try lia.
      * simpl. rewrite orb_false_iff. intros [_ Hb]. by apply Hn.
      * intros n Hf. simpl in Hf. apply andb_true_iff in Hf as [_ Hf]. by apply Hf1.
  - destruct (Sample.go f s a pos caps _) as [res'|] eqn:Ea.
    + injection Hgo as <-.
      apply IH in Ea as (e1 & c1 & Hb & He1 & Hn1 & Hk1 & Hm1 & Hf1); [|done].
      destruct (Nat.ltb_spec pos e1); [|done].
      apply IH in Hb as (e & c & Hk & He & Hn & Hk2 & Hm2 & Hf2); [|lia].
      exists e, c. split; [done|]. split; [lia|].
      split; [done|]. split; [congruence|]. split; [|done].
      intros n Hs. by apply Hm2, Hm1.
    + exists pos, caps. repeat split; try done; lia.
  - apply IH in Hgo as (e & c & Hk & He & Hn & Hk1 & Hm1 & Hf1); [|done].
    exists e, (Sample.setCap name (Sample.slice pos e s) c).
    split; [done|]. split; [done|]. split; [done|].
    split; [by rewrite setCap_keys|]. split.
    + intros n Hs. by apply setCap_keeps, Hm1.
    + intros n Hf Hin. simpl in Hf. apply orb_true_iff in Hf as [Hf | Hf].
      * apply String.eqb_eq in Hf as ->. apply setCap_sets. by rewrite Hk1.
      * by apply setCap_keeps, Hf1.
  - destruct (Nat.eqb pos 0); [|done]. exists pos, caps. repeat split; try done; lia.
  - destruct (Nat.eqb pos (length s)); [|done].
    exists pos, caps. repeat split; try done; lia.
Qed.

Lemma search_spec (fuel : nat) (r : Sample.Rx) (s : jsstring) (n : nat) :
  forall start b e c,
    Sample.search fuel r s n start = Some (b, e, c) ->
    (start + n <= length s)%nat ->
    Sample.go fuel s r b (Sample.noCaps r) (fun e c => Some (e, c)) = Some (e, c)
    /\ (start <= b <= length s)%nat.
Proof.
  induction n as [|n IH]; intros start b e c Hs Hlen; cbn [Sample.search] in Hs;
    destruct (Sample.go fuel s r start (Sample.noCaps r) _) as [[e' c']|] eqn:Eg.
  - injection Hs as <- <- <-. split; [done | lia].
  - done.
  - injection Hs as <- <- <-. split; [done | lia].
  - apply IH in Hs as [Hg Hb]; [|lia]. split; [done | lia].
Qed.

Lemma noCaps_keys (r : Sample.Rx) : map fst (Sample.noCaps r) = Sample.groupNames r.
Proof. unfold Sample.noCaps. rewrite map_map. simpl. apply map_id. Qed.

(** A match of the small matcher is a piece of the text, not empty unless
    the pattern is nullable, with the groups of the pattern. *)
Lemma exec_spec (r : Sample.Rx) (s : jsstring) (m : Match) :
  Sample.exec r s = Some m ->
  exists b e c,
    m_source m = Sample.slice b e s
    /\ m_index m = b
    /\ m_groups m = match c with [] => None | _ => Some c end
    /\ (b <= e <= length s)%nat
    /\ (Sample.nullable r = false -> (b < e)%nat)
    /\ map fst c = Sample.groupNames r
    /\ (forall n, Sample.fills n r = true -> n ∈ Sample.groupNames r ->
                  is_Some (group n c)).
Proof.
  unfold Sample.exec. intros H.
  destruct (Sample.search (Sample.fuelFor s) r s (length s) 0)
    as [[[b e] c]|] eqn:Es; [|done].
  injection H as <-. apply search_spec in Es as [Hg Hb]; [|lia].
  apply go_spec in Hg as (e' & c' & [= -> ->] & He & Hn & Hk & _ & Hf); [|lia].
  exists b, e, c. rewrite noCaps_keys in Hk, Hf. cbn [m_source m_index m_groups].
  repeat split; try done; lia.
Qed.

Lemma slice_occurs (b e : nat) (s : jsstring) :
  (b <= e <= length s)%nat -> s = take b s ++ Sample.slice b e s ++ drop e s.
Proof.
  intros H. unfold Sample.slice.
  rewrite <- (take_drop b s) at 1. f_equal.
  rewrite <- (take_drop (e - b) (drop b s)) at 1. f_equal.
  rewrite drop_drop. f_equal. lia.
Qed.

Lemma compile_consumes (r : Sample.Rx) :
  Sample.nullable r = false -> consumes (Sample.compile r).
Proof.
  intros Hn t m Hm. cbn [re_exec Sample.compile] in Hm.
  apply exec_spec in Hm as (b & e & c & Hsrc & _ & _ & Hbe & Hlt & _).
  specialize (Hlt Hn). rewrite Hsrc. split.
  - intros E. apply (f_equal length) in E. unfold Sample.slice in E.
    rewrite length_take, length_drop in E. simpl in E. lia.
  - exists (take b t), (drop e t). by apply slice_occurs.
Qed.

Lemma sample_resolves (key : string) (r : Sample.Rx) (re : RegExp) :
  Sample.assoc key Sample.table = Some r ->
  resolves Sample.host key re -> re = Sample.compile r.
Proof.
  intros Hr (p & Hp & Hre). unfold lookupPattern in Hp.
  cbn [regEx Sample.host] in Hp. rewrite Hr in Hp. cbn [option_map] in Hp.
  injection Hp as <-. cbn [getRegEx] in Hre. by injection Hre.
Qed.

Lemma sample_compiles (key : string) (r : Sample.Rx) :
  Sample.assoc key Sample.table = Some r -> compiles Sample.host key.
Proof.
  intros Hr p Hp. unfold lookupPattern in Hp.
  cbn [regEx Sample.host] in Hp. rewrite Hr in Hp. cbn [option_map] in Hp.
  injection Hp as <-. by eexists.
Qed.

(** The groups of a match of a pattern of the table. *)
Lemma sample_groups (key : string) (r : Sample.Rx) (t : jsstring) (m : Match) :
  Sample.assoc key Sample.table = Some r ->
  Sample.groupNames r <> [] ->
  matches Sample.host key t m ->
  exists c, m_groups m = Some c
            /\ map fst c = Sample.groupNames r
            /\ (forall n, Sample.fills n r = true -> n ∈ Sample.groupNames r ->
                          is_Some (group n c)).
Proof.
  intros Hr Hne (re & Hres & Hm). rewrite (sample_resolves key r re Hr Hres) in Hm.
  cbn [re_exec Sample.compile] in Hm.
  apply exec_spec in Hm as (b & e & c & _ & _ & Hg & _ & _ & Hk & Hf).
  exists c. split; [|done]. destruct c; [|done]. cbn [map] in Hk. by rewrite <- Hk in Hne.
Qed.

Lemma sample_ready : CombatReady Sample.host afterAttributes.
Proof.
  split.
  - repeat (apply Forall_cons; split; [eapply sample_compiles; reflexivity|]).
    apply Forall_nil_2.
  - intros t m Hm.
    destruct (sample_groups "weaponDodge" _ t m eq_refl ltac:(done) Hm)
      as (c & Hc & _ & Hf).
    unfold groupsOf. rewrite Hc. apply Hf; [reflexivity|].
    apply (bool_decide_unpack _). by vm_compute.
  - intros d Hd. injection Hd as <-. by eexists.
  - exists (js "0"). split; [reflexivity|]. split.
    + exists (Sample.compile (Sample.halfdbRx (js "0"))). split; [reflexivity|].
      by apply compile_consumes.
    + exists (Sample.compile (Sample.fulldbRx (js "0"))). split; [reflexivity|].
      by apply compile_consumes.
  - by left.
  - by left.
Qed.

Lemma processCombat_bounded_witness :
  exists st',
    processCombat Sample.host [97; 13; 98; 10; 99] afterAttributes = Ok tt st'
    /\ notifications st' = [unexpectedWeapons].
Proof.
  destruct (processCombat_bounded Sample.host [97; 13; 98; 10; 99] afterAttributes
              sample_ready) as (maxLoops & v & st1 & Hloop & _ & _ & _ & _ & Hrun & _).
  destruct Hrun as (st' & Hrun & _ & Hwarn); [by vm_compute|].
  exists st'. split; [exact Hrun|]. rewrite Hwarn.
  assert (Hmax : maxLoops = O).
  { apply (f_equal (fun r => match r with Ok (n, _) _ => n | _ => 1%nat end)) in Hloop.
    vm_compute in Hloop. exact (eq_sym Hloop). }
  assert (Hnote : notifications st1 = []).
  { apply (f_equal (fun r => match r with Ok _ s => notifications s | _ => [] end))
      in Hloop.
    vm_compute in Hloop. exact (eq_sym Hloop). }
  rewrite Hmax, Hnote. reflexivity.
Defined.

(** ** Percentages of the weapons *)

Lemma items_pushed (key : string) (l : list Item) (p : gmap string JsVal)
    (st : Importer) :
  items key (withParsed (<[key := VArr l]> p) st) = l.
Proof. unfold items. cbn [parsed withParsed]. by rewrite lookup_insert_eq. Qed.

Lemma combatLoop_step (h : Host) (n : nat) (v v' : CombatVars) (st st' : Importer) :
  combatStep h v st = Ok v' st' ->
  combatLoop h (S n) v st
  = if goesOn v' then combatLoop h n v' st' else Ok (S n, v') st'.
Proof.
  intros H. cbn [combatLoop]. rewrite (bind_ok _ _ _ _ _ H). by destruct (goesOn v').
Qed.

(** A turn of the loop that reads a weapon. *)
Lemma combatLoop_weapon_turn (h : Host) (n : nat) (v : CombatVars) (st : Importer)
    (source name : jsstring) (percentage : option jsstring) :
  CombatReady h st ->
  weaponMatch h (trim (c_text v)) source name percentage ->
  (c_lastPercent v = lpFalse -> is_Some percentage) ->
  exists st1 data,
    combatLoop h (S n) v st
    = combatLoop h n
        {| c_text := replaceFirst source [LF] (trim (c_text v));
           c_weapon := true; c_dodge := false;
           c_lastPercent := percentFor h percentage |} st1
    /\ CombatReady h st1
    /\ items "attacks" st1 = items "attacks" st ++ [IWeapon data]
    /\ w_name data = cleanString name
    /\ w_skill_id data = percentFor h percentage
    /\ notifications st1 = notifications st.
Proof.
  intros Hr (Hu & m & Hm & Hsrc & Hname & Hpct) Hreq.
  assert (Hok : requiredOk (onText (trim (c_text v)) (weaponRequired (c_lastPercent v))) m
                = true).
  { unfold requiredOk. cbn [requiredGroup onText].
    destruct (c_lastPercent v) eqn:El; try done.
    cbn [weaponRequired]. rewrite Hpct. by destruct (Hreq eq_refl) as [x ->]. }
  destruct (combatStep_weapon h v st m Hr Hu Hm Hok) as (d & r & a1 & a2 & Hstep).
  assert (Hp : percentOf h m = percentFor h percentage).
  { unfold percentOf, percentFor. by rewrite Hpct. }
  rewrite Hname, Hp, Hsrc in Hstep. change (default [] (Some name)) with name in Hstep.
  exists (withParsed
            (<["attacks" :=
                 VArr (items "attacks" st
                       ++ [IWeapon (weaponData (cleanString name) d
                                      (percentFor h percentage) r a1 a2)])]>
               (parsed st))
            (removed (onText (trim (c_text v)) (weaponRequired (c_lastPercent v))) m st)),
         (weaponData (cleanString name) d (percentFor h percentage) r a1 a2).
  split; [by rewrite (combatLoop_step _ _ _ _ _ _ Hstep)|].
  split.
  { apply (CombatReady_pushed h "attacks" _
             (removed (onText (trim (c_text v)) (weaponRequired (c_lastPercent v))) m st));
      [by apply CombatReady_removed | by right]. }
  split; [by rewrite items_pushed|].
  split; [done|]. split; [done|].
  cbn [notifications withParsed]. apply notifications_removed.
Qed.

(** C2, amended.  On "Rifle 45%, Pistol, Knife 30%", for every registry whose
    weapon pattern reads the three weapons one after the other, three weapon
    records are produced in order; the first records 45, the third 30, and
    the second, listed without a percentage, records the marker [true], not
    45. *)
Theorem weapon_percentage_carry_over (h : Host) (st : Importer) :
  CombatReady h st ->
  weaponMatch h (js "Rifle 45%, Pistol, Knife 30%") (js "Rifle 45%,") (js "Rifle")
    (Some (js "45")) ->
  weaponMatch h (js "Pistol, Knife 30%") (js "Pistol,") (js "Pistol") None ->
  weaponMatch h (js "Knife 30%") (js "Knife 30%") (js "Knife") (Some (js "30")) ->
  unmatched h "weaponDodge" [] ->
  unmatched h "weapon" [] ->
  ToNumber h (js "45") = Int 45 ->
  ToNumber h (js "30") = Int 30 ->
  exists st' data1 data2 data3,
    processCombat h (js "Rifle 45%, Pistol, Knife 30%") st = Ok tt st'
    /\ items "attacks" st'
       = items "attacks" st ++ [IWeapon data1; IWeapon data2; IWeapon data3]
    /\ weaponNames [IWeapon data1; IWeapon data2; IWeapon data3]
       = [js "Rifle"; js "Pistol"; js "Knife"]
    /\ skillIds [IWeapon data1; IWeapon data2; IWeapon data3]
       = [lpNumber (Int 45); lpTrue; lpNumber (Int 30)]
    /\ notifications st' = notifications st.
Proof.
  intros Hr H1 H2 H3 Hd Hw N45 N30.
  destruct (combatLoop_weapon_turn h 38 (combatStart (js "Rifle 45%, Pistol, Knife 30%"))
              st _ _ _ Hr H1 ltac:(by eexists))
    as (st1 & d1 & L1 & Hr1 & I1 & Nm1 & Id1 & No1).
  destruct (combatLoop_weapon_turn h 37
              {| c_text := replaceFirst (js "Rifle 45%,") [LF]
                             (trim (c_text (combatStart (js "Rifle 45%, Pistol, Knife 30%"))));
                 c_weapon := true; c_dodge := false;
                 c_lastPercent := percentFor h (Some (js "45")) |}
              st1 (js "Pistol,") (js "Pistol") None Hr1 H2 ltac:(by cbn))
    as (st2 & d2 & L2 & Hr2 & I2 & Nm2 & Id2 & No2).
  cbn [c_text] in L2.
  destruct (combatLoop_weapon_turn h 36
              {| c_text := replaceFirst (js "Pistol,") [LF]
                             (trim (replaceFirst (js "Rifle 45%,") [LF]
                                      (trim (c_text (combatStart
                                                       (js "Rifle 45%, Pistol, Knife 30%"))))));
                 c_weapon := true; c_dodge := false;
                 c_lastPercent := percentFor h None |}
              st2 (js "Knife 30%") (js "Knife") (Some (js "30")) Hr2 H3 ltac:(by cbn))
    as (st3 & d3 & L3 & Hr3 & I3 & Nm3 & Id3 & No3).
  cbn [c_text] in L3.
  exists st3, d1, d2, d3.
  split.
  { unfold processCombat.
    change (eqs (trim (js "Rifle 45%, Pistol, Knife 30%")) []) with false. cbv iota.
    unfold bind at 1. rewrite L1, L2, L3.
    erewrite combatLoop_step; [|apply combatStep_idle; [done | exact Hd | left; exact Hw]].
    reflexivity. }
  split; [by rewrite I3, I2, I1, <- !app_assoc|].
  split; [cbn [weaponNames flat_map app]; by rewrite Nm1, Nm2, Nm3|].
  split; [|congruence].
  cbn [skillIds flat_map app]. rewrite Id1, Id2, Id3. cbn [percentFor].
  by rewrite N45, N30.
Qed.

Lemma sample_unmatched (key : string) (r : Sample.Rx) (t : jsstring) :
  Sample.assoc key Sample.table = Some r ->
  Sample.exec r t = None ->
  unmatched Sample.host key t.
Proof. intros Hr He re Hres. by rewrite (sample_resolves key r re Hr Hres). Qed.

Lemma sample_matches (key : string) (r : Sample.Rx) (t : jsstring) (m : Match) :
  Sample.assoc key Sample.table = Some r ->
  Sample.exec r t = Some m ->
  matches Sample.host key t m.
Proof.
  intros Hr He. exists (Sample.compile r). split; [|done].
  exists (PatRe (Sample.compile r)). split; [|done].
  unfold lookupPattern. cbn [regEx Sample.host]. by rewrite Hr.
Qed.

Lemma sample_weaponMatch (t source name : jsstring) (percentage : option jsstring)
    (rd rw : Sample.Rx) (m : Match) :
  Sample.assoc "weaponDodge" Sample.table = Some rd ->
  Sample.assoc "weapon" Sample.table = Some rw ->
  Sample.exec rd t = None ->
  Sample.exec rw t = Some m ->
  m_source m = source ->
  group "name" (groupsOf m) = Some name ->
  group "percentage" (groupsOf m) = percentage ->
  weaponMatch Sample.host t source name percentage.
Proof.
  intros Hd Hw Ed Ew Hs Hn Hp. split; [by eapply sample_unmatched|].
  exists m. split; [by eapply sample_matches | done].
Qed.

Lemma weapon_percentage_carry_over_witness :
  exists st' data1 data2 data3,
    processCombat Sample.host (js "Rifle 45%, Pistol, Knife 30%") afterAttributes
      = Ok tt st'
    /\ items "attacks" st' = [IWeapon data1; IWeapon data2; IWeapon data3]
    /\ skillIds [IWeapon data1; IWeapon data2; IWeapon data3]
       = [lpNumber (Int 45); lpTrue; lpNumber (Int 30)].
Proof.
  destruct (weapon_percentage_carry_over Sample.host afterAttributes sample_ready)
    as (st' & d1 & d2 & d3 & Hrun & Hitems & _ & Hids & _).
  - eapply sample_weaponMatch; try reflexivity; vm_compute; reflexivity.
  - eapply sample_weaponMatch; try reflexivity; vm_compute; reflexivity.
  - eapply sample_weaponMatch; try reflexivity; vm_compute; reflexivity.
  - eapply sample_unmatched; [reflexivity | vm_compute; reflexivity].
  - eapply sample_unmatched; [reflexivity | vm_compute; reflexivity].
  - vm_compute. reflexivity.
  - vm_compute. reflexivity.
  - exists st', d1, d2, d3. split; [exact Hrun|]. split; [exact Hitems | exact Hids].
Defined.

(** C2 as stated fails: the second weapon does not record 45. *)
Lemma second_weapon_records_true_not_45 :
  exists st',
    processCombat Sample.host (js "Rifle 45%, Pistol, Knife 30%") afterAttributes
      = Ok tt st'
    /\ weaponNames (items "attacks" st') = [js "Rifle"; js "Pistol"; js "Knife"]
    /\ skillIds (items "attacks" st') = [lpNumber (Int 45); lpTrue; lpNumber (Int 30)]
    /\ nth 1 (skillIds (items "attacks" st')) lpFalse <> lpNumber (Int 45).
Proof.
  eexists. split; [vm_compute; reflexivity|]. repeat split; by vm_compute.
Qed.

(** ** The header *)

Lemma scan_unmatched (h : Host) (ks : list string) (min : nat) (st : Importer) :
  Forall (fun key => compiles h key /\ unmatched h key (text st)) ks ->
  scanCharacteristics h ks min st = Ok min st.
Proof.
  revert min; induction ks as [|k ks IH]; intros min Hks; [done|].
  apply Forall_cons in Hks as [[Hc Hu] Hks]. cbn [scanCharacteristics].
  rewrite (bind_ok _ _ _ _ _ (check_unmatched h k numeric st Hc Hu)). by apply IH.
Qed.

Lemma header_key (h : Host) (t : jsstring) (key : string) :
  Forall (fun key => compiles h key /\ unmatched h key t) headerKeys ->
  key ∈ headerKeys -> compiles h key /\ unmatched h key t.
Proof. intros H Hin. by apply (proj1 (Forall_forall _ _) H). Qed.

(** The header branch on a header that none of its three patterns matches. *)
Lemma parseHeader_unmatched (h : Host) (st : Importer) :
  text st <> [] -> trim (text st) <> [] ->
  Forall (fun key => compiles h key /\ unmatched h key (text st)) headerKeys ->
  parseHeader h (length (text st)) st
  = Ok tt (withText (replaceFirst (trim (firstStop (text st))) [LF] (text st))
             (withParsed (<["occupation" := VStr (headerOccupation (text st))]>
                            (<["name" := unnamed h]> (parsed st))) st)).
Proof.
  intros Hne Htrim Hks. unfold parseHeader.
  assert (Hlt : Nat.ltb 0 (length (text st)) = true).
  { apply Nat.ltb_lt. destruct (text st); [done | simpl; lia]. }
  rewrite Hlt. unfold bind at 1, get at 1. unfold substr0. rewrite firstn_all.
  destruct (header_key h _ "name" Hks ltac:(apply (bool_decide_unpack _); by vm_compute))
    as [Hc1 Hu1].
  destruct (header_key h _ "age" Hks ltac:(apply (bool_decide_unpack _); by vm_compute))
    as [Hc2 Hu2].
  destruct (header_key h _ "occupation" Hks
              ltac:(apply (bool_decide_unpack _); by vm_compute)) as [Hc3 Hu3].
  rewrite (bind_ok _ _ _ _ _ (check_unmatched h "name" (inText (text st)) st Hc1 Hu1)).
  unfold bind at 1. unfold bind at 1. unfold setParsed at 1, modify at 1, ret at 1.
  set (st1 := withParsed _ st).
  rewrite (bind_ok _ _ _ _ _ (check_unmatched h "age" (inText (text st)) st1 Hc2 Hu2)).
  rewrite (bind_ok _ _ _ _ _ (check_unmatched h "occupation" (inText (text st)) st1 Hc3 Hu3)).
  apply eqs_neq in Htrim. rewrite Htrim. cbn [negb].
  unfold bind, setParsed, modify. reflexivity.
Qed.

(** C3, amended.  When none of the characteristic patterns matches the
    normalized text, the header is the whole text and is parsed like any
    header: when it is not blank and the name, age and occupation patterns do
    not match it either, the name is the localized default and the text up
    to its first full stop becomes the occupation, split into age and
    occupation when it starts with digits and a comma.  The default name with
    no header-derived field is what an empty header gives. *)
Theorem header_without_characteristics (h : Host) (raw : jsstring) :
  Forall (fun key => compiles h key /\ unmatched h key (normalize raw))
    characteristicKeys ->
  parseCharacter_header h raw constructor
  = (let* _ := parseHeader h (length (normalize raw)) in splitOccupationAge)
      (withText (normalize raw) constructor)
  /\ (trim (normalize raw) <> [] ->
      Forall (fun key => compiles h key /\ unmatched h key (normalize raw)) headerKeys ->
      exists st',
        parseCharacter_header h raw constructor = Ok tt st'
        /\ parsed st' !! "name" = Some (unnamed h)
        /\ is_Some (parsed st' !! "occupation")
        /\ match occupationAge (headerOccupation (normalize raw)) with
           | None =>
               parsed st' !! "occupation"
                 = Some (VStr (headerOccupation (normalize raw)))
               /\ parsed st' !! "age" = None
           | Some (age, occupation) =>
               parsed st' !! "occupation" = Some (VStr (trim occupation))
               /\ parsed st' !! "age" = Some (VStr age)
           end)
  /\ (forall st, parseHeader h 0 st
                 = Ok tt (withParsed (<["name" := unnamed h]> (parsed st)) st)).
Proof.
  intros Hks.
  assert (Hrun : parseCharacter_header h raw constructor
                 = (let* _ := parseHeader h (length (normalize raw)) in splitOccupationAge)
                     (withText (normalize raw) constructor)).
  { unfold parseCharacter_header. unfold bind at 1, modify at 1.
    unfold bind at 1, get at 1.
    by rewrite (bind_ok _ _ _ _ _
                  (scan_unmatched h characteristicKeys (length (normalize raw))
                     (withText (normalize raw) constructor) Hks)). }
  split; [exact Hrun|]. split; [|done].
  intros Htrim Hhk. rewrite Hrun.
  assert (Hne : normalize raw <> []) by (intros E; by rewrite E in Htrim).
  rewrite (bind_ok _ _ _ _ _
             (parseHeader_unmatched h (withText (normalize raw) constructor)
                Hne Htrim Hhk)).
  cbn [text withText parsed withParsed constructor].
  unfold splitOccupationAge. cbn [parsed withText withParsed].
  rewrite lookup_insert_eq, lookup_insert_ne by done.
  rewrite lookup_insert_ne by done. rewrite lookup_empty.
  destruct (occupationAge (headerOccupation (normalize raw))) as [[age occupation]|].
  - eexists. split; [reflexivity|]. cbn [parsed withParsed withText].
    split; [by simplify_map_eq|]. split; [eexists; by simplify_map_eq|].
    split; by simplify_map_eq.
  - eexists. split; [reflexivity|]. cbn [parsed withParsed withText].
    split; [by simplify_map_eq|]. split; [eexists; by simplify_map_eq|].
    split; by simplify_map_eq.
Qed.

Ltac sample_unmatched_keys :=
  repeat (apply Forall_cons; split;
          [split; [eapply sample_compiles; reflexivity
                  | eapply sample_unmatched; [reflexivity | vm_compute; reflexivity]]|]);
  apply Forall_nil_2.

Lemma header_without_characteristics_witness :
  exists st',
    parseCharacter_header Sample.host (js "(unknown entity). Lurks in the dark")
      constructor = Ok tt st'
    /\ parsed st' !! "name" = Some (unnamed Sample.host)
    /\ parsed st' !! "occupation" = Some (VStr (js "(unknown entity)."))
    /\ parsed st' !! "age" = None.
Proof.
  destruct (header_without_characteristics Sample.host
              (js "(unknown entity). Lurks in the dark")) as (_ & Hfields & _).
  - sample_unmatched_keys.
  - destruct Hfields as (st' & Hrun & Hname & _ & Hocc).
    + by vm_compute.
    + sample_unmatched_keys.
    + exists st'. split; [exact Hrun|]. split; [exact Hname|].
      assert (E : occupationAge
                    (headerOccupation (normalize (js "(unknown entity). Lurks in the dark")))
                  = None) by (vm_compute; reflexivity).
      rewrite E in Hocc. exact Hocc.
Defined.

(** C3 as stated fails: with no characteristic in the text the name pattern
    still gives the name, and the rest of the first sentence is the
    occupation. *)
Lemma header_fields_without_characteristics :
  Forall (fun key => unmatched Sample.host key
                       (normalize (js "A strange creature, from beyond. It lurks")))
    characteristicKeys
  /\ exists st',
       parseCharacter_header Sample.host (js "A strange creature, from beyond. It lurks")
         constructor = Ok tt st'
       /\ parsed st' !! "name" = Some (VStr (js "A strange creature"))
       /\ parsed st' !! "name" <> Some (unnamed Sample.host)
       /\ parsed st' !! "occupation" = Some (VStr (js "from beyond.")).
Proof.
  split.
  - repeat (apply Forall_cons; split;
            [eapply sample_unmatched; [reflexivity | vm_compute; reflexivity]|]).
    apply Forall_nil_2.
  - eexists. split; [vm_compute; reflexivity|]. repeat split; by vm_compute.
Qed.

(** ** The attributes *)

Lemma matches_functional (h : Host) (key : string) (t : jsstring) (m m' : Match) :
  matches h key t m -> matches h key t m' -> m = m'.
Proof.
  intros (re & Hr & Hm) (re' & Hr' & Hm').
  rewrite (resolves_functional h key re re' Hr Hr') in Hm. congruence.
Qed.

(** A saving call on the buffer, for a pattern with its one group. *)
Lemma check_own (h : Host) (key : string) (o : CheckOpts) (st : Importer) :
  compiles h key -> ownGroup h key ->
  saveKeys o = true -> opt_text o = None -> requiredGroup o = None ->
  (unmatched h key (text st) /\ check h key o st = Ok None st)
  \/ (exists m v,
        matches h key (text st) m /\ m_groups m = Some [(key, v)]
        /\ check h key o st
           = Ok (Some (outputOf m))
                (withParsed (saveKey h (type o) (parsed st) (key, v)) (removed o m st))).
Proof.
  intros Hc Hown Hs Ht Hrq.
  assert (Hsub : subject o st = text st) by (unfold subject; by rewrite Ht).
  destruct (check_cases h key (text st) Hc) as [Hu | [m Hm]].
  - left. split; [done|]. apply check_unmatched; [done | by rewrite Hsub].
  - right. destruct (Hown _ _ Hm) as [v Hv]. exists m, v. split; [done|]. split; [done|].
    rewrite (check_matched h key o st m) by (by rewrite Hsub).
    unfold requiredOk. rewrite Hrq, Hs, Hv. by rewrite parsed_removed.
Qed.

(** Such a call returns and writes under its own key only. *)
Lemma check_frame (h : Host) (key : string) (o : CheckOpts) (st : Importer) :
  compiles h key -> ownGroup h key ->
  saveKeys o = true -> opt_text o = None -> requiredGroup o = None ->
  exists r st',
    check h key o st = Ok r st'
    /\ (forall k, k <> key -> parsed st' !! k = parsed st !! k)
    /\ (type o = asString ->
        parsed st' !! key = parsed st !! key \/ exists s, parsed st' !! key = Some (VStr s)).
Proof.
  intros Hc Hown Hs Ht Hrq.
  destruct (check_own h key o st Hc Hown Hs Ht Hrq) as [[_ E] | (m & v & _ & _ & E)];
    rewrite E; eexists _, _; (split; [reflexivity|]).
  - split; [done | by left].
  - cbn [parsed withParsed]. split.
    + intros k Hk. by apply saveKey_other.
    + intros Ety. right. unfold saveKey. rewrite Ety. cbn [fst snd].
      eexists. by rewrite lookup_insert_eq.
Qed.

Lemma sentinel_subject (key : string) (st : Importer) (s : jsstring) :
  parsed st !! key = Some (VStr s) -> subject (sentinel key st) st = s.
Proof. intros E. unfold subject, sentinel. cbn [opt_text]. by rewrite E. Qed.

(** The check against the sentinel, after the field was stored. *)
Lemma sentinel_check (h : Host) (key keyNone : string) (st : Importer) (s : jsstring) :
  compiles h keyNone ->
  parsed st !! key = Some (VStr s) ->
  (unmatched h keyNone s
   /\ matched (check h keyNone (sentinel key st)) st = Ok false st)
  \/ ((exists n, matches h keyNone s n)
      /\ matched (check h keyNone (sentinel key st)) st = Ok true st).
Proof.
  intros Hc Hs. unfold matched.
  destruct (check_cases h keyNone s Hc) as [Hu | [n Hn]].
  - left. split; [done|].
    rewrite (bind_ok _ _ _ _ _ (check_unmatched h keyNone (sentinel key st) st Hc
                                  ltac:(by rewrite (sentinel_subject key st s Hs)))).
    done.
  - right. split; [by exists n|].
    rewrite (bind_ok _ _ _ _ _
               (eq_trans (check_matched h keyNone (sentinel key st) st n
                            ltac:(by rewrite (sentinel_subject key st s Hs)))
                         eq_refl)).
    done.
Qed.

(** The policy of the damage bonus and of the armor. *)
Lemma absentOrNone_spec (h : Host) (key keyNone : string) (st : Importer) :
  compiles h key -> compiles h keyNone -> ownGroup h key ->
  exists st',
    absentOrNone h key keyNone st = Ok tt st'
    /\ (forall k, k <> key -> parsed st' !! k = parsed st !! k)
    /\ (exists s, parsed st' !! key = Some (VStr s))
    /\ (unmatched h key (text st) \/ matchedNone h key keyNone (text st) ->
        parsed st' !! key = Some (VStr (js "0")))
    /\ (forall value, matchedValue h key keyNone (text st) value ->
                      parsed st' !! key = Some (VStr value)).
Proof.
  intros Hc HcN Hown. unfold absentOrNone.
  destruct (check_own h key defaults st Hc Hown eq_refl eq_refl eq_refl)
    as [[Hu E] | (m & v & Hm & Hv & E)]; rewrite (bind_ok _ _ _ _ _ E).
  - eexists. split; [reflexivity|]. cbn [parsed withParsed].
    split; [intros k Hk; by rewrite lookup_insert_ne|].
    split; [eexists; by rewrite lookup_insert_eq|].
    split; [intros _; by rewrite lookup_insert_eq|].
    intros value (m & v & Hm & _). by destruct (unmatched_not_matches _ _ _ _ Hu Hm).
  - set (st1 := withParsed _ (removed defaults m st)).
    assert (Hs1 : parsed st1 !! key = Some (VStr (captured v))).
    { subst st1. cbn [parsed withParsed saveKey type defaults fst snd].
      apply lookup_insert_eq. }
    assert (Hf1 : forall k, k <> key -> parsed st1 !! k = parsed st !! k).
    { intros k Hk. subst st1. cbn [parsed withParsed].
      by rewrite saveKey_other. }
    unfold bind at 1. unfold bind at 1, get at 1.
    destruct (sentinel_check h key keyNone st1 (captured v) HcN Hs1)
      as [[Hu E'] | [[n Hn] E']]; rewrite E'.
    + exists st1. split; [reflexivity|]. split; [done|]. split; [by eexists|]. split.
      * intros [Hu' | (m' & v' & n' & Hm' & Hv' & Hn')].
        -- by destruct (unmatched_not_matches _ _ _ _ Hu' Hm).
        -- rewrite (matches_functional _ _ _ _ _ Hm' Hm) in Hv'.
           assert (v' = v) by congruence. subst v'.
           by destruct (unmatched_not_matches _ _ _ _ Hu Hn').
      * intros value (m' & v' & Hm' & Hv' & _ & ->).
        rewrite (matches_functional _ _ _ _ _ Hm' Hm) in Hv'.
        assert (v' = v) by congruence. by subst v'.
    + eexists. split; [reflexivity|]. cbn [parsed withParsed].
      split; [intros k Hk; rewrite lookup_insert_ne by done; by apply Hf1|].
      split; [eexists; by rewrite lookup_insert_eq|].
      split; [intros _; by rewrite lookup_insert_eq|].
      intros value (m' & v' & Hm' & Hv' & Hu' & _).
      rewrite (matches_functional _ _ _ _ _ Hm' Hm) in Hv'.
      assert (v' = v) by congruence. subst v'.
      by destruct (unmatched_not_matches _ _ _ _ Hu' Hn).
Qed.

(** The policy of the attacks per round. *)
Lemma presentAndNone_spec (h : Host) (key keyNone : string) (st : Importer) :
  compiles h key -> compiles h keyNone -> ownGroup h key ->
  exists st',
    presentAndNone h key keyNone st = Ok tt st'
    /\ (forall k, k <> key -> parsed st' !! k = parsed st !! k)
    /\ (unmatched h key (text st) -> parsed st' !! key = parsed st !! key)
    /\ (matchedNone h key keyNone (text st) -> parsed st' !! key = Some (VStr (js "0")))
    /\ (forall value, matchedValue h key keyNone (text st) value ->
                      parsed st' !! key = Some (VStr value)).
Proof.
  intros Hc HcN Hown. unfold presentAndNone.
  destruct (check_own h key defaults st Hc Hown eq_refl eq_refl eq_refl)
    as [[Hu E] | (m & v & Hm & Hv & E)]; rewrite (bind_ok _ _ _ _ _ E).
  - exists st. split; [reflexivity|]. split; [done|]. split; [done|]. split.
    + intros (m & v & n & Hm & _). by destruct (unmatched_not_matches _ _ _ _ Hu Hm).
    + intros value (m & v & Hm & _). by destruct (unmatched_not_matches _ _ _ _ Hu Hm).
  - set (st1 := withParsed _ (removed defaults m st)).
    assert (Hs1 : parsed st1 !! key = Some (VStr (captured v))).
    { subst st1. cbn [parsed withParsed saveKey type defaults fst snd].
      apply lookup_insert_eq. }
    assert (Hf1 : forall k, k <> key -> parsed st1 !! k = parsed st !! k).
    { intros k Hk. subst st1. cbn [parsed withParsed].
      by rewrite saveKey_other. }
    unfold bind at 1. unfold bind at 1, get at 1.
    destruct (sentinel_check h key keyNone st1 (captured v) HcN Hs1)
      as [[Hu E'] | [[n Hn] E']]; rewrite E'.
    + exists st1. split; [reflexivity|]. split; [done|]. split.
      { intros Hu'. by destruct (unmatched_not_matches _ _ _ _ Hu' Hm). }
      split.
      * intros (m' & v' & n' & Hm' & Hv' & Hn').
        rewrite (matches_functional _ _ _ _ _ Hm' Hm) in Hv'.
        assert (v' = v) by congruence. subst v'.
        by destruct (unmatched_not_matches _ _ _ _ Hu Hn').
      * intros value (m' & v' & Hm' & Hv' & _ & ->).
        rewrite (matches_functional _ _ _ _ _ Hm' Hm) in Hv'.
        assert (v' = v) by congruence. by subst v'.
    + eexists. split; [reflexivity|]. cbn [parsed withParsed].
      split; [intros k Hk; rewrite lookup_insert_ne by done; by apply Hf1|].
      split.
      { intros Hu'. by destruct (unmatched_not_matches _ _ _ _ Hu' Hm). }
      split; [intros _; by rewrite lookup_insert_eq|].
      intros value (m' & v' & Hm' & Hv' & Hu' & _).
      rewrite (matches_functional _ _ _ _ _ Hm' Hm) in Hv'.
      assert (v' = v) by congruence. subst v'.
      by destruct (unmatched_not_matches _ _ _ _ Hu' Hn).
Qed.

Lemma translateParsed_spec (h : Host) (key : string) (st : Importer) :
  diceKeepsZero h ->
  parsed st !! key = None \/ (exists s, parsed st !! key = Some (VStr s)) ->
  exists st',
    translateParsed h key st = Ok tt st'
    /\ text st' = text st
    /\ (forall k, k <> key -> parsed st' !! k = parsed st !! k)
    /\ (parsed st !! key = None -> parsed st' !! key = None)
    /\ (parsed st !! key = Some (VStr (js "0")) ->
        parsed st' !! key = Some (VStr (js "0"))).
Proof.
  intros Hd [Hn | [s Hs]]; unfold translateParsed.
  - rewrite Hn. exists st. by rewrite Hn.
  - rewrite Hs. unfold translateRoll, bind, ret, throw, setParsed, modify.
    destruct (keys h "diceShort") as [d|] eqn:Ed.
    + destruct (Hd d Ed) as (re & -> & Hz).
      eexists. split; [reflexivity|]. cbn [text parsed withParsed].
      split; [done|]. split; [intros k Hk; by rewrite lookup_insert_ne|].
      split; [done|]. intros E.
      assert (Hs0 : s = js "0") by congruence. subst s.
      by rewrite lookup_insert_eq, Hz.
    + eexists. split; [reflexivity|]. cbn [text parsed withParsed].
      split; [done|]. split; [intros k Hk; by rewrite lookup_insert_ne|].
      split; [done|]. intros E.
      assert (Hs0 : s = js "0") by congruence. subst s.
      by rewrite lookup_insert_eq.
Qed.

Ltac attr_key H :=
  eapply (proj1 (Forall_forall _ _) H); apply (bool_decide_unpack _); by vm_compute.

(** C4.  After the attribute part of [parseCharacter], on an importer with a
    ready registry: the damage bonus is "0" whenever its pattern does not
    match the text or the value it stored matches the "none" sentinel, and so
    is the armor (on the text left when the armor is looked for); the attacks
    per round are set to "0" when their pattern matched and the stored value
    matches the sentinel, stay absent when the pattern did not match, and
    hold the stored value otherwise. *)
Theorem attribute_defaults (h : Host) (st : Importer) :
  AttributesReady h ->
  parsed st !! "sanLoss" = None ->
  parsed st !! "attacksPerRound" = None ->
  exists s1 s2 st',
    attributes_before_armor h st = Ok tt s1
    /\ attributes_before_attacks h st = Ok tt s2
    /\ parseCharacter_attributes h st = Ok tt st'
    /\ (unmatched h "db" (text st) \/ matchedNone h "db" "dbNone" (text st) ->
        parsed st' !! "db" = Some (VStr (js "0")))
    /\ (unmatched h "armor" (text s1) \/ matchedNone h "armor" "armorNone" (text s1) ->
        parsed st' !! "armor" = Some (VStr (js "0")))
    /\ (matchedNone h "attacksPerRound" "attacksPerRoundNone" (text s2) ->
        parsed st' !! "attacksPerRound" = Some (VStr (js "0")))
    /\ (unmatched h "attacksPerRound" (text s2) ->
        parsed st' !! "attacksPerRound" = None)
    /\ (forall value,
          matchedValue h "attacksPerRound" "attacksPerRoundNone" (text s2) value ->
          parsed st' !! "attacksPerRound" = Some (VStr value)).
Proof.
  intros [Hc Hg Hd] Hsan Hapr.
  destruct (absentOrNone_spec h "db" "dbNone" st
              ltac:(attr_key Hc) ltac:(attr_key Hc) ltac:(attr_key Hg))
    as (a1 & E1 & F1 & S1 & P1 & _).
  destruct (translateParsed_spec h "db" a1 Hd (or_intror S1))
    as (a2 & E2 & _ & F2 & _ & Z2).
  destruct (check_frame h "build" defaults a2
              ltac:(attr_key Hc) ltac:(attr_key Hg) eq_refl eq_refl eq_refl)
    as (r3 & s1 & E3 & F3 & _).
  destruct (absentOrNone_spec h "armor" "armorNone" s1
              ltac:(attr_key Hc) ltac:(attr_key Hc) ltac:(attr_key Hg))
    as (b1 & E4 & F4 & _ & P4 & _).
  destruct (check_frame h "mov" numeric b1
              ltac:(attr_key Hc) ltac:(attr_key Hg) eq_refl eq_refl eq_refl)
    as (r5 & b2 & E5 & F5 & _).
  destruct (check_frame h "lck" numeric b2
              ltac:(attr_key Hc) ltac:(attr_key Hg) eq_refl eq_refl eq_refl)
    as (r6 & b3 & E6 & F6 & _).
  destruct (check_frame h "sanLoss" defaults b3
              ltac:(attr_key Hc) ltac:(attr_key Hg) eq_refl eq_refl eq_refl)
    as (r7 & b4 & E7 & F7 & S7).
  assert (Hsan3 : parsed b3 !! "sanLoss" = None).
  { by rewrite F6, F5, F4, F3, F2, F1. }
  assert (Hsan4 : parsed b4 !! "sanLoss" = None
                  \/ exists s, parsed b4 !! "sanLoss" = Some (VStr s)).
  { destruct (S7 eq_refl) as [E | E]; [left; by rewrite E | by right]. }
  destruct (translateParsed_spec h "sanLoss" b4 Hd Hsan4) as (s2 & E8 & _ & F8 & _).
  destruct (presentAndNone_spec h "attacksPerRound" "attacksPerRoundNone" s2
              ltac:(attr_key Hc) ltac:(attr_key Hc) ltac:(attr_key Hg))
    as (st' & E9 & F9 & U9 & N9 & V9).
  assert (Hrun1 : attributes_before_armor h st = Ok tt s1).
  { unfold attributes_before_armor.
    by rewrite (bind_ok _ _ _ _ _ E1), (bind_ok _ _ _ _ _ E2), (bind_ok _ _ _ _ _ E3). }
  assert (Hrun2 : attributes_before_attacks h st = Ok tt s2).
  { unfold attributes_before_attacks.
    by rewrite (bind_ok _ _ _ _ _ Hrun1), (bind_ok _ _ _ _ _ E4),
      (bind_ok _ _ _ _ _ E5), (bind_ok _ _ _ _ _ E6), (bind_ok _ _ _ _ _ E7). }
  exists s1, s2, st'. split; [done|]. split; [done|]. split.
  { unfold parseCharacter_attributes. by rewrite (bind_ok _ _ _ _ _ Hrun2). }
  split.
  { intros H. rewrite F9, F8, F7, F6, F5, F4, F3 by done. by apply Z2, P1. }
  split.
  { intros H. rewrite F9, F8, F7, F6, F5 by done. by apply P4. }
  split; [done|]. split; [|done].
  intros H. rewrite (U9 H). by rewrite F8, F7, F6, F5, F4, F3, F2, F1.
Qed.

Lemma sample_ownGroup (key : string) (r : Sample.Rx) :
  Sample.assoc key Sample.table = Some r ->
  Sample.groupNames r = [key] ->
  ownGroup Sample.host key.
Proof.
  intros Hr Hn t m Hm.
  destruct (sample_groups key r t m Hr ltac:(by rewrite Hn) Hm) as (c & Hc & Hk & _).
  rewrite Hn in Hk. destruct c as [|[k v] [|x c]]; try done.
  injection Hk as ->. by exists v.
Qed.

Lemma sample_attributes_ready : AttributesReady Sample.host.
Proof.
  split.
  - repeat (apply Forall_cons; split; [eapply sample_compiles; reflexivity|]).
    apply Forall_nil_2.
  - repeat (apply Forall_cons; split;
            [eapply sample_ownGroup; [reflexivity | reflexivity]|]).
    apply Forall_nil_2.
  - intros d Hd. injection Hd as <-.
    exists (Sample.compile Sample.diceRx). split; [reflexivity | by vm_compute].
Qed.

Lemma sample_matchedNone (key keyNone : string) (r rn : Sample.Rx) (t : jsstring)
    (m n : Match) (v : option jsstring) :
  Sample.assoc key Sample.table = Some r ->
  Sample.assoc keyNone Sample.table = Some rn ->
  Sample.exec r t = Some m ->
  m_groups m = Some [(key, v)] ->
  Sample.exec rn (captured v) = Some n ->
  matchedNone Sample.host key keyNone t.
Proof.
  intros Hr Hrn Hm Hv Hn. exists m, v, n.
  split; [by eapply sample_matches|]. split; [done | by eapply sample_matches].
Qed.

Lemma attribute_defaults_witness :
  exists st',
    parseCharacter_attributes Sample.host
      (withText (js "Damage Bonus: none Build: 1 Move: 8 Attacks per round: none")
         constructor) = Ok tt st'
    /\ parsed st' !! "db" = Some (VStr (js "0"))
    /\ parsed st' !! "armor" = Some (VStr (js "0"))
    /\ parsed st' !! "attacksPerRound" = Some (VStr (js "0")).
Proof.
  destruct (attribute_defaults Sample.host
              (withText (js "Damage Bonus: none Build: 1 Move: 8 Attacks per round: none")
                 constructor) sample_attributes_ready eq_refl eq_refl)
    as (s1 & s2 & st' & Hrun1 & Hrun2 & Hrun & Hdb & Harmor & Hapr & _).
  assert (Ht1 : text s1 = js "Move: 8 Attacks per round: none").
  { apply (f_equal (fun r => match r with Ok _ s => text s | _ => [] end)) in Hrun1.
    vm_compute in Hrun1. exact (eq_sym Hrun1). }
  assert (Ht2 : text s2 = js "Attacks per round: none").
  { apply (f_equal (fun r => match r with Ok _ s => text s | _ => [] end)) in Hrun2.
    vm_compute in Hrun2. exact (eq_sym Hrun2). }
  exists st'. split; [exact Hrun|]. split; [|split].
  - apply Hdb. right.
    eapply sample_matchedNone; try reflexivity; vm_compute; reflexivity.
  - apply Harmor. left. rewrite Ht1.
    eapply sample_unmatched; [reflexivity | vm_compute; reflexivity].
  - apply Hapr. rewrite Ht2.
    eapply sample_matchedNone; try reflexivity; vm_compute; reflexivity.
Defined.

(** ** The small host at work *)

Example combat_shotgun :
  exists st data,
    processCombat Sample.host (js "Shotgun 40%, damage 4W6/2W6/1W6") afterAttributes
      = Ok tt st
    /\ items "attacks" st = [IWeapon data]
    /\ shotgun (w_properties data) = true
    /\ w_range data
       = {| normal := {| rb_value := 10; rb_damage := js "4D6" |};
            long := {| rb_value := 20; rb_damage := js "2D6" |};
            extreme := {| rb_value := 50; rb_damage := js "1D6" |} |}.
Proof.
  eexists _, _. split; [vm_compute; reflexivity|].
  split; [vm_compute; reflexivity|]. split; by vm_compute.
Qed.

Example combat_dodge_and_damage_bonus :
  exists st data,
    processCombat Sample.host (js "Bite 40%, damage 1D6+half db, Dodge 35%")
      afterAttributes = Ok tt st
    /\ items "attacks" st = [IWeapon data]
    /\ ahdb (w_properties data) = true
    /\ rb_damage (normal (w_range data)) = js "1D6"
    /\ items "skills" st = [ISkill (js "Dodge") (Int 35) (Some false)].
Proof.
  eexists _, _. split; [vm_compute; reflexivity|].
  split; [vm_compute; reflexivity|]. repeat split; by vm_compute.
Qed.

Example header_of_the_sample_sheet :
  exists st,
    parseCharacter_header Sample.host
      (js "John Doe, 34, Mechanic. STR 12 CON 14 SIZ 13 DEX 11") constructor = Ok tt st
    /\ parsed st !! "name" = Some (VStr (js "John Doe"))
    /\ parsed st !! "age" = Some (VStr (js "34"))
    /\ parsed st !! "occupation" = Some (VStr (js "Mechanic."))
    /\ parsed st !! "str" = Some (VNum (Int 12))
    /\ parsed st !! "dex" = Some (VNum (Int 11)).
Proof.
  eexists. split; [vm_compute; reflexivity|]. repeat split; by vm_compute.
Qed.

(** * Further results

    Properties of the methods the results above leave out, and of the way
    the methods compose. *)

(** ** Strings: cleaning, normalising, paragraphs *)

Lemma dropWhile_split (p : N -> bool) (s : jsstring) :
  exists a, s = a ++ dropWhile p s /\ forallb p a = true.
Proof.
  induction s as [|c s IH]; simpl.
  - by exists [].
  - destruct (p c) eqn:Hc.
    + destruct IH as (a & Ha & Hp). exists (c :: a). simpl. rewrite Hc, Hp.
      split; [by rewrite <- Ha|done].
    + by exists [].
Qed.

Lemma dropWhile_head (p : N -> bool) (s : jsstring) (c : N) (r : jsstring) :
  dropWhile p s = c :: r -> p c = false.
Proof.
  induction s as [|d s IH]; simpl; [done|].
  destruct (p d) eqn:Hd; [done|]. by intros [= -> _].
Qed.

Lemma dropWhile_subset (p : N -> bool) (s : jsstring) (c : N) :
  c ∈ dropWhile p s -> c ∈ s.
Proof.
  destruct (dropWhile_split p s) as (a & Ha & _). intros Hc.
  rewrite Ha. apply elem_of_app. by right.
Qed.

Lemma dropDot_subset (s : jsstring) (c : N) : c ∈ dropDot s -> c ∈ s.
Proof.
  destruct s as [|d s]; simpl; [done|].
  destruct (d =? DOT); [|done]. intros. by apply elem_of_cons; right.
Qed.

Lemma dropDot_length (s : jsstring) : (length (dropDot s) <= length s)%nat.
Proof. destruct s as [|d s]; simpl; [lia|]. destruct (d =? DOT); simpl; lia. Qed.

Lemma elem_of_rev (s : jsstring) (c : N) : c ∈ rev s <-> c ∈ s.
Proof. rewrite !list_elem_of_In. symmetry. apply in_rev. Qed.

Lemma stripTail_subset (s : jsstring) (c : N) : c ∈ stripTail s -> c ∈ s.
Proof.
  unfold stripTail. rewrite elem_of_rev. intros H.
  apply dropWhile_subset, dropDot_subset, dropWhile_subset, dropDot_subset in H.
  by apply elem_of_rev.
Qed.

Lemma stripTail_length (s : jsstring) : (length (stripTail s) <= length s)%nat.
Proof.
  unfold stripTail. rewrite length_rev.
  etrans; [apply dropWhile_length|]. etrans; [apply dropDot_length|].
  etrans; [apply dropWhile_length|]. etrans; [apply dropDot_length|].
  by rewrite length_rev.
Qed.

Lemma stripTail_prefix (s : jsstring) : exists b, s = stripTail s ++ b.
Proof.
  unfold stripTail.
  assert (Hd : forall t : jsstring, exists a, t = a ++ dropDot t).
  { intros [|d t]; simpl; [by exists []|].
    destruct (d =? DOT); [by exists [d]|by exists []]. }
  destruct (Hd (rev s)) as (a1 & H1).
  destruct (dropWhile_split isWhiteSpace (dropDot (rev s))) as (a2 & H2 & _).
  destruct (Hd (dropWhile isWhiteSpace (dropDot (rev s)))) as (a3 & H3).
  destruct (dropWhile_split isWhiteSpace
              (dropDot (dropWhile isWhiteSpace (dropDot (rev s))))) as (a4 & H4 & _).
  set (r := dropWhile isWhiteSpace
              (dropDot (dropWhile isWhiteSpace (dropDot (rev s))))) in *.
  exists (rev (a1 ++ a2 ++ a3 ++ a4)).
  rewrite <- rev_app_distr. rewrite <- (rev_involutive s) at 1. f_equal.
  rewrite <- !app_assoc. rewrite <- H4, <- H3, <- H2. exact H1.
Qed.

Lemma flattenBreaks_clean (s : jsstring) :
  (LF ∉ flattenBreaks s) /\ (CR ∉ flattenBreaks s).
Proof.
  unfold flattenBreaks. split; intros H; apply list_elem_of_In, in_map_iff in H;
    destruct H as (c & Hc & _);
    destruct (c =? LF) eqn:E1; destruct (c =? CR) eqn:E2; simpl in Hc;
    try discriminate; apply N.eqb_neq in E1, E2; congruence.
Qed.

(** X1. What [cleanString] returns holds no line feed and no carriage
    return, neither starts nor ends with a blank, and is a piece of its
    argument's length at most. *)
Theorem cleanString_clean (s : jsstring) :
  (LF ∉ cleanString s) /\ (CR ∉ cleanString s)
  /\ (forall c r, cleanString s = c :: r -> isWhiteSpace c = false)
  /\ (forall r c, cleanString s = r ++ [c] -> isWhiteSpace c = false)
  /\ (length (cleanString s) <= length s)%nat.
Proof.
  unfold cleanString.
  destruct (flattenBreaks_clean s) as [Hlf Hcr].
  split; [|split; [|split; [|split]]].
  - intros H. apply stripTail_subset, dropWhile_subset in H. by apply Hlf.
  - intros H. apply stripTail_subset, dropWhile_subset in H. by apply Hcr.
  - intros c r H.
    destruct (stripTail_prefix (trimStart (flattenBreaks s))) as (b & Hb).
    rewrite H in Hb. simpl in Hb. by apply dropWhile_head in Hb.
  - intros r c H. unfold stripTail in H.
    apply (f_equal (@rev N)) in H. rewrite rev_involutive, rev_app_distr in H.
    simpl in H. by apply dropWhile_head in H.
  - etrans; [apply stripTail_length|]. etrans; [apply trimStart_length|].
    unfold flattenBreaks. by rewrite length_map.
Qed.

Lemma isFiller_blank (c : N) : isWhiteSpace c = true -> isFiller c = true.
Proof. unfold isFiller. intros ->. by rewrite orb_true_r. Qed.

Lemma forallb_dropWhile (p q : N -> bool) (s : jsstring) :
  (forall c, p c = true -> q c = true) ->
  forallb q (dropWhile p s) = forallb q s.
Proof.
  intros Hpq. induction s as [|c s IH]; simpl; [done|].
  destruct (p c) eqn:Hc; [|done]. by rewrite IH, (Hpq c Hc).
Qed.

Lemma forallb_rev (q : N -> bool) (s : jsstring) : forallb q (rev s) = forallb q s.
Proof.
  induction s as [|c s IH]; simpl; [done|].
  rewrite forallb_app, IH. simpl. rewrite andb_true_r. apply andb_comm.
Qed.

Lemma forallb_trim (q : N -> bool) (s : jsstring) :
  (forall c, isWhiteSpace c = true -> q c = true) ->
  forallb q (trim s) = forallb q s.
Proof.
  intros Hq. unfold trim, trimEnd, trimStart.
  by rewrite forallb_rev, (forallb_dropWhile _ _ _ Hq), forallb_rev,
    (forallb_dropWhile _ _ _ Hq).
Qed.

Lemma forallb_splitOn (q : N -> bool) (sep : N) (s : jsstring) :
  q sep = true ->
  forallb (forallb q) (splitOn sep s) = forallb q s.
Proof.
  intros Hsep. induction s as [|c s IH]; simpl; [done|].
  destruct (c =? sep) eqn:Hc.
  - apply N.eqb_eq in Hc. subst c. simpl. by rewrite IH, Hsep.
  - destruct (splitOn sep s) as [|p ps] eqn:Hs.
    + by destruct (splitOn_not_nil sep s).
    + simpl in *. rewrite <- IH. by rewrite andb_assoc.
Qed.

Lemma joinWith_cons (sep x : jsstring) (l : list jsstring) :
  l <> [] -> joinWith sep (x :: l) = x ++ sep ++ joinWith sep l.
Proof. by destruct l. Qed.

Lemma splitOn_join (sep : N) (s : jsstring) : joinWith [sep] (splitOn sep s) = s.
Proof.
  induction s as [|c s IH]; simpl; [done|].
  pose proof (splitOn_not_nil sep s) as Hne.
  destruct (c =? sep) eqn:Hc.
  - apply N.eqb_eq in Hc. subst c. rewrite joinWith_cons by done. by rewrite IH.
  - destruct (splitOn sep s) as [|p ps] eqn:Hs; [done|].
    destruct ps as [|p' ps].
    + simpl in *. by rewrite IH.
    + rewrite joinWith_cons by done. rewrite joinWith_cons in IH by done.
      by rewrite <- IH.
Qed.

Lemma splitOn_parts (sep : N) (s : jsstring) :
  Forall (fun p => sep ∉ p) (splitOn sep s).
Proof.
  induction s as [|c s IH]; simpl.
  - constructor; [|constructor]. by intros ?%elem_of_nil.
  - destruct (c =? sep) eqn:Hc.
    + constructor; [by intros ?%elem_of_nil|done].
    + destruct (splitOn sep s) as [|p ps]; [constructor; [|constructor]|].
      * intros H. apply list_elem_of_singleton in H. subst.
        by rewrite N.eqb_refl in Hc.
      * inversion IH as [|? ? Hp Hps]; subst. constructor; [|done].
        intros H. apply elem_of_cons in H. destruct H as [->|H]; [|done].
        by rewrite N.eqb_refl in Hc.
Qed.

Lemma dropWhile_fixed (p : N -> bool) (s : jsstring) :
  match s with c :: _ => p c = false | [] => True end -> dropWhile p s = s.
Proof. destruct s as [|c s]; simpl; [done|]. by intros ->. Qed.

Lemma dropWhile_headed (p : N -> bool) (s : jsstring) :
  match dropWhile p s with c :: _ => p c = false | [] => True end.
Proof.
  destruct (dropWhile p s) as [|c r] eqn:H; [done|]. by apply dropWhile_head in H.
Qed.

Lemma trim_headed (s : jsstring) :
  match trim s with c :: _ => isWhiteSpace c = false | [] => True end.
Proof.
  unfold trim, trimEnd.
  destruct (dropWhile_split isWhiteSpace (rev (trimStart s))) as (a & Ha & _).
  apply (f_equal (@rev N)) in Ha. rewrite rev_involutive, rev_app_distr in Ha.
  pose proof (dropWhile_headed isWhiteSpace s) as Hh. fold (trimStart s) in Hh.
  rewrite Ha in Hh.
  by destruct (rev (dropWhile isWhiteSpace (rev (trimStart s)))).
Qed.

Lemma trim_trim (s : jsstring) : trim (trim s) = trim s.
Proof.
  pose proof (trim_headed s) as Hh.
  unfold trim at 1. unfold trimStart at 1. rewrite (dropWhile_fixed _ _ Hh).
  unfold trim, trimEnd. rewrite rev_involutive.
  by rewrite (dropWhile_fixed _ _ (dropWhile_headed _ _)).
Qed.

Lemma trim_subset (s : jsstring) (c : N) : c ∈ trim s -> c ∈ s.
Proof.
  unfold trim, trimEnd, trimStart. rewrite elem_of_rev. intros H.
  apply dropWhile_subset in H. apply (proj1 (elem_of_rev _ _)) in H.
  by apply dropWhile_subset in H.
Qed.

Lemma dropFiller_nil (l : jsstring) : dropFiller l = [] <-> forallb isFiller l = true.
Proof.
  destruct l as [|c l]; [done|]. unfold dropFiller.
  destruct (forallb isFiller (c :: l)); split; done.
Qed.

Lemma dropFiller_kept (l : jsstring) :
  dropFiller l <> [] -> dropFiller l = l /\ forallb isFiller l = false.
Proof.
  destruct l as [|c l]; [done|]. unfold dropFiller.
  by destruct (forallb isFiller (c :: l)).
Qed.

Lemma paragraphs_nil (s : jsstring) : paragraphs s = [] <-> forallb isFiller s = true.
Proof.
  unfold paragraphs.
  rewrite <- (forallb_trim isFiller s isFiller_blank).
  rewrite <- (forallb_splitOn isFiller LF (trim s) eq_refl).
  induction (splitOn LF (trim s)) as [|t ts IH]; simpl; [done|].
  rewrite <- (forallb_trim isFiller t isFiller_blank).
  destruct (eqs (dropFiller (trim t)) []) eqn:He; simpl.
  - apply eqs_eq, dropFiller_nil in He. by rewrite He.
  - apply eqs_neq in He. split; [done|]. intros [H _]%andb_true_iff.
    by apply dropFiller_nil in H.
Qed.

Lemma joinWith_nil (sep : jsstring) (l : list jsstring) :
  Forall (fun p => p <> []) l -> joinWith sep l = [] -> l = [].
Proof.
  destruct l as [|x l]; [done|]. intros H. inversion H as [|? ? Hx _]; subst.
  destruct l; simpl; [done|]. by intros [? _]%app_eq_nil.
Qed.

Lemma paragraphs_kept (s : jsstring) :
  Forall (fun p => p <> [] /\ (LF ∉ p) /\ trim p = p /\ forallb isFiller p = false)
    (paragraphs s).
Proof.
  unfold paragraphs.
  pose proof (splitOn_parts LF (trim s)) as Hparts.
  induction Hparts as [|t ts Ht _ IH]; simpl; [constructor|].
  destruct (eqs (dropFiller (trim t)) []) eqn:He; simpl; [done|].
  apply eqs_neq in He. destruct (dropFiller_kept _ He) as [Hk Hf].
  constructor; [|done]. rewrite Hk in *.
  split; [done|]. split; [|split; [apply trim_trim|done]].
  intros H. by apply trim_subset in H.
Qed.

(** X2. [toHTML] returns the empty string exactly for the texts made of
    nothing but commas, full stops and blanks (line breaks included). *)
Theorem toHTML_empty_iff (s : jsstring) :
  toHTML s = [] <-> forallb isFiller s = true.
Proof.
  rewrite <- paragraphs_nil. unfold toHTML.
  destruct (eqs (trim s) []) eqn:Ht.
  - apply eqs_eq in Ht. split; [intros _|done].
    apply paragraphs_nil. rewrite <- (forallb_trim isFiller s isFiller_blank).
    by rewrite Ht.
  - cbv zeta.
    destruct (eqs (joinWith (js "</p><p>") (paragraphs s)) []) eqn:Hj.
    + apply eqs_eq in Hj. split; [intros _|done].
      apply (joinWith_nil _ _ (Forall_impl _ _ _ (paragraphs_kept s)
                                  (fun p H => proj1 H)) Hj).
    + split; [done|]. intros Hp. rewrite Hp in Hj. done.
Qed.

(** X3. Otherwise [toHTML] wraps the kept lines in one paragraph each, in
    the order of the text; a kept line is not empty, holds no line feed, has
    no blank at either end and holds something else than commas, full stops
    and blanks. *)
Theorem toHTML_paragraphs (s : jsstring) :
  toHTML s
  = match paragraphs s with
    | [] => []
    | _ => js "<p>" ++ joinWith (js "</p><p>") (paragraphs s) ++ js "</p>"
    end
  /\ Forall (fun p => p <> [] /\ (LF ∉ p) /\ trim p = p /\ forallb isFiller p = false)
       (paragraphs s).
Proof.
  split; [|apply paragraphs_kept].
  unfold toHTML. destruct (eqs (trim s) []) eqn:Ht.
  - apply eqs_eq in Ht.
    assert (H : paragraphs s = []); [|by rewrite H].
    apply paragraphs_nil. rewrite <- (forallb_trim isFiller s isFiller_blank).
    by rewrite Ht.
  - cbv zeta.
    destruct (eqs (joinWith (js "</p><p>") (paragraphs s)) []) eqn:Hj.
    + apply eqs_eq in Hj.
      apply (joinWith_nil _ _ (Forall_impl _ _ _ (paragraphs_kept s)
                                  (fun p H => proj1 H))) in Hj.
      by rewrite Hj.
    + destruct (paragraphs s); [done|done].
Qed.

Lemma dropPrivatePlanes_spec (s : jsstring) :
  (forall c, c ∈ dropPrivatePlanes s -> c ∈ s)
  /\ (length (dropPrivatePlanes s) <= length s)%nat.
Proof.
  assert (H : forall n (s : jsstring), (length s <= n)%nat ->
            (forall c, c ∈ dropPrivatePlanes s -> c ∈ s)
            /\ (length (dropPrivatePlanes s) <= length s)%nat);
    [|by apply (H (length s))].
  clear s. induction n as [|n IH]; intros s Hn.
  - destruct s; [by split|simpl in Hn; lia].
  - destruct s as [|hi [|lo s]]; [by split|by split|].
    cbn [dropPrivatePlanes].
    destruct ((56256 <=? hi) && (hi <=? 56318) && (56320 <=? lo) && (lo <=? 57343)).
    + destruct (IH s) as [H1 H2]; [simpl in Hn; lia|].
      split; [|simpl; lia].
      intros c Hc. do 2 (apply elem_of_cons; right). by apply H1.
    + destruct (IH (lo :: s)) as [H1 H2]; [simpl in *; lia|].
      split; [|simpl in *; lia].
      intros c Hc. apply elem_of_cons in Hc. destruct Hc as [->|Hc].
      * by apply elem_of_cons; left.
      * apply elem_of_cons; right. by apply H1.
Qed.

Lemma normalize_length (raw : jsstring) : (length (normalize raw) <= length raw)%nat.
Proof.
  unfold normalize.
  etrans; [apply dropPrivatePlanes_spec|]. rewrite length_map. apply trim_length.
Qed.

(** X4. The text [parseCharacter] works on holds none of the en dash, em
    dash, minus sign and right single quotation mark of the pasted text (they
    have become [-] and [']), and is not longer than the pasted text. *)
Theorem normalize_units (raw : jsstring) :
  (forall c, c ∈ normalize raw -> c <> 8211 /\ c <> 8212 /\ c <> 8722 /\ c <> 8217)
  /\ (length (normalize raw) <= length raw)%nat.
Proof.
  split; [|apply normalize_length]. unfold normalize.
  destruct (dropPrivatePlanes_spec (map normalizeUnit (trim raw))) as [Hin _].
  intros c Hc. apply Hin, list_elem_of_In, in_map_iff in Hc.
  destruct Hc as (d & <- & _). unfold normalizeUnit.
  destruct (d =? 8211) eqn:E1; [done|].
  destruct (d =? 8212) eqn:E2; [done|].
  destruct (d =? 8722) eqn:E3; [done|].
  destruct (d =? 8217) eqn:E4; [done|].
  apply N.eqb_neq in E1, E2, E3, E4. done.
Qed.

Lemma takeWhile_dropWhile (p : N -> bool) (s : jsstring) :
  s = takeWhile p s ++ drop (length (takeWhile p s)) s
  /\ forallb p (takeWhile p s) = true
  /\ match drop (length (takeWhile p s)) s with
     | c :: _ => p c = false
     | [] => True
     end.
Proof.
  induction s as [|c s (IH1 & IH2 & IH3)]; simpl; [done|].
  destruct (p c) eqn:Hc; simpl.
  - rewrite Hc. split; [by rewrite <- IH1|done].
  - by rewrite Hc.
Qed.

Lemma takeWhile_stop (p : N -> bool) (a : jsstring) (c : N) (r : jsstring) :
  forallb p a = true -> p c = false -> takeWhile p (a ++ c :: r) = a.
Proof.
  intros Ha Hc. rewrite (takeWhile_app_all p a (c :: r) Ha). simpl.
  by rewrite Hc, app_nil_r.
Qed.

(** What the pattern of the split matches. *)
Lemma occupationAge_iff (s age occupation : jsstring) :
  occupationAge s = Some (age, occupation) <-> readsAgeFirst s age occupation.
Proof.
  unfold occupationAge, readsAgeFirst.
  destruct (takeWhile_dropWhile isDigit s) as (Hs & Hd & Hstop).
  split.
  - destruct (takeWhile isDigit s) as [|d a] eqn:Ha; [done|].
    destruct (drop (length (d :: a)) s) as [|c o] eqn:Ho; [done|].
    destruct (c =? COMMA) eqn:Hc; [|done].
    destruct (eqs o []) eqn:He; [done|].
    destruct (forallb (fun d => negb (isLineTerminator d)) o) eqn:Hl; [|done].
    simpl. intros [= <- <-]. apply N.eqb_eq in Hc. subst c.
    apply eqs_neq in He. done.
  - intros (-> & Hne & Hdig & Hone & Hline).
    rewrite (takeWhile_stop isDigit age COMMA occupation Hdig eq_refl).
    cbv zeta. clear Hs Hd Hstop.
    destruct age as [|d a]; [done|].
    rewrite (drop_app_length (d :: a)).
    assert (He : eqs occupation [] = false) by by apply eqs_neq.
    by rewrite N.eqb_refl, He, Hline.
Qed.

(** X5. The split of an occupation that starts with the age, as
    [parseCharacter] does it.  With a text as occupation and no age: when
    the occupation reads [age], a comma, [occupation] ([age] a non-empty run
    of digits, [occupation] a non-empty text on one line) the age becomes
    [age] and the occupation [occupation] trimmed, and when it does not the
    record stays as it is.  With an age already set, or without an
    occupation, nothing is split, whatever the occupation reads.  An
    occupation that is not a text, without an age, throws. *)
Theorem splitOccupationAge_cases (st : Importer) :
  match parsed st !! "occupation", parsed st !! "age" with
  | Some (VStr s), None =>
      (forall age occupation,
         readsAgeFirst s age occupation ->
         splitOccupationAge st
         = Ok tt (withParsed (<["occupation" := VStr (trim occupation)]>
                                (<["age" := VStr age]> (parsed st))) st))
      /\ ((forall age occupation, ~ readsAgeFirst s age occupation) ->
          splitOccupationAge st = Ok tt st)
  | Some _, None => splitOccupationAge st = Throw TypeError st
  | _, _ => splitOccupationAge st = Ok tt st
  end.
Proof.
  unfold splitOccupationAge.
  destruct (parsed st !! "occupation") as [[n|s|l]|];
    destruct (parsed st !! "age") as [a|]; try reflexivity.
  split.
  - intros age occupation Hreads.
    by rewrite (proj2 (occupationAge_iff s age occupation) Hreads).
  - intros Hnot. destruct (occupationAge s) as [[age occupation]|] eqn:E; [|done].
    destruct (Hnot age occupation). by apply occupationAge_iff.
Qed.

(** X6. The range bands of a weapon: the first band never holds a [/]; for a
    shotgun the three bands, joined by [/], give the damage text back; a
    weapon is a melee weapon exactly when it is not ranged, and a shotgun is
    always ranged. *)
Theorem weaponData_bands (name damage : jsstring) (lastPercent : LastPercent)
    (isRanged ahdb addb : bool) :
  (47 ∉ rb_damage (normal (w_range
          (weaponData name damage lastPercent isRanged ahdb addb))))
  /\ (shotgun (w_properties (weaponData name damage lastPercent isRanged ahdb addb))
      = true ->
      rb_damage (normal (w_range (weaponData name damage lastPercent isRanged ahdb addb)))
      ++ [47]
      ++ rb_damage (long (w_range (weaponData name damage lastPercent isRanged ahdb addb)))
      ++ [47]
      ++ rb_damage (extreme (w_range
           (weaponData name damage lastPercent isRanged ahdb addb)))
      = damage
      /\ rngd (w_properties (weaponData name damage lastPercent isRanged ahdb addb))
         = true)
  /\ melee (w_properties (weaponData name damage lastPercent isRanged ahdb addb))
     = negb (rngd (w_properties (weaponData name damage lastPercent isRanged ahdb addb))).
Proof.
  unfold weaponData. cbn [w_range w_properties normal long extreme rb_damage shotgun
                          rngd melee].
  pose proof (splitOn_parts 47 damage) as Hparts.
  pose proof (splitOn_join 47 damage) as Hjoin.
  destruct (splitOn 47 damage) as [|a [|b [|c [|d l]]]] eqn:Hs.
  - by destruct (splitOn_not_nil 47 damage).
  - split; [|by split]. by inversion Hparts.
  - split; [|by split]. by inversion Hparts.
  - split; [by inversion Hparts|]. split; [|done]. intros _. simpl.
    split; [|by rewrite orb_true_r]. exact Hjoin.
  - split; [|by split]. by inversion Hparts.
Qed.

(** ** [check]: what a call may touch *)

(** X7. A call of [check] never raises a notification; with [saveKeys] off
    it leaves the parsed record alone, with [removeFromText] off it leaves
    the buffer alone, and a call that returns [false] leaves the importer as
    it was.  A call that throws has written nothing in the parsed record. *)
Theorem check_touches_what_it_is_told (h : Host) (regExKey : string) (o : CheckOpts)
    (st : Importer) :
  match check h regExKey o st with
  | Ok r st' =>
      notifications st' = notifications st
      /\ (saveKeys o = false -> parsed st' = parsed st)
      /\ (removeFromText o = false -> text st' = text st)
      /\ (r = None -> st' = st)
  | Throw _ st' =>
      notifications st' = notifications st
      /\ parsed st' = parsed st
      /\ (removeFromText o = false -> st' = st)
  | Diverge => False
  end.
Proof.
  unfold check.
  destruct (lookupPattern h regExKey) as [p|]; [|done].
  destruct (getRegEx h p "iu") as [regExp|]; [|done].
  destruct (re_exec regExp _) as [chk|]; [|done].
  destruct (match requiredGroup o with Some _ => _ | None => _ end); [|done].
  destruct (saveKeys o) eqn:Hs; [destruct (m_groups chk) as [g|]|];
    destruct (removeFromText o) eqn:Hr; simpl; done.
Qed.

Lemma saveGroups_string (h : Host) (g : list (string * option jsstring))
    (p : gmap string JsVal) (key : string) (v : option jsstring) :
  NoDup (map fst g) -> (key, v) ∈ g ->
  saveGroups h asString g p !! key = Some (VStr (captured v)).
Proof.
  revert p; induction g as [|[k0 v0] g IH]; intros p Hnd Hin.
  - by apply elem_of_nil in Hin.
  - simpl in Hnd. apply NoDup_cons in Hnd as [Hk0 Hnd].
    rewrite saveGroups_cons.
    apply elem_of_cons in Hin as [[= -> ->] | Hin].
    + rewrite saveGroups_other by done. unfold saveKey. simpl.
      by rewrite lookup_insert_eq.
    + by rewrite IH.
Qed.

(** X8. A call of [check] that asks for strings and whose pattern matches
    records every named group of the match, the first line feed of a capture
    turned into a space; a group that took no part in the match is recorded
    as the text "undefined"; no other key of the parsed record changes. *)
Theorem check_string_saves_groups (h : Host) (regExKey : string) (o : CheckOpts)
    (st : Importer) (p : Pat) (re : RegExp) (chk : Match)
    (g : list (string * option jsstring)) :
  type o = asString ->
  saveKeys o = true ->
  lookupPattern h regExKey = Some p ->
  getRegEx h p "iu" = Some re ->
  re_exec re (subject o st) = Some chk ->
  m_groups chk = Some g ->
  NoDup (map fst g) ->
  (forall r, requiredGroup o = Some r -> is_Some (group r g)) ->
  exists out st',
    check h regExKey o st = Ok (Some out) st'
    /\ (forall key v, (key, v) ∈ g ->
          parsed st' !! key = Some (VStr (replaceFirst [LF] [SPACE] (StringOf v))))
    /\ (forall key, (key, None) ∈ g ->
          parsed st' !! key = Some (VStr (js "undefined")))
    /\ (forall key, key ∉ map fst g -> parsed st' !! key = parsed st !! key).
Proof.
  intros Hty Hsave Hp Hre Hexec Hg Hnd Hreq.
  unfold check. unfold subject in Hexec. rewrite Hp, Hre, Hexec, Hg, Hsave, Hty.
  assert (Hr : match requiredGroup o with
               | Some r => match group r g with Some _ => true | None => false end
               | None => true
               end = true).
  { destruct (requiredGroup o) as [r|]; [|done].
    destruct (Hreq r eq_refl) as [x ->]. done. }
  rewrite Hr. eexists _, _. split; [reflexivity|].
  split; [|split].
  - intros key v Hin. cbn [parsed withParsed].
    by rewrite (saveGroups_string h g _ key v Hnd Hin).
  - intros key Hin. cbn [parsed withParsed].
    by rewrite (saveGroups_string h g _ key None Hnd Hin).
  - intros key Hnot. cbn [parsed withParsed].
    rewrite (saveGroups_other h asString g _ key Hnot).
    by destruct (removeFromText o).
Qed.

Lemma check_string_saves_groups_witness :
  exists out st',
    check Sample.host "weapon" defaults (withText (js "Rifle 45%") constructor)
      = Ok (Some out) st'
    /\ parsed st' !! "name" = Some (VStr (js "Rifle"))
    /\ parsed st' !! "damage" = Some (VStr (js "undefined"))
    /\ parsed st' !! "db" = None.
Proof.
  destruct (check_string_saves_groups Sample.host "weapon" defaults
              (withText (js "Rifle 45%") constructor)
              (PatRe (Sample.compile Sample.weaponRx)) (Sample.compile Sample.weaponRx)
              {| m_source := js "Rifle 45%"; m_index := 0;
                 m_groups := Some [("name", Some (js "Rifle"));
                                   ("percentage", Some (js "45"));
                                   ("damage", None)] |}
              [("name", Some (js "Rifle")); ("percentage", Some (js "45"));
               ("damage", None)])
    as (out & st' & Hc & Hg & Hu & Ho).
  - reflexivity.
  - reflexivity.
  - reflexivity.
  - reflexivity.
  - vm_compute. reflexivity.
  - reflexivity.
  - apply (bool_decide_unpack _). vm_compute. exact I.
  - intros r [=].
  - exists out, st'. split; [exact Hc|]. split; [|split].
    + apply (Hg "name" (Some (js "Rifle"))). apply (bool_decide_unpack _).
      vm_compute. exact I.
    + apply (Hu "damage"). apply (bool_decide_unpack _). vm_compute. exact I.
    + rewrite (Ho "db"); [reflexivity|]. apply (bool_decide_unpack _).
      vm_compute. exact I.
Defined.

(** ** [convert7E], [needsConversion], [actorData] *)

Lemma convertEdu_edu (h : Host) (c : gmap string JsVal) :
  convertEdu h c !! "edu" = (fun edu => VNum (eduTier h edu)) <$> c !! "edu".
Proof.
  unfold convertEdu, eduTier.
  destruct (c !! "edu") as [edu|] eqn:E; cbn [fmap option_fmap option_map];
    [|by rewrite E].
  destruct (leNum (ToNumberVal h edu) (Int 18));
    [|destruct (leNum (ToNumberVal h edu) (Int 26))]; by rewrite lookup_insert_eq.
Qed.

Lemma convertDb_db (c : gmap string JsVal) :
  convertDb c !! "db" = dbTier <$> c !! "db".
Proof.
  unfold convertDb, dbTier.
  destruct (c !! "db") as [[n|s|l]|] eqn:E; cbn [fmap option_fmap option_map];
    try by rewrite E.
  destruct (eqs s (js "-1d4")); [by rewrite lookup_insert_eq|].
  destruct (eqs s (js "-1d6")); [by rewrite lookup_insert_eq|by rewrite E].
Qed.

Ltac decided := apply (bool_decide_unpack _); vm_compute; exact I.

Lemma convert7E_lookup (h : Host) (c : gmap string JsVal) (key : string) :
  convert7E h c !! key =
    if decide (key ∈ multiplied)
    then (fun v => VNum (mulNum (ToNumberVal h v) (Int 5))) <$> c !! key
    else if decide (key = "edu"%string) then (fun edu => VNum (eduTier h edu)) <$> c !! key
    else if decide (key = "db"%string) then dbTier <$> c !! key
    else c !! key.
Proof.
  unfold convert7E.
  pose proof (fold_times5_lookup h multiplied c key multiplied_NoDup) as Hfold.
  destruct (decide (key ∈ multiplied)) as [Hm|Hm].
  - assert (key <> "db"%string) by (intros ->; revert Hm; decided).
    assert (key <> "edu"%string) by (intros ->; revert Hm; decided).
    by rewrite convertDb_other, convertEdu_other.
  - destruct (decide (key = "edu"%string)) as [->|He].
    + by rewrite convertDb_other, convertEdu_edu, Hfold.
    + destruct (decide (key = "db"%string)) as [->|Hd].
      * by rewrite convertDb_db, convertEdu_other, Hfold.
      * by rewrite convertDb_other, convertEdu_other.
Qed.

Lemma characteristics_multiplied (key : string) :
  key ∈ characteristics <-> key ∈ multiplied \/ key = "edu"%string.
Proof.
  unfold characteristics, multiplied. rewrite !elem_of_cons, !elem_of_nil. tauto.
Qed.

Lemma convert7E_other (h : Host) (creature : gmap string JsVal) (key : string) :
  key ∉ characteristics -> key <> "db"%string ->
  convert7E h creature !! key = creature !! key.
Proof.
  intros Hc Hdb. rewrite convert7E_lookup.
  destruct (decide (key ∈ multiplied)) as [Hm|_].
  { destruct Hc. apply characteristics_multiplied. by left. }
  destruct (decide (key = "edu"%string)) as [He|_].
  { destruct Hc. apply characteristics_multiplied. by right. }
  by destruct (decide (key = "db"%string)).
Qed.

(** X9. [convert7E] adds and removes no key of the record, changes nothing
    but the eight characteristics and the damage bonus, leaves a number
    under every characteristic that was defined, and keeps every damage
    bonus other than the texts "-1d4" and "-1d6". *)
Theorem convert7E_frame (h : Host) (creature : gmap string JsVal) :
  (forall key, key ∉ characteristics -> key <> "db"%string ->
               convert7E h creature !! key = creature !! key)
  /\ (forall key, is_Some (convert7E h creature !! key) <-> is_Some (creature !! key))
  /\ (forall key v, key ∈ characteristics -> convert7E h creature !! key = Some v ->
                    exists n, v = VNum n)
  /\ (forall db, creature !! "db" = Some (VStr db) ->
                 db <> js "-1d4" -> db <> js "-1d6" ->
                 convert7E h creature !! "db" = Some (VStr db)).
Proof.
  split; [|split; [|split]].
  - apply convert7E_other.
  - intros key. rewrite convert7E_lookup.
    repeat case_decide; by rewrite ?fmap_is_Some.
  - intros key v Hc. rewrite convert7E_lookup.
    apply characteristics_multiplied in Hc.
    destruct (decide (key ∈ multiplied)) as [Hm|Hm].
    { destruct (creature !! key); simpl; [|done]. intros [= <-]. by eexists. }
    destruct Hc as [Hc| ->]; [done|]. rewrite decide_True by done.
    destruct (creature !! "edu"); simpl; [|done]. intros [= <-]. by eexists.
  - intros db Hdb H4 H6. rewrite convert7E_lookup.
    rewrite (decide_False (P := "db"%string ∈ multiplied)) by decided.
    rewrite decide_False by done. rewrite decide_True by done.
    rewrite Hdb. cbn [fmap option_fmap option_map dbTier].
    apply eqs_neq in H4, H6. by rewrite H4, H6.
Qed.

(** X10. The education after [convert7E].  On educations that are numbers
    it preserves their order and never exceeds 99, and an education whose
    value is [NaN] becomes 99.  The bound is one of numbers only: on an
    education that is a text of the middle tier (above 18, at most 26) the
    [+] of [creature.edu + 90 - 18] concatenates, and what is stored is the
    number read from the text followed by "90", less 18. *)
Theorem convert7E_edu_monotone (h : Host) :
  (forall creature1 creature2 z1 z2,
     creature1 !! "edu" = Some (VNum (Int z1)) ->
     creature2 !! "edu" = Some (VNum (Int z2)) ->
     (z1 <= z2)%Z ->
     exists e1 e2,
       convert7E h creature1 !! "edu" = Some (VNum (Int e1))
       /\ convert7E h creature2 !! "edu" = Some (VNum (Int e2))
       /\ (e1 <= e2 <= 99)%Z)
  /\ (forall creature edu,
        creature !! "edu" = Some edu -> ToNumberVal h edu = NaN ->
        convert7E h creature !! "edu" = Some (VNum (Int 99)))
  /\ (forall creature s z,
        creature !! "edu" = Some (VStr s) -> ToNumber h s = Int z ->
        (18 < z <= 26)%Z ->
        convert7E h creature !! "edu"
        = Some (VNum (subNum (ToNumber h (s ++ js "90")) (Int 18)))).
Proof.
  assert (Htier : forall z, exists e,
            eduTier h (VNum (Int z)) = Int e
            /\ e = (if (z <=? 18)%Z then z * 5
                    else if (z <=? 26)%Z then z + 90 - 18 else 99)%Z).
  { intros z. unfold eduTier. cbn [ToNumberVal leNum mulNum remapEdu addNum subNum].
    destruct (z <=? 18)%Z; [by eexists|]. destruct (z <=? 26)%Z; by eexists. }
  split; [|split].
  - intros c1 c2 z1 z2 H1 H2 Hle.
    destruct (Htier z1) as (e1 & He1 & Hv1). destruct (Htier z2) as (e2 & He2 & Hv2).
    exists e1, e2. rewrite !convert7E_lookup.
    rewrite !(decide_False (P := "edu"%string ∈ multiplied)) by decided.
    rewrite !decide_True by done.
    rewrite H1, H2. cbn [fmap option_fmap option_map]. rewrite He1, He2.
    split; [done|]. split; [done|].
    destruct (Z.leb_spec z1 18), (Z.leb_spec z2 18),
      (Z.leb_spec z1 26), (Z.leb_spec z2 26); lia.
  - intros c edu He Hnan. rewrite convert7E_lookup.
    rewrite (decide_False (P := "edu"%string ∈ multiplied)) by decided.
    rewrite decide_True by done.
    rewrite He. cbn [fmap option_fmap option_map]. unfold eduTier. by rewrite Hnan.
  - intros c s z He Hz Hband. rewrite convert7E_lookup.
    rewrite (decide_False (P := "edu"%string ∈ multiplied)) by decided.
    rewrite decide_True by done.
    rewrite He. cbn [fmap option_fmap option_map]. unfold eduTier.
    cbn [ToNumberVal ToString remapEdu]. rewrite Hz. cbn [leNum].
    destruct (Z.leb_spec z 18); [lia|]. destruct (Z.leb_spec z 26); [done|lia].
Qed.

(** The education "20", held as a text, becomes 2072. *)
Example convert7E_edu_text_20 :
  convert7E Sample.host (<["edu" := VStr (js "20")]> ∅) !! "edu"
  = Some (VNum (Int 2072)).
Proof. by vm_compute. Qed.

(** X11. A record with a characteristic of 7 or more is not converted a
    second time by the auto-detect mode: after [convert7E] the guess of
    [needsConversion] is that no conversion is needed. *)
Theorem convert7E_guess_once (h : Host) (creature : gmap string JsVal)
    (key : string) (z : Z) :
  key ∈ characteristics ->
  creature !! key = Some (VNum (Int z)) ->
  (7 <= z)%Z ->
  needsConversion h (convert7E h creature) = false
  /\ convertStep h (js "coc-guess") (convert7E h creature) = convert7E h creature.
Proof.
  intros Hkey Hz Hle.
  assert (Hn : needsConversion h (convert7E h creature) = false).
  { rewrite needsConversion_forallb. apply not_true_is_false. intros Hall.
    rewrite forallb_forall in Hall. specialize (Hall key).
    rewrite <- list_elem_of_In in Hall. specialize (Hall Hkey).
    apply negb_true_iff in Hall.
    assert (He : exists e, convert7E h creature !! key = Some (VNum (Int e))
                           /\ (30 < e)%Z).
    { rewrite convert7E_lookup. apply characteristics_multiplied in Hkey.
      destruct (decide (key ∈ multiplied)) as [Hm|Hm].
      - rewrite Hz. exists (z * 5)%Z. split; [done|lia].
      - destruct Hkey as [Hkey| ->]; [done|]. rewrite decide_True by done.
        rewrite Hz. cbn [fmap option_fmap option_map]. unfold eduTier.
        cbn [ToNumberVal leNum mulNum remapEdu addNum subNum].
        destruct (Z.leb_spec z 18); [exists (z * 5)%Z; split; [done|lia]|].
        destruct (Z.leb_spec z 26); [exists (z + 90 - 18)%Z; split; [done|lia]|].
        exists 99%Z. split; [done|lia]. }
    destruct He as (e & He & Hgt).
    rewrite (above30_number h _ key e He) in Hall.
    apply Z.ltb_ge in Hall. lia. }
  split; [exact Hn|].
  unfold convertStep, shouldConvert. by rewrite Hn, andb_false_r.
Qed.

Lemma convert7E_guess_once_witness :
  needsConversion Sample.host
    (convert7E Sample.host (<["str" := VNum (Int 12)]> (<["edu" := VNum (Int 3)]> ∅)))
  = false.
Proof.
  apply (convert7E_guess_once Sample.host
           (<["str" := VNum (Int 12)]> (<["edu" := VNum (Int 3)]> ∅)) "str" 12).
  - decided.
  - reflexivity.
  - lia.
Defined.

Lemma fold_numbers_lookup (h : Host) (pc : gmap string JsVal) (ks : list string)
    (acc : gmap string JsNum) (key : string) :
  fold_left
    (fun data key =>
       match pc !! key with
       | Some v => <[key := ToNumberVal h v]> data
       | None => data
       end) ks acc !! key
  = if decide (key ∈ ks)
    then match pc !! key with
         | Some v => Some (ToNumberVal h v)
         | None => acc !! key
         end
    else acc !! key.
Proof.
  revert acc. induction ks as [|k ks IH]; intros acc; cbn [fold_left].
  - by rewrite decide_False by apply not_elem_of_nil.
  - rewrite IH. destruct (decide (key ∈ ks)) as [Hin|Hnin].
    + rewrite decide_True by (by right).
      destruct (pc !! key) eqn:E; [done|].
      destruct (pc !! k) eqn:Ek; [|done].
      rewrite lookup_insert_ne; [done|]. intros ->. congruence.
    + destruct (decide (k = key)) as [->|Hne].
      * rewrite decide_True by (by left).
        destruct (pc !! key); [by rewrite lookup_insert_eq|done].
      * rewrite decide_False by (by intros [?|?]%elem_of_cons).
        destruct (pc !! k); [by rewrite lookup_insert_ne|done].
Qed.

Lemma numbersOf_lookup (h : Host) (pc : gmap string JsVal) (ks : list string)
    (key : string) :
  numbersOf h pc ks !! key
  = if decide (key ∈ ks) then ToNumberVal h <$> pc !! key else None.
Proof.
  unfold numbersOf. rewrite fold_numbers_lookup.
  destruct (decide (key ∈ ks)); [|done]. by destruct (pc !! key).
Qed.

Lemma fold_copied_lookup (pc : gmap string JsVal) (ks : list string)
    (acc : gmap string JsVal) (key : string) :
  fold_left
    (fun data key =>
       match pc !! key with
       | Some v => <[key := v]> data
       | None => data
       end) ks acc !! key
  = if decide (key ∈ ks)
    then match pc !! key with
         | Some v => Some v
         | None => acc !! key
         end
    else acc !! key.
Proof.
  revert acc. induction ks as [|k ks IH]; intros acc; cbn [fold_left].
  - by rewrite decide_False by apply not_elem_of_nil.
  - rewrite IH. destruct (decide (key ∈ ks)) as [Hin|Hnin].
    + rewrite decide_True by (by right).
      destruct (pc !! key) eqn:E; [done|].
      destruct (pc !! k) eqn:Ek; [|done].
      rewrite lookup_insert_ne; [done|]. intros ->. congruence.
    + destruct (decide (k = key)) as [->|Hne].
      * rewrite decide_True by (by left).
        destruct (pc !! key); [by rewrite lookup_insert_eq|done].
      * rewrite decide_False by (by intros [?|?]%elem_of_cons).
        destruct (pc !! k); [by rewrite lookup_insert_ne|done].
Qed.

Lemma copied_lookup (pc : gmap string JsVal) (ks : list string) (key : string) :
  copied pc ks !! key = if decide (key ∈ ks) then pc !! key else None.
Proof.
  unfold copied. rewrite fold_copied_lookup.
  destruct (decide (key ∈ ks)); [|done]. by destruct (pc !! key).
Qed.

Lemma actorData_attribs (h : Host) (pc : gmap string JsVal) (d : ActorData)
    (key : string) :
  actorData h pc = Some d ->
  a_attribs d !! key
  = if decide (key = "db"%string) then pc !! "db"
    else if decide (key ∈ attribKeys) then VNum <$> (ToNumberVal h <$> pc !! key)
    else None.
Proof.
  intros Hd.
  assert (Ha : a_attribs d
               = match pc !! "db" with
                 | Some db => <["db" := db]> (VNum <$> numbersOf h pc attribKeys)
                 | None => VNum <$> numbersOf h pc attribKeys
                 end).
  { unfold actorData in Hd.
    destruct (pc !! "sanLoss") as [[n|s|l]|];
      [discriminate Hd| |discriminate Hd|];
      apply (f_equal (fun o => match o with Some x => x | None => d end)) in Hd;
      by rewrite <- Hd. }
  rewrite Ha. destruct (decide (key = "db"%string)) as [->|Hne].
  - destruct (pc !! "db") eqn:E; [by rewrite lookup_insert_eq|].
    rewrite lookup_fmap, numbersOf_lookup, E. by case_decide.
  - destruct (pc !! "db"); [rewrite lookup_insert_ne by done|];
      rewrite lookup_fmap, numbersOf_lookup; by case_decide.
Qed.

Lemma actorData_lookups (h : Host) (pc : gmap string JsVal) (d : ActorData) :
  actorData h pc = Some d ->
  (forall key,
     a_characteristics d !! key
     = if decide (key ∈ characteristics) then ToNumberVal h <$> pc !! key else None)
  /\ (forall key,
        a_infos d !! key
        = if decide (key ∈ ["age"; "occupation"]%string) then pc !! key else None)
  /\ a_attacksPerRound d = ToNumberVal h <$> pc !! "attacksPerRound"
  /\ a_keeper d = pc !! "gmnotes".
Proof.
  intros Hd. unfold actorData in Hd.
  assert (Hc : a_characteristics d = numbersOf h pc characteristics
               /\ a_infos d = copied pc ["age"; "occupation"]%string
               /\ a_attacksPerRound d = ToNumberVal h <$> pc !! "attacksPerRound"
               /\ a_keeper d = pc !! "gmnotes").
  { destruct (pc !! "sanLoss") as [[n|s|l]|];
      [discriminate Hd| |discriminate Hd|];
      apply (f_equal (fun o => match o with Some x => x | None => d end)) in Hd;
      rewrite <- Hd; repeat split; reflexivity. }
  destruct Hc as (-> & -> & -> & ->).
  split; [intros key; apply numbersOf_lookup|].
  split; [intros key; apply copied_lookup|done].
Qed.

(** X12. [actorData] throws exactly on a record whose sanity loss is defined
    and is not a text.  Otherwise the characteristics of the actor are the
    defined characteristics of the record, each turned into a number, its
    attributes are the seven numeric attributes and the damage bonus as it
    is, and the keeper's notes are [gmnotes]. *)
Theorem actorData_fields (h : Host) (pc : gmap string JsVal) :
  (actorData h pc = None
   <-> exists v, pc !! "sanLoss" = Some v /\ forall s, v <> VStr s)
  /\ (forall d, actorData h pc = Some d ->
        (forall key,
           a_characteristics d !! key
           = if decide (key ∈ characteristics) then ToNumberVal h <$> pc !! key
             else None)
        /\ (forall key,
              a_attribs d !! key
              = if decide (key = "db"%string) then pc !! "db"
                else if decide (key ∈ attribKeys)
                     then VNum <$> (ToNumberVal h <$> pc !! key)
                     else None)
        /\ (forall key,
              a_infos d !! key
              = if decide (key ∈ ["age"; "occupation"]%string) then pc !! key
                else None)
        /\ a_attacksPerRound d = ToNumberVal h <$> pc !! "attacksPerRound"
        /\ a_keeper d = pc !! "gmnotes"
        /\ (forall s, pc !! "sanLoss" = Some (VStr s) -> (47 ∉ s) ->
                      a_sanLoss d = Some (s, None))).
Proof.
  split.
  - unfold actorData. destruct (pc !! "sanLoss") as [[n|s|l]|] eqn:E.
    + split; [intros _|done]. eexists. split; [done|]. by intros s.
    + split; [done|]. intros (v & [= <-] & Hv). by destruct (Hv s).
    + split; [intros _|done]. eexists. split; [done|]. by intros s.
    + split; [done|]. by intros (v & [=] & _).
  - intros d Hd. destruct (actorData_lookups h pc d Hd) as (Hc & Hi & Hr & Hk).
    split; [exact Hc|]. split; [intros key; by apply actorData_attribs|].
    split; [exact Hi|]. split; [exact Hr|]. split; [exact Hk|].
    intros s Hs Hno. unfold actorData in Hd. rewrite Hs in Hd.
    apply (f_equal (fun o => match o with Some x => x | None => d end)) in Hd.
    rewrite <- Hd. cbn [a_sanLoss].
    by rewrite (splitOn_no_separator 47 s Hno).
Qed.

(** X13. Conversion before [actorData], as [createActor] chains them: the
    actor of the converted record has the seven multiplied characteristics
    of the unconverted actor times five and the education of its tier; its
    attributes other than the damage bonus, its age and occupation, its
    sanity loss, attacks per round and keeper's notes are those of the
    unconverted actor, and it exists exactly when the unconverted one
    does. *)
Theorem actorData_after_convert7E (h : Host) (pc : gmap string JsVal) :
  (actorData h (convert7E h pc) = None <-> actorData h pc = None)
  /\ (forall d d',
        actorData h pc = Some d -> actorData h (convert7E h pc) = Some d' ->
        (forall key, key ∈ multiplied ->
           a_characteristics d' !! key
           = (fun n => mulNum n (Int 5)) <$> a_characteristics d !! key)
        /\ a_characteristics d' !! "edu" = eduTier h <$> pc !! "edu"
        /\ (forall key, key <> "db"%string -> a_attribs d' !! key = a_attribs d !! key)
        /\ a_attribs d' !! "db" = dbTier <$> pc !! "db"
        /\ a_infos d' = a_infos d
        /\ a_sanLoss d' = a_sanLoss d
        /\ a_attacksPerRound d' = a_attacksPerRound d
        /\ a_keeper d' = a_keeper d).
Proof.
  assert (Hsame : forall key, key ∉ characteristics -> key <> "db"%string ->
                    convert7E h pc !! key = pc !! key)
    by apply convert7E_other.
  assert (Hsan : convert7E h pc !! "sanLoss" = pc !! "sanLoss")
    by (apply Hsame; [decided|done]).
  split.
  - unfold actorData. rewrite Hsan. by destruct (pc !! "sanLoss") as [[n|s|l]|].
  - intros d d' Hd Hd'.
    destruct (actorData_lookups h pc d Hd) as (Hc & Hi & Hr & Hk).
    destruct (actorData_lookups h (convert7E h pc) d' Hd') as (Hc' & Hi' & Hr' & Hk').
    pose proof (fun key => actorData_attribs h pc d key Hd) as Ha.
    pose proof (fun key => actorData_attribs h (convert7E h pc) d' key Hd') as Ha'.
    split; [|split; [|split; [|split; [|split; [|split; [|split]]]]]].
    + intros key Hm. rewrite Hc', Hc.
      assert (key ∈ characteristics) by (apply characteristics_multiplied; by left).
      rewrite !decide_True by done. rewrite convert7E_lookup, decide_True by done.
      by destruct (pc !! key).
    + rewrite Hc'. rewrite decide_True by decided.
      rewrite convert7E_lookup.
      rewrite (decide_False (P := "edu"%string ∈ multiplied)) by decided.
      rewrite decide_True by done. by destruct (pc !! "edu").
    + intros key Hne. rewrite Ha', Ha.
      rewrite !(decide_False (P := key = "db"%string)) by done.
      destruct (decide (key ∈ attribKeys)) as [Hin|]; [|done].
      rewrite Hsame; [done| |done].
      clear Hne. revert key Hin. apply Forall_forall. decided.
    + rewrite Ha'. rewrite decide_True by done. rewrite convert7E_lookup.
      rewrite (decide_False (P := "db"%string ∈ multiplied)) by decided.
      rewrite decide_False by done. by rewrite decide_True.
    + apply map_eq. intros key. rewrite Hi', Hi.
      destruct (decide (key ∈ ["age"; "occupation"]%string)) as [Hin|]; [|done].
      revert key Hin.
      apply (Forall_forall
               (fun key => convert7E h pc !! key = pc !! key)).
      repeat constructor; apply Hsame; (decided || done).
    + unfold actorData in Hd, Hd'. rewrite Hsan in Hd'.
      destruct (pc !! "sanLoss") as [[n|s|l]|];
        [discriminate Hd| |discriminate Hd|];
        apply (f_equal (fun o => match o with Some x => x | None => d end)) in Hd;
        apply (f_equal (fun o => match o with Some x => x | None => d' end)) in Hd';
        by rewrite <- Hd, <- Hd'.
    + rewrite Hr', Hr. by rewrite Hsame by (decided || done).
    + rewrite Hk', Hk. by rewrite Hsame by (decided || done).
Qed.

(** ** [guessItem] and [disableAttribAuto] *)

Lemma find_none_iff {A} (f : A -> bool) (l : list A) :
  List.find f l = None <-> forall x, x ∈ l -> f x = false.
Proof.
  split.
  - intros H x Hx. apply list_elem_of_In in Hx. by apply (find_none f l H).
  - intros H. destruct (List.find f l) as [x|] eqn:E; [|done].
    apply find_some in E as [Hin Hf]. apply list_elem_of_In in Hin.
    by rewrite (H x Hin) in Hf.
Qed.

Lemma find_some_elem {A} (f : A -> bool) (l : list A) (x : A) :
  List.find f l = Some x -> x ∈ l /\ f x = true.
Proof. intros [H ?]%find_some. by apply list_elem_of_In in H. Qed.

Lemma searchPacks_found (g : Game) (loc : N) (type name : jsstring)
    (combat : option bool) (packs : list Pack) (d : ItemDoc) :
  searchPacks g loc type name combat packs = Some d ->
  exists pack, pack ∈ packs /\ packOpened loc pack = true
               /\ d ∈ p_documents pack /\ isItem g type name combat d = true.
Proof.
  induction packs as [|pack packs IH]; simpl; [done|].
  destruct (packOpened loc pack) eqn:Ho.
  - destruct (List.find _ (p_documents pack)) as [x|] eqn:Ef.
    + intros [= ->]. apply find_some_elem in Ef as [? ?].
      exists pack. split; [by left|done].
    + intros (p & ? & ?)%IH. exists p. split; [by right|done].
  - intros (p & ? & ?)%IH. exists p. split; [by right|done].
Qed.

Lemma searchPacks_none (g : Game) (loc : N) (type name : jsstring)
    (combat : option bool) (packs : list Pack) :
  searchPacks g loc type name combat packs = None <->
  forall pack d, pack ∈ packs -> packOpened loc pack = true ->
                 d ∈ p_documents pack -> isItem g type name combat d = false.
Proof.
  induction packs as [|pack packs IH]; simpl.
  - split; [|done]. by intros _ pack d ?%elem_of_nil.
  - destruct (packOpened loc pack) eqn:Ho.
    + destruct (List.find _ (p_documents pack)) as [x|] eqn:Ef.
      * split; [done|]. intros H. apply find_some_elem in Ef as [Hx Hf].
        rewrite (H pack x) in Hf; [done|by left|done|done].
      * rewrite IH. split.
        -- intros H p d [->|Hp]%elem_of_cons Hop Hd.
           ++ by apply (proj1 (find_none_iff _ _) Ef).
           ++ by apply (H p d).
        -- intros H p d Hp. apply H. by right.
    + rewrite IH. split.
      * intros H p d [->|Hp]%elem_of_cons Hop Hd; [congruence|by apply (H p d)].
      * intros H p d Hp. apply H. by right.
Qed.

Lemma packOpened_spec (loc : N) (pack : Pack) :
  packOpened loc pack = true <->
  p_entity pack = js "Item"
  /\ ((loc = 119 /\ p_package pack = js "world")
      \/ (loc = 83 /\ p_package pack = js "CoC7")
      \/ (loc = 115 /\ p_package pack <> js "world" /\ p_package pack <> js "CoC7")).
Proof.
  unfold packOpened.
  rewrite andb_true_iff, !orb_true_iff, !andb_true_iff, negb_true_iff,
    orb_false_iff, !N.eqb_eq, !eqs_eq, !eqs_neq. tauto.
Qed.

(** X14. What [guessItem] finds is an item of the asked type whose name, in
    lower case, is the asked name in lower case, and whose combat flag is
    the asked one when one is asked; it comes from the item directory when
    the locations hold [i], or from a pack of items that is a world pack
    when they hold [w], or a pack that is neither a world pack nor a pack
    of the system when they hold [s]: a pack of the system ([CoC7]) is never
    opened.  It finds nothing only when none of these places holds such an
    item. *)
Theorem guessItem_found (g : Game) (itemLocations type name : jsstring)
    (combat : option bool) :
  match guessItem g itemLocations type name combat with
  | Some d =>
      isItem g type (toLowerCase g name) combat d = true
      /\ ((105 ∈ itemLocations /\ d ∈ g_items g)
          \/ exists pack,
               pack ∈ g_packs g /\ d ∈ p_documents pack
               /\ p_entity pack = js "Item"
               /\ p_package pack <> js "CoC7"
               /\ ((119 ∈ itemLocations /\ p_package pack = js "world")
                   \/ (115 ∈ itemLocations /\ p_package pack <> js "world")))
  | None =>
      (105 ∈ itemLocations ->
       forall d, d ∈ g_items g -> isItem g type (toLowerCase g name) combat d = false)
      /\ (forall pack d,
            pack ∈ g_packs g -> d ∈ p_documents pack ->
            p_entity pack = js "Item" ->
            (119 ∈ itemLocations /\ p_package pack = js "world")
            \/ (115 ∈ itemLocations /\ p_package pack <> js "world"
                /\ p_package pack <> js "CoC7") ->
            isItem g type (toLowerCase g name) combat d = false)
  end.
Proof.
  unfold guessItem. generalize (toLowerCase g name) as n. intros n.
  induction itemLocations as [|loc locs IH]; cbn [searchLocations].
  - split; [by intros ?%elem_of_nil|].
    intros pack d _ _ _ [[H _]|[H _]]; by apply elem_of_nil in H.
  - assert (Hlift : forall d,
              match Some d with
              | Some d =>
                  isItem g type n combat d = true
                  /\ ((105 ∈ locs /\ d ∈ g_items g)
                      \/ exists pack,
                           pack ∈ g_packs g /\ d ∈ p_documents pack
                           /\ p_entity pack = js "Item"
                           /\ p_package pack <> js "CoC7"
                           /\ ((119 ∈ locs /\ p_package pack = js "world")
                               \/ (115 ∈ locs /\ p_package pack <> js "world")))
              | None => True
              end ->
              isItem g type n combat d = true
              /\ ((105 ∈ loc :: locs /\ d ∈ g_items g)
                  \/ exists pack,
                       pack ∈ g_packs g /\ d ∈ p_documents pack
                       /\ p_entity pack = js "Item"
                       /\ p_package pack <> js "CoC7"
                       /\ ((119 ∈ loc :: locs /\ p_package pack = js "world")
                           \/ (115 ∈ loc :: locs /\ p_package pack <> js "world")))).
    { intros d (Hi & [[H1 H2]|(pack & Hp & Hd & He & Hc & [[H1 H2]|[H1 H2]])]).
      - split; [done|]. left. split; [by right|done].
      - split; [done|]. right. exists pack. repeat (split; [done|]).
        left. split; [by right|done].
      - split; [done|]. right. exists pack. repeat (split; [done|]).
        right. split; [by right|done]. }
    destruct (N.eqb_spec loc 105) as [->|Hi].
    { destruct (List.find _ (g_items g)) as [x|] eqn:Ef.
      - apply find_some_elem in Ef as [Hx Hf]. split; [done|]. left.
        split; [by left|done].
      - destruct (searchLocations g locs type n combat) as [d|].
        + by apply Hlift.
        + destruct IH as [IH1 IH2]. split.
          * intros _. apply (proj1 (find_none_iff _ _) Ef).
          * intros pack d Hp Hd He [[Hw ?]|[Hs ?]]; apply (IH2 pack d Hp Hd He).
            -- left. apply elem_of_cons in Hw as [?|?]; done.
            -- right. apply elem_of_cons in Hs as [?|?]; done. }
    destruct ((loc =? 119) || (loc =? 109) || (loc =? 115)) eqn:Hs.
    { destruct (searchPacks g loc type n combat (g_packs g)) as [x|] eqn:Ef.
      - apply searchPacks_found in Ef as (pack & Hp & Ho & Hd & Hf).
        apply packOpened_spec in Ho as (He & Ho).
        split; [done|]. right. exists pack. repeat (split; [done|]).
        destruct Ho as [[-> Hw]|[[-> _]|(-> & Hw & Hc)]]; [| done |].
        + split; [by rewrite Hw|]. left. split; [by left|done].
        + split; [done|]. right. split; [by left|done].
      - destruct (searchLocations g locs type n combat) as [d|].
        + by apply Hlift.
        + destruct IH as [IH1 IH2]. split.
          * intros [?|Hin]%elem_of_cons; [by subst|]. by apply IH1.
          * intros pack d Hp Hd He Hor.
            destruct (decide ((119 ∈ locs /\ p_package pack = js "world")
                              \/ (115 ∈ locs /\ p_package pack <> js "world"
                                  /\ p_package pack <> js "CoC7"))) as [Hl|Hl].
            { by apply (IH2 pack d Hp Hd He). }
            apply (proj1 (searchPacks_none _ _ _ _ _ _) Ef pack d Hp); [|done].
            apply packOpened_spec. split; [done|].
            destruct Hor as [[Hw Hpk]|(Hw & Hpk & Hc)].
            -- left. split; [|done]. apply elem_of_cons in Hw as [?|?]; [done|].
               destruct Hl. by left.
            -- right. right. split; [|done].
               apply elem_of_cons in Hw as [?|?]; [done|]. destruct Hl. by right. }
    destruct (searchLocations g locs type n combat) as [d|].
    + by apply Hlift.
    + destruct IH as [IH1 IH2]. split.
      * intros [?|Hin]%elem_of_cons; [by subst|]. by apply IH1.
      * apply orb_false_iff in Hs as [[H119 _]%orb_false_iff H115].
        apply N.eqb_neq in H119, H115.
        intros pack d Hp Hd He [[Hw ?]|[Hw ?]]; apply (IH2 pack d Hp Hd He).
        -- left. apply elem_of_cons in Hw as [?|?]; [by subst|done].
        -- right. apply elem_of_cons in Hw as [?|?]; [by subst|done].
Qed.

(** X15. The letters of the item locations are tried in their order, the
    first place that holds the item wins; letters other than [i], [w] and
    [s] change nothing, so the letter [m] of the module compendiums opens no
    pack. *)
Theorem guessItem_locations (g : Game) (type name : jsstring) (combat : option bool) :
  (forall first rest,
     guessItem g (first ++ rest) type name combat
     = match guessItem g first type name combat with
       | Some d => Some d
       | None => guessItem g rest type name combat
       end)
  /\ (forall itemLocations,
        guessItem g itemLocations type name combat
        = guessItem g
            (List.filter (fun loc => (loc =? 105) || (loc =? 119) || (loc =? 115))
               itemLocations)
            type name combat).
Proof.
  unfold guessItem. generalize (toLowerCase g name) as n. intros n. split.
  - intros first rest. induction first as [|loc locs IH]; cbn [searchLocations app];
      [done|].
    destruct (loc =? 105).
    { destruct (List.find _ (g_items g)); [done|exact IH]. }
    destruct ((loc =? 119) || (loc =? 109) || (loc =? 115)); [|exact IH].
    destruct (searchPacks g loc type n combat (g_packs g)); [done|exact IH].
  - intros locs. induction locs as [|loc locs IH]; cbn [searchLocations List.filter];
      [done|].
    destruct (loc =? 105) eqn:Hi.
    { cbn [orb searchLocations]. rewrite Hi.
      destruct (List.find _ (g_items g)); [done|exact IH]. }
    destruct (loc =? 119) eqn:Hw.
    { cbn [orb searchLocations]. rewrite Hi, Hw. cbn [orb].
      destruct (searchPacks g loc type n combat (g_packs g)); [done|exact IH]. }
    destruct (loc =? 115) eqn:Hs.
    { cbn [orb searchLocations]. rewrite Hi, Hw, Hs, !orb_true_r. cbn [orb].
      rewrite ?orb_true_r.
      destruct (searchPacks g loc type n combat (g_packs g)); [done|exact IH]. }
    cbn [orb]. destruct (loc =? 109) eqn:Hm; [|exact IH].
    assert (Hnone : searchPacks g loc type n combat (g_packs g) = None).
    { apply searchPacks_none. intros pack d _ Ho.
      apply N.eqb_neq in Hw, Hs. apply N.eqb_eq in Hm.
      apply packOpened_spec in Ho as (_ & [[-> _]|[[-> _]|[-> _]]]); done. }
    by rewrite Hnone.
Qed.

(** X16. [disableAttribAuto] writes nothing when the imported value, raised
    to zero when it is negative, is the value the actor already has.
    Otherwise the only entries of the update it changes are the [auto] flag
    of the attribute, which it turns off, and its [value] and [max] (for the
    build, [current]), which receive the raised value: no negative number is
    ever written. *)
Theorem disableAttribAuto_writes (key : string) (attribValue check : JsNum)
    (updateData : gmap string UpdateVal) :
  (forall z, attribValue = Int z -> check = Int (Z.max 0 z) ->
             disableAttribAuto key attribValue check updateData = updateData)
  /\ (forall p,
        disableAttribAuto key attribValue check updateData !! p <> updateData !! p ->
        (p = attribPath key "auto"
         /\ disableAttribAuto key attribValue check updateData !! p
            = Some (UBool false))
        \/ ((p = attribPath key "value"
             \/ p = attribPath key (if String.eqb key "build" then "current" else "max"))
            /\ disableAttribAuto key attribValue check updateData !! p
               = Some (UNum (atLeastZero attribValue))))
  /\ (forall p z,
        disableAttribAuto key attribValue check updateData !! p = Some (UNum (Int z)) ->
        updateData !! p = Some (UNum (Int z)) \/ (0 <= z)%Z).
Proof.
  assert (Hcases : forall p,
            disableAttribAuto key attribValue check updateData !! p = updateData !! p
            \/ (p = attribPath key "auto"
                /\ disableAttribAuto key attribValue check updateData !! p
                   = Some (UBool false))
            \/ ((p = attribPath key "value"
                 \/ p = attribPath key
                          (if String.eqb key "build" then "current" else "max"))
                /\ disableAttribAuto key attribValue check updateData !! p
                   = Some (UNum (atLeastZero attribValue)))).
  { intros p. unfold disableAttribAuto.
    destruct (differs (atLeastZero attribValue) check); [|by left].
    destruct (String.eqb key "build").
    - destruct (decide (p = attribPath key "current")) as [->|H3].
      { right. right. split; [by right|by rewrite lookup_insert_eq]. }
      rewrite lookup_insert_ne by done.
      destruct (decide (p = attribPath key "value")) as [->|H2].
      { right. right. split; [by left|by rewrite lookup_insert_eq]. }
      rewrite lookup_insert_ne by done.
      destruct (decide (p = attribPath key "auto")) as [->|H1].
      { right. left. split; [done|by rewrite lookup_insert_eq]. }
      left. by rewrite lookup_insert_ne.
    - destruct (decide (p = attribPath key "max")) as [->|H3].
      { right. right. split; [by right|by rewrite lookup_insert_eq]. }
      rewrite lookup_insert_ne by done.
      destruct (decide (p = attribPath key "value")) as [->|H2].
      { right. right. split; [by left|by rewrite lookup_insert_eq]. }
      rewrite lookup_insert_ne by done.
      destruct (decide (p = attribPath key "auto")) as [->|H1].
      { right. left. split; [done|by rewrite lookup_insert_eq]. }
      left. by rewrite lookup_insert_ne. }
  split; [|split].
  - intros z -> ->. unfold disableAttribAuto. cbn [atLeastZero differs].
    by rewrite Z.eqb_refl.
  - intros p Hne. by destruct (Hcases p) as [He|Hc].
  - intros p z Hp. destruct (Hcases p) as [He|[[_ Hv]|[_ Hv]]].
    + left. by rewrite <- He.
    + by rewrite Hv in Hp.
    + right. rewrite Hv in Hp. destruct attribValue as [|a]; [done|].
      injection Hp as <-. lia.
Qed.

(** ** [processSpells] *)

(** X17. [processSpells] on a record whose spells are an array or absent:
    a blank span changes nothing; any other span appends one spell for each
    piece of its first sentence, that is one more than the separating commas,
    so at least one, each cleaned by [cleanString]; the first sentence is
    cut out of the buffer, and no other key of the parsed record and no
    notification changes. *)
Theorem processSpells_appends (span : jsstring) (st : Importer) :
  arrayOrAbsent "spells" st ->
  exists st',
    processSpells span st = Ok tt st'
    /\ (trim span = [] -> st' = st)
    /\ (trim span <> [] ->
        items "spells" st'
        = items "spells" st
          ++ map (fun s => ISpell (cleanString s))
               (splitSpells [] (squeezeBreaks (firstSentence span)))
        /\ length (items "spells" st')
           = (length (items "spells" st)
              + S (countSeparators [] (squeezeBreaks (firstSentence span))))%nat
        /\ text st' = replaceFirst (trim (firstSentence span)) [LF] (text st))
    /\ (forall key, key <> "spells"%string -> parsed st' !! key = parsed st !! key)
    /\ notifications st' = notifications st.
Proof.
  intros Harr. unfold processSpells.
  destruct (eqs (trim span) []) eqn:He.
  - apply eqs_eq in He. exists st. by repeat (split; [done|]).
  - apply eqs_neq in He. cbv zeta. unfold bind at 1, modify at 1.
    set (st1 := withText (replaceFirst (trim (firstSentence span)) [LF] (text st)) st).
    set (pieces := splitSpells [] (squeezeBreaks (firstSentence span))).
    assert (Hne : pieces <> []) by apply splitSpells_not_nil.
    assert (Hlen : length pieces
                   = S (countSeparators [] (squeezeBreaks (firstSentence span))))
      by apply splitSpells_length.
    destruct Harr as [Hnone|[l Hl]].
    + rewrite (pushSpells_fresh pieces st1 Hnone Hne). eexists. split; [reflexivity|].
      split; [done|]. split; [|split; [|done]].
      * intros _. unfold items. cbn [parsed withParsed st1 withText].
        rewrite lookup_insert_eq, Hnone. cbn [app].
        split; [done|]. split; [|done]. by rewrite length_map, Hlen.
      * intros key Hk. cbn [parsed withParsed st1 withText].
        by rewrite lookup_insert_ne.
    + rewrite (pushSpells_array pieces st1 l Hl). eexists. split; [reflexivity|].
      split; [done|]. split; [|split; [|done]].
      * intros _. unfold items. cbn [parsed withParsed st1 withText].
        rewrite lookup_insert_eq, Hl.
        split; [done|]. split; [|done]. by rewrite length_app, length_map, Hlen.
      * intros key Hk. cbn [parsed withParsed st1 withText].
        by rewrite lookup_insert_ne.
Qed.

Lemma processSpells_appends_witness :
  exists st',
    processSpells [DOT; LF; 97] afterAttributes = Ok tt st'
    /\ items "spells" st' = [ISpell []].
Proof.
  destruct (processSpells_appends [DOT; LF; 97] afterAttributes) as
    (st' & Hrun & _ & Hadd & _); [by left|].
  exists st'. split; [exact Hrun|].
  destruct Hadd as (Hi & _); [by vm_compute|]. exact Hi.
Defined.

(** ** [processSkills] *)

Lemma text_removed (o : CheckOpts) (m : Match) (st : Importer) :
  (length (text (removed o m st)) <= length (text st))%nat.
Proof.
  unfold removed. destruct (removeFromText o); [|done].
  cbn [text withText]. apply removal_shrinks.
Qed.

(** One turn of the loop of [processSkills]. *)
Lemma skillStep_cases (h : Host) (key : string) (t : jsstring) (st : Importer) :
  SkillsReady h key st ->
  skillStep h key t st = Ok (trim t, false) st
  \/ exists m name,
       matches h "skill" (trim t) m
       /\ group "name" (groupsOf m) = Some name
       /\ skillStep h key t st
          = Ok (replaceFirst (m_source m) [LF] (trim t), true)
               (withParsed
                  (<[key := VArr (items key st
                                  ++ [ISkill (cleanString name)
                                        (NumberOf h (group "percentage" (groupsOf m)))
                                        None])]> (parsed st))
                  (removed (onText (trim t) None) m st)).
Proof.
  intros [Hc Hn Ha].
  destruct (check_quiet h "skill" (onText (trim t) None) st Hc eq_refl)
    as [Hnone|(m & Hm & Hsome)].
  - left. unfold skillStep. by rewrite (bind_ok _ _ _ _ _ Hnone).
  - right. destruct (Hn _ _ Hm) as [name Hname]. exists m, name.
    split; [exact Hm|]. split; [exact Hname|].
    unfold skillStep. rewrite (bind_ok _ _ _ _ _ Hsome).
    cbn [o_groups o_source outputOf]. rewrite Hname.
    rewrite (init_push key _ (cleanString name)
               (fun n => ISkill n (NumberOf h (group "percentage" (groupsOf m))) None)).
    + unfold ret. unfold items. by rewrite !parsed_removed.
    + unfold arrayOrAbsent. by rewrite parsed_removed.
    + done.
Qed.

Lemma skillLoop_spec (h : Host) (key : string) (n : nat) :
  forall t st,
    SkillsReady h key st ->
    exists maxLoops found st' added,
      skillLoop h key n t st = Ok (maxLoops, found) st'
      /\ SkillsReady h key st'
      /\ items key st' = items key st ++ added
      /\ Forall isSkillEntry added
      /\ (forall k, k <> key -> parsed st' !! k = parsed st !! k)
      /\ notifications st' = notifications st
      /\ (length (text st') <= length (text st))%nat
      /\ (maxLoops <= n)%nat
      /\ length added = ((n - maxLoops) + (if found then 1 else 0))%nat
      /\ ((0 < maxLoops)%nat -> found = false).
Proof.
  induction n as [|n IH]; intros t st Hr.
  - destruct (skillStep_cases h key t st Hr) as [Hs|(m & name & Hm & Hname & Hs)].
    + exists O, false, st, []. cbn [skillLoop].
      rewrite (bind_ok _ _ _ _ _ Hs). cbn [snd ret]. rewrite app_nil_r.
      repeat (split; [done|]). by intros ?.
    + eexists O, true, _, [_]. cbn [skillLoop].
      rewrite (bind_ok _ _ _ _ _ Hs). cbn [snd ret].
      split; [reflexivity|]. destruct Hr as [Hc Hn Ha].
      split; [|split; [|split; [|split; [|split; [|split; [|split; [|split]]]]]]].
      * split; [done|done|]. right. eexists. cbn [parsed withParsed].
        by rewrite lookup_insert_eq.
      * by rewrite items_pushed.
      * repeat constructor. by eexists _, _.
      * intros k Hk. cbn [parsed withParsed]. by rewrite lookup_insert_ne.
      * cbn [notifications withParsed]. by rewrite notifications_removed.
      * cbn [text withParsed]. apply text_removed.
      * done.
      * done.
      * intros ?. lia.
  - destruct (skillStep_cases h key t st Hr) as [Hs|(m & name & Hm & Hname & Hs)].
    + exists (S n), false, st, []. cbn [skillLoop].
      rewrite (bind_ok _ _ _ _ _ Hs). cbn [snd ret]. rewrite app_nil_r.
      repeat (split; [done|]). split; [cbn [length]; lia|done].
    + set (st1 := withParsed _ (removed (onText (trim t) None) m st)) in Hs.
      assert (Hr1 : SkillsReady h key st1).
      { destruct Hr as [Hc Hn Ha]. split; [done|done|]. right. eexists.
        unfold st1. cbn [parsed withParsed]. by rewrite lookup_insert_eq. }
      destruct (IH (replaceFirst (m_source m) [LF] (trim t)) st1 Hr1)
        as (maxLoops & found & st' & added & Hl & Hr' & Hi & Hf & Hk & Hno & Ht & Hle
            & Hlen & Hpos).
      eexists maxLoops, found, st', (_ :: added). cbn [skillLoop].
      rewrite (bind_ok _ _ _ _ _ Hs). cbn [snd fst].
      split; [exact Hl|]. split; [exact Hr'|].
      split; [|split; [|split; [|split; [|split; [|split; [|split]]]]]].
      * rewrite Hi. unfold st1. rewrite items_pushed. by rewrite <- app_assoc.
      * constructor; [by eexists _, _|done].
      * intros k Hne. rewrite (Hk k Hne). unfold st1. cbn [parsed withParsed].
        by rewrite lookup_insert_ne.
      * rewrite Hno. unfold st1. cbn [notifications withParsed].
        by rewrite notifications_removed.
      * etrans; [exact Ht|]. unfold st1. cbn [text withParsed]. apply text_removed.
      * lia.
      * cbn [length]. rewrite Hlen. lia.
      * exact Hpos.
Qed.

(** X18. [processSkills] returns after at most 40 turns of its loop.  It
    appends at most 40 entries, each a name and a value without a [push]
    flag, to the array under its key; it leaves every other key of the
    parsed record alone and never lengthens the buffer.  It raises its
    warning exactly when 39 entries or more were appended: a list of 39
    skills is read in full and still reported as unexpected.  A blank span
    changes nothing. *)
Theorem processSkills_bounded (h : Host) (span : jsstring) (key : string)
    (st : Importer) :
  SkillsReady h key st ->
  exists st' added,
    processSkills h span key st = Ok tt st'
    /\ items key st' = items key st ++ added
    /\ (length added <= 40)%nat
    /\ Forall isSkillEntry added
    /\ (forall k, k <> key -> parsed st' !! k = parsed st !! k)
    /\ notifications st'
       = notifications st
         ++ (if Nat.leb 39 (length added) then [unexpectedSkills] else [])
    /\ (length (text st') <= length (text st))%nat
    /\ (trim span = [] -> st' = st).
Proof.
  intros Hr. unfold processSkills.
  destruct (eqs (trim span) []) eqn:He.
  - exists st, []. rewrite !app_nil_r. cbn [length Nat.leb].
    repeat (split; [done || (cbn; lia)|]). done.
  - apply eqs_neq in He.
    destruct (skillLoop_spec h key 39 (firstSentence span) st Hr)
      as (maxLoops & found & st' & added & Hl & _ & Hi & Hf & Hk & Hno & Ht & Hle
          & Hlen & Hpos).
    rewrite (bind_ok _ _ _ _ _ Hl). cbn [fst].
    destruct maxLoops as [|maxLoops].
    + exists (warn unexpectedSkills st'), added. cbn [Nat.eqb modify].
      split; [done|]. split; [exact Hi|].
      split; [destruct found; lia|]. split; [done|]. split; [exact Hk|].
      split; [|split; [exact Ht|done]].
      cbn [notifications warn]. rewrite Hno.
      replace (Nat.leb 39 (length added)) with true; [done|].
      symmetry. apply Nat.leb_le. lia.
    + exists st', added. cbn [Nat.eqb ret].
      rewrite (Hpos ltac:(lia)) in Hlen.
      split; [done|]. split; [exact Hi|]. split; [lia|]. split; [done|].
      split; [exact Hk|]. split; [|split; [exact Ht|done]].
      replace (Nat.leb 39 (length added)) with false; [by rewrite app_nil_r|].
      symmetry. apply Nat.leb_gt. lia.
Qed.

Lemma skills_sample_ready : SkillsReady skillsHost "skills" afterAttributes.
Proof.
  split.
  - intros p Hp. unfold lookupPattern in Hp. cbn [regEx skillsHost] in Hp.
    change (String.eqb "skill" "skill") with true in Hp. cbv iota in Hp.
    assert (p = PatRe (Sample.compile skillRx)) as -> by congruence.
    by eexists.
  - intros t m (re & (p & Hp & Hre) & Hm).
    assert (p = PatRe (Sample.compile skillRx)) as ->.
    { unfold lookupPattern in Hp. cbn [regEx skillsHost] in Hp.
      change (String.eqb "skill" "skill") with true in Hp. cbv iota in Hp.
      by injection Hp. }
    cbn [getRegEx] in Hre. injection Hre as <-.
    cbn [re_exec Sample.compile] in Hm.
    apply exec_spec in Hm as (b & e & c & _ & _ & Hg & _ & _ & Hk & Hf).
    unfold groupsOf. rewrite Hg. destruct c as [|kv c]; [done|].
    apply Hf; [reflexivity|]. decided.
  - by left.
Qed.

Lemma processSkills_bounded_witness :
  exists st',
    processSkills skillsHost (concat (repeat (js "Spot Hidden 50%, ") 39)) "skills"
      afterAttributes = Ok tt st'
    /\ length (items "skills" st') = 39%nat
    /\ notifications st' = [unexpectedSkills].
Proof.
  destruct (processSkills_bounded skillsHost
              (concat (repeat (js "Spot Hidden 50%, ") 39)) "skills" afterAttributes
              skills_sample_ready)
    as (st' & added & Hrun & Hi & _ & _ & _ & Hno & _).
  exists st'. split; [exact Hrun|].
  assert (Hlen : length (items "skills" st') = 39%nat).
  { apply (f_equal (fun r => match r with
                             | Ok _ s => length (items "skills" s)
                             | _ => O
                             end)) in Hrun.
    vm_compute in Hrun. exact (eq_sym Hrun). }
  split; [exact Hlen|].
  rewrite Hno. rewrite Hi in Hlen. cbn [items afterAttributes app] in Hlen.
  change (items "skills" afterAttributes) with (@nil Item) in Hlen.
  cbn [app] in Hlen. rewrite Hlen. reflexivity.
Defined.

(** ** [processCombat]: what a span adds *)

Lemma items_other (key k : string) (l : list Item) (p : gmap string JsVal)
    (st st0 : Importer) :
  k <> key -> parsed st0 = p -> items key (withParsed (<[k := VArr l]> p) st)
                                = items key st0.
Proof.
  intros Hne <-. unfold items. cbn [parsed withParsed]. by rewrite lookup_insert_ne.
Qed.

(** What one turn of the outer loop adds. *)
Lemma combatStep_grows (h : Host) (v : CombatVars) (st : Importer) :
  CombatReady h st ->
  exists v' st' newSkills newAttacks,
    combatStep h v st = Ok v' st'
    /\ CombatReady h st'
    /\ items "skills" st' = items "skills" st ++ newSkills
    /\ items "attacks" st' = items "attacks" st ++ newAttacks
    /\ (length newSkills + length newAttacks <= 1)%nat
    /\ Forall isDodgeEntry newSkills
    /\ Forall isWeaponEntry newAttacks
    /\ (c_lastPercent v = lpFalse -> Forall hasOwnPercent newAttacks)
    /\ (newAttacks = [] -> c_lastPercent v' = c_lastPercent v)
    /\ (forall k, k <> "skills"%string -> k <> "attacks"%string ->
                  parsed st' !! k = parsed st !! k)
    /\ notifications st' = notifications st
    /\ (length (text st') <= length (text st))%nat.
Proof.
  intros Hr.
  assert (Hidle : forall v', combatStep h v st = Ok v' st ->
            c_lastPercent v' = c_lastPercent v ->
            exists v' st' newSkills newAttacks,
              combatStep h v st = Ok v' st'
              /\ CombatReady h st'
              /\ items "skills" st' = items "skills" st ++ newSkills
              /\ items "attacks" st' = items "attacks" st ++ newAttacks
              /\ (length newSkills + length newAttacks <= 1)%nat
              /\ Forall isDodgeEntry newSkills
              /\ Forall isWeaponEntry newAttacks
              /\ (c_lastPercent v = lpFalse -> Forall hasOwnPercent newAttacks)
              /\ (newAttacks = [] -> c_lastPercent v' = c_lastPercent v)
              /\ (forall k, k <> "skills"%string -> k <> "attacks"%string ->
                            parsed st' !! k = parsed st !! k)
              /\ notifications st' = notifications st
              /\ (length (text st') <= length (text st))%nat).
  { intros v' Hs Hp. exists v', st, [], []. rewrite !app_nil_r.
    repeat (split; [done || (cbn [length]; lia)|]). done. }
  destruct (check_cases h "weaponDodge" (trim (c_text v))
              ltac:(destruct Hr; combat_key)) as [Hu | [m Hm]].
  - destruct (check_cases h "weapon" (trim (c_text v))
                ltac:(destruct Hr; combat_key)) as [Hw | [m Hm]].
    + eapply Hidle; [by apply combatStep_idle; auto|done].
    + destruct (requiredOk (onText (trim (c_text v))
                              (weaponRequired (c_lastPercent v))) m) eqn:Hreq.
      * destruct (combatStep_weapon h v st m Hr Hu Hm Hreq) as (d & r & a1 & a2 & Hs).
        eexists _, _, [], [_]. split; [exact Hs|].
        split; [|split; [|split; [|split; [|split; [|split; [|split; [|split;
          [|split; [|split]]]]]]]]].
        -- apply (CombatReady_pushed h "attacks" _
                    (removed (onText (trim (c_text v))
                                (weaponRequired (c_lastPercent v))) m st));
             [by apply CombatReady_removed | by right].
        -- rewrite app_nil_r. by apply items_other.
        -- by rewrite items_pushed.
        -- cbn [length]. lia.
        -- constructor.
        -- repeat constructor. eexists. split; [done|]. cbn [w_skill_id weaponData].
           unfold percentOf. by destruct (group "percentage" (groupsOf m)).
        -- intros Hlp. repeat constructor.
           unfold requiredOk, weaponRequired in Hreq. rewrite Hlp in Hreq.
           cbn [requiredGroup onText] in Hreq.
           destruct (group "percentage" (groupsOf m)) as [p|] eqn:Hp; [|done].
           eexists _, (ToNumber h p). split; [done|]. cbn [w_skill_id weaponData].
           unfold percentOf. by rewrite Hp.
        -- done.
        -- intros k Hk1 Hk2. cbn [parsed withParsed].
           by rewrite lookup_insert_ne.
        -- cbn [notifications withParsed]. by rewrite notifications_removed.
        -- cbn [text withParsed]. apply text_removed.
      * eapply Hidle; [by apply combatStep_idle; eauto|done].
  - destruct (combatStep_dodge h v st m Hr Hm) as (name & _ & Hs).
    eexists _, _, [_], []. split; [exact Hs|].
    split; [|split; [|split; [|split; [|split; [|split; [|split; [|split;
      [|split; [|split]]]]]]]]].
    + apply (CombatReady_pushed h "skills" _
               (removed (onText (trim (c_text v)) None) m st));
        [by apply CombatReady_removed | by left].
    + by rewrite items_pushed.
    + rewrite app_nil_r. by apply items_other.
    + cbn [length]. lia.
    + repeat constructor. by eexists _, _.
    + constructor.
    + intros _. constructor.
    + done.
    + intros k Hk1 Hk2. cbn [parsed withParsed]. by rewrite lookup_insert_ne.
    + cbn [notifications withParsed]. by rewrite notifications_removed.
    + cbn [text withParsed]. apply text_removed.
Qed.

Lemma combatLoop_grows (h : Host) (n : nat) :
  forall v st,
    CombatReady h st ->
    exists maxLoops v' st' newSkills newAttacks,
      combatLoop h n v st = Ok (maxLoops, v') st'
      /\ items "skills" st' = items "skills" st ++ newSkills
      /\ items "attacks" st' = items "attacks" st ++ newAttacks
      /\ (length newSkills + length newAttacks + maxLoops <= S n)%nat
      /\ Forall isDodgeEntry newSkills
      /\ Forall isWeaponEntry newAttacks
      /\ (c_lastPercent v = lpFalse ->
          match newAttacks with first :: _ => hasOwnPercent first | [] => True end)
      /\ (forall k, k <> "skills"%string -> k <> "attacks"%string ->
                    parsed st' !! k = parsed st !! k)
      /\ notifications st' = notifications st
      /\ (length (text st') <= length (text st))%nat.
Proof.
  induction n as [|n IH]; intros v st Hr;
    destruct (combatStep_grows h v st Hr)
      as (v1 & st1 & s1 & a1 & Hstep & Hr1 & Hs1 & Ha1 & Hlen1 & Hd1 & Hw1 & Hown1
          & Hkeep1 & Hk1 & Hn1 & Ht1).
  - exists O, v1, st1, s1, a1. cbn [combatLoop].
    rewrite (bind_ok _ _ _ _ _ Hstep).
    repeat (split; [done || lia|]).
    split; [|done]. intros Hlp. specialize (Hown1 Hlp).
    destruct a1; [done|]. by inversion Hown1.
  - cbn [combatLoop]. rewrite (bind_ok _ _ _ _ _ Hstep).
    destruct (goesOn v1) eqn:Hg.
    + destruct (IH v1 st1 Hr1)
        as (m & v' & st' & s2 & a2 & Hloop & Hs2 & Ha2 & Hlen2 & Hd2 & Hw2 & Hown2
            & Hk2 & Hn2 & Ht2).
      exists m, v', st', (s1 ++ s2), (a1 ++ a2).
      split; [exact Hloop|].
      split; [by rewrite Hs2, Hs1, app_assoc|].
      split; [by rewrite Ha2, Ha1, app_assoc|].
      split; [rewrite !length_app; lia|].
      split; [by apply Forall_app|]. split; [by apply Forall_app|].
      split; [|split; [|split; [congruence|lia]]].
      * intros Hlp. specialize (Hown1 Hlp). destruct a1 as [|w a1].
        -- cbn [app]. apply Hown2. by rewrite Hkeep1.
        -- cbn [app]. by inversion Hown1.
      * intros k Hka Hkb. by rewrite Hk2, Hk1.
    + exists (S n), v1, st1, s1, a1.
      repeat (split; [done || lia|]).
      split; [|done]. intros Hlp. specialize (Hown1 Hlp).
      destruct a1; [done|]. by inversion Hown1.
Qed.

Lemma processCombat_grows (h : Host) (span : jsstring) (st : Importer) :
  CombatReady h st ->
  exists st' newSkills newAttacks,
    processCombat h span st = Ok tt st'
    /\ items "skills" st' = items "skills" st ++ newSkills
    /\ items "attacks" st' = items "attacks" st ++ newAttacks
    /\ (length newSkills + length newAttacks <= 40)%nat
    /\ Forall isDodgeEntry newSkills
    /\ Forall isWeaponEntry newAttacks
    /\ match newAttacks with first :: _ => hasOwnPercent first | [] => True end
    /\ (forall k, k <> "skills"%string -> k <> "attacks"%string ->
                  parsed st' !! k = parsed st !! k)
    /\ (notifications st' = notifications st
        \/ notifications st' = notifications st ++ [unexpectedWeapons])
    /\ (length (text st') <= length (text st))%nat.
Proof.
  intros Hr. unfold processCombat. destruct (eqs (trim span) []).
  - exists st, [], []. rewrite !app_nil_r.
    repeat (split; [done || (cbn [length]; lia) || by left|]). done.
  - destruct (combatLoop_grows h 39 (combatStart span) st Hr)
      as (m & v' & st' & s & a & Hloop & Hs & Ha & Hlen & Hd & Hw & Hown & Hk & Hn & Ht).
    rewrite (bind_ok _ _ _ _ _ Hloop).
    destruct (Nat.eqb m 0).
    + exists (warn unexpectedWeapons st'), s, a.
      split; [done|]. split; [exact Hs|]. split; [exact Ha|].
      split; [lia|]. split; [done|]. split; [done|]. split; [by apply Hown|].
      split; [exact Hk|]. split; [|exact Ht].
      right. cbn [notifications warn]. by rewrite Hn.
    + exists st', s, a.
      split; [done|]. split; [exact Hs|]. split; [exact Ha|].
      split; [lia|]. split; [done|]. split; [done|]. split; [by apply Hown|].
      split; [exact Hk|]. split; [by left|exact Ht].
Qed.

(** X19. On an importer that is ready, [processCombat] returns; it only
    appends to the skills and the attacks of the parsed record, 40 entries
    at most for one span, and every skill it appends is a dodge entry that
    cannot be pushed; every other key is left alone, the buffer does not
    grow, and the only notification it can add is its warning. *)
Theorem processCombat_appends (h : Host) (span : jsstring) (st : Importer) :
  CombatReady h st ->
  exists st' newSkills newAttacks,
    processCombat h span st = Ok tt st'
    /\ items "skills" st' = items "skills" st ++ newSkills
    /\ items "attacks" st' = items "attacks" st ++ newAttacks
    /\ (length newSkills + length newAttacks <= 40)%nat
    /\ Forall isDodgeEntry newSkills
    /\ (forall k, k <> "skills"%string -> k <> "attacks"%string ->
                  parsed st' !! k = parsed st !! k)
    /\ (notifications st' = notifications st
        \/ notifications st' = notifications st ++ [unexpectedWeapons])
    /\ (length (text st') <= length (text st))%nat.
Proof.
  intros Hr.
  destruct (processCombat_grows h span st Hr)
    as (st' & s & a & Hrun & Hs & Ha & Hlen & Hd & _ & _ & Hk & Hn & Ht).
  by exists st', s, a.
Qed.

Lemma processCombat_appends_witness :
  exists st' newSkills newAttacks,
    processCombat Sample.host (js "Dodge 30%, Knife 40%, damage 1D4") afterAttributes
      = Ok tt st'
    /\ items "skills" st' = newSkills
    /\ items "attacks" st' = newAttacks
    /\ (length newSkills + length newAttacks <= 40)%nat.
Proof.
  destruct (processCombat_appends Sample.host (js "Dodge 30%, Knife 40%, damage 1D4")
              afterAttributes sample_ready)
    as (st' & s & a & Hrun & Hs & Ha & Hlen & _).
  exists st', s, a. split; [exact Hrun|]. split; [exact Hs|]. split; [exact Ha|].
  exact Hlen.
Defined.

(** X20. The weapons [processCombat] appends for one span: none of them
    records [false] as its skill, each has a percentage of its own or the
    mark [true] that links it to the weapon before it, and the first of
    them always has a percentage of its own, so that a link never points
    outside the span. *)
Theorem processCombat_links (h : Host) (span : jsstring) (st : Importer) :
  CombatReady h st ->
  exists st' newAttacks,
    processCombat h span st = Ok tt st'
    /\ items "attacks" st' = items "attacks" st ++ newAttacks
    /\ Forall isWeaponEntry newAttacks
    /\ match newAttacks with first :: _ => hasOwnPercent first | [] => True end.
Proof.
  intros Hr.
  destruct (processCombat_grows h span st Hr)
    as (st' & s & a & Hrun & Hs & Ha & Hlen & Hd & Hw & Hown & _).
  by exists st', a.
Qed.

Lemma processCombat_links_witness :
  exists st' first second,
    processCombat Sample.host (js "Rifle 45%, Pistol") afterAttributes = Ok tt st'
    /\ items "attacks" st' = [first; second]
    /\ hasOwnPercent first.
Proof.
  destruct (processCombat_links Sample.host (js "Rifle 45%, Pistol") afterAttributes
              sample_ready)
    as (st' & a & Hrun & Ha & _ & Hown).
  assert (Hlen : length (items "attacks" st') = 2%nat).
  { apply (f_equal (fun r => match r with
                             | Ok _ s => length (items "attacks" s)
                             | _ => O
                             end)) in Hrun.
    vm_compute in Hrun. exact (eq_sym Hrun). }
  change (items "attacks" afterAttributes) with (@nil Item) in Ha. cbn [app] in Ha.
  rewrite Ha in Hlen.
  destruct a as [|first [|second [|third a]]]; cbn [length] in Hlen;
    [discriminate Hlen|discriminate Hlen| |discriminate Hlen].
  exists st', first, second. split; [exact Hrun|]. split; [exact Ha|]. exact Hown.
Defined.

(** ** The field stages of [parseCharacter] *)

Lemma Follows_refl (st : Importer) : Shaped st -> Follows st st.
Proof. by split. Qed.

Lemma Follows_trans (a b c : Importer) : Follows a b -> Follows b c -> Follows a c.
Proof.
  intros [_ Hab Hqa Hba] [Hc Hbc Hqb Hcb]. split; [done| |congruence|lia].
  intros key Hk Ht. by apply Hbc, Hab.
Qed.

Lemma number_not_text (key : string) : key ∈ numberKeys -> key ∉ textKeys.
Proof. revert key. apply Forall_forall. decided. Qed.

Lemma Follows_text (t : jsstring) (st : Importer) :
  Shaped st -> (length t <= length (text st))%nat -> Follows st (withText t st).
Proof. intros [Hn Ht] Hlen. by split. Qed.

Lemma Follows_removed (o : CheckOpts) (m : Match) (st : Importer) :
  Shaped st -> Follows st (removed o m st).
Proof.
  intros Hs. unfold removed. destruct (removeFromText o); [|by apply Follows_refl].
  apply Follows_text; [done|apply removal_shrinks].
Qed.

Lemma Follows_set (key : string) (s : jsstring) (st : Importer) :
  key ∈ textKeys -> Shaped st ->
  Follows st (withParsed (<[key := VStr s]> (parsed st)) st).
Proof.
  intros Hk [Hn Ht]. split; [split| |done|done].
  - intros k Hin. unfold numberOrAbsent. cbn [parsed withParsed].
    rewrite lookup_insert_ne; [by apply Hn|].
    intros ->. by apply (number_not_text k).
  - intros k Hin. unfold textOrAbsent. cbn [parsed withParsed].
    destruct (decide (key = k)) as [->|Hne].
    + right. exists s. by rewrite lookup_insert_eq.
    + rewrite lookup_insert_ne by done. by apply Ht.
  - intros k Hin. unfold isText. cbn [parsed withParsed].
    destruct (decide (key = k)) as [->|Hne].
    + intros _. exists s. by rewrite lookup_insert_eq.
    + by rewrite lookup_insert_ne.
Qed.

Lemma Follows_number (key : string) (z : Z) (st : Importer) :
  key ∈ numberKeys -> Shaped st ->
  Follows st (withParsed (<[key := VNum (Int z)]> (parsed st)) st).
Proof.
  intros Hk [Hn Ht]. split; [split| |done|done].
  - intros k Hin. unfold numberOrAbsent. cbn [parsed withParsed].
    destruct (decide (key = k)) as [->|Hne].
    + right. exists z. by rewrite lookup_insert_eq.
    + rewrite lookup_insert_ne by done. by apply Hn.
  - intros k Hin. unfold textOrAbsent. cbn [parsed withParsed].
    rewrite lookup_insert_ne; [by apply Ht|].
    intros ->. by apply (number_not_text k).
  - intros k Hin. unfold isText. cbn [parsed withParsed].
    rewrite lookup_insert_ne; [done|]. intros ->. by apply (number_not_text k).
Qed.

Lemma isText_set (key : string) (s : jsstring) (p : gmap string JsVal)
    (st : Importer) :
  isText key (withParsed (<[key := VStr s]> p) st).
Proof. exists s. cbn [parsed withParsed]. by rewrite lookup_insert_eq. Qed.

(** A call of [check] for a field pattern, with [saveKeys] on. *)
Lemma check_follows (h : Host) (key : string) (o : CheckOpts) (st : Importer) :
  compiles h key -> ownGroup h key -> saveKeys o = true -> Shaped st ->
  (type o = asNumber /\ key ∈ numberKeys) \/ (type o = asString /\ key ∈ textKeys) ->
  exists r st',
    check h key o st = Ok r st'
    /\ Follows st st'
    /\ (type o = asString -> r <> None -> isText key st').
Proof.
  intros Hc Hown Hsave Hs Hty.
  destruct (check_cases h key (subject o st) Hc) as [Hu|[m Hm]].
  - exists None, st. split; [by apply check_unmatched|]. split; [by apply Follows_refl|done].
  - rewrite (check_matched h key o st m Hm), Hsave.
    destruct (Hown _ _ Hm) as [v Hv]. rewrite Hv.
    destruct (requiredOk o m).
    2:{ exists None, st. split; [done|]. split; [by apply Follows_refl|done]. }
    eexists _, _. split; [reflexivity|].
    pose proof (Follows_removed o m st Hs) as Hrem.
    unfold saveGroups. cbn [fold_left]. unfold saveKey. cbn [fst snd].
    destruct Hty as [[-> Hk]|[-> Hk]].
    + split; [|done]. destruct (NumberOf h v) as [|z] eqn:Hnum; cbn [isNaN].
      * replace (withParsed (parsed (removed o m st)) (removed o m st))
          with (removed o m st); [done|]. by destruct (removed o m st).
      * eapply Follows_trans; [exact Hrem|].
        apply Follows_number; [done|apply Hrem].
    + split.
      * eapply Follows_trans; [exact Hrem|]. apply Follows_set; [done|apply Hrem].
      * intros _ _. apply isText_set.
Qed.

Lemma ready_compiles (h : Host) (key : string) :
  FieldsReady h ->
  key ∈ characteristicKeys ++ headerKeys ++ attributeKeys ++ sentinelKeys ->
  compiles h key.
Proof. intros [Hc _ _] Hin. by apply (proj1 (Forall_forall _ _) Hc). Qed.

Lemma ready_ownGroup (h : Host) (key : string) :
  FieldsReady h ->
  key ∈ characteristicKeys ++ headerKeys ++ attributeKeys ->
  ownGroup h key.
Proof. intros [_ Hg _] Hin. by apply (proj1 (Forall_forall _ _) Hg). Qed.

Lemma scan_follows (h : Host) (ks : list string) :
  FieldsReady h -> ks ⊆ characteristicKeys ->
  forall min st,
    Shaped st ->
    exists min' st',
      scanCharacteristics h ks min st = Ok min' st'
      /\ Follows st st' /\ (min' <= min)%nat.
Proof.
  intros Hr. induction ks as [|k ks IH]; intros Hsub min st Hs.
  - exists min, st. split; [done|]. split; [by apply Follows_refl|done].
  - assert (Hk : k ∈ characteristicKeys) by (apply Hsub; by left).
    destruct (check_follows h k numeric st) as (r & st1 & Hc & Hf & _).
    { apply ready_compiles; [done|]. apply elem_of_app. by left. }
    { apply ready_ownGroup; [done|]. apply elem_of_app. by left. }
    { done. }
    { done. }
    { left. split; [done|]. apply elem_of_app. by left. }
    destruct (IH ltac:(intros x Hx; apply Hsub; by right)
                 (match r with Some o => Nat.min min (o_index o) | None => min end)
                 st1 (follows_shape _ _ Hf)) as (min' & st' & Hscan & Hf' & Hle).
    exists min', st'. cbn [scanCharacteristics].
    rewrite (bind_ok _ _ _ _ _ Hc). split; [exact Hscan|].
    split; [by eapply Follows_trans|]. destruct r; lia.
Qed.

Lemma trim_nil_blank (s : jsstring) : trim s = [] -> forallb isWhiteSpace s = true.
Proof.
  intros H. rewrite <- (forallb_trim isWhiteSpace s); [by rewrite H|done].
Qed.

Lemma indexOf_dot (s : jsstring) (i : nat) :
  indexOf [DOT] s = Some i -> DOT ∈ take (i + 1) s.
Proof.
  revert i. induction s as [|c s IH]; intros i; [done|].
  cbn [indexOf isPrefix]. destruct (DOT =? c) eqn:Hc; cbn [andb].
  - intros [= <-]. apply N.eqb_eq in Hc. subst c. by left.
  - destruct (indexOf [DOT] s) as [j|] eqn:Hj; [|done].
    intros [= <-]. cbn [Nat.add take]. right. by apply IH.
Qed.

Lemma firstStop_not_blank (header : jsstring) :
  trim header <> [] -> trim (firstStop header) <> [].
Proof.
  unfold firstStop, substr0. destruct (indexOf [DOT] header) as [i|] eqn:Hi; [|done].
  intros _ Hblank. apply trim_nil_blank in Hblank.
  apply indexOf_dot in Hi. rewrite forallb_forall in Hblank.
  apply list_elem_of_In in Hi. by apply Hblank in Hi.
Qed.

Lemma header_follows (h : Host) (min : nat) (st : Importer) :
  FieldsReady h -> Shaped st ->
  exists st', parseHeader h min st = Ok tt st' /\ Follows st st' /\ isText "name" st'.
Proof.
  intros Hr Hs. unfold parseHeader. destruct (Nat.ltb 0 min).
  2:{ eexists. split; [reflexivity|]. split; [|apply isText_set].
      apply Follows_set; [decided|done]. }
  unfold bind at 1, get at 1.
  set (header := substr0 min (text st)).
  assert (Hkey : forall key, key ∈ headerKeys ->
            compiles h key /\ ownGroup h key /\ key ∈ textKeys).
  { intros key Hin. split; [|split].
    - apply ready_compiles; [done|]. apply elem_of_app. right.
      apply elem_of_app. by left.
    - apply ready_ownGroup; [done|]. apply elem_of_app. right.
      apply elem_of_app. by left.
    - apply elem_of_app. by left. }
  destruct (Hkey "name"%string ltac:(decided)) as (Hc1 & Ho1 & Hk1).
  destruct (Hkey "age"%string ltac:(decided)) as (Hc2 & Ho2 & Hk2).
  destruct (Hkey "occupation"%string ltac:(decided)) as (Hc3 & Ho3 & Hk3).
  destruct (check_follows h "name" (inText header) st Hc1 Ho1 eq_refl Hs
              (or_intror (conj eq_refl Hk1))) as (r1 & st1 & E1 & F1 & T1).
  rewrite (bind_ok _ _ _ _ _ E1).
  assert (Hname : exists header2 st2,
            (match r1 with
             | None => let* _ := setParsed "name" (unnamed h) in ret header
             | Some o => ret (replaceFirst (o_source o) [LF] header)
             end) st1 = Ok header2 st2
            /\ Follows st st2 /\ isText "name" st2).
  { destruct r1 as [o|].
    - eexists _, st1. split; [reflexivity|]. split; [done|]. by apply T1.
    - eexists _, _. split; [reflexivity|]. split; [|apply isText_set].
      eapply Follows_trans; [exact F1|].
      apply Follows_set; [done|apply F1]. }
  destruct Hname as (header2 & st2 & E2 & F2 & T2).
  rewrite (bind_ok _ _ _ _ _ E2).
  destruct (check_follows h "age" (inText header2) st2 Hc2 Ho2 eq_refl
              (follows_shape _ _ F2) (or_intror (conj eq_refl Hk2)))
    as (r3 & st3 & E3 & F3 & _).
  rewrite (bind_ok _ _ _ _ _ E3).
  set (header3 := match r3 with
                  | Some o => replaceFirst (o_source o) [LF] header2
                  | None => header2
                  end).
  destruct (check_follows h "occupation" (inText header3) st3 Hc3 Ho3 eq_refl
              (follows_shape _ _ F3) (or_intror (conj eq_refl Hk3)))
    as (r4 & st4 & E4 & F4 & _).
  rewrite (bind_ok _ _ _ _ _ E4).
  assert (F : Follows st st4)
    by (eapply Follows_trans; [exact F2|]; by eapply Follows_trans).
  assert (T : isText "name" st4).
  { apply (follows_texts _ _ F4); [done|]. by apply (follows_texts _ _ F3). }
  destruct r4 as [o|]; [by exists st4|].
  destruct (eqs (trim header3) []) eqn:Hb; cbn [negb]; [by exists st4|].
  apply eqs_neq in Hb.
  set (st5 := withParsed
                (<["occupation" :=
                     VStr (dropLastComma (trim (squeezeBreaks (firstStop header3))))]>
                   (parsed st4)) st4).
  exists (withText (replaceFirst (trim (firstStop header3)) [LF] (text st5)) st5).
  split; [reflexivity|].
  assert (F5 : Follows st4 st5) by (apply Follows_set; [done|apply F4]).
  split.
  - eapply Follows_trans; [exact F|]. eapply Follows_trans; [exact F5|].
    apply Follows_text; [apply F5|].
    apply replaceFirst_length. cbn [length].
    pose proof (firstStop_not_blank header3 Hb) as Hne.
    destruct (trim (firstStop header3)); [done|cbn [length]; lia].
  - destruct T as [s Hsn]. exists s. cbn [parsed withText st5 withParsed].
    by rewrite lookup_insert_ne.
Qed.

Lemma split_follows (st : Importer) :
  Shaped st ->
  exists st', splitOccupationAge st = Ok tt st' /\ Follows st st'.
Proof.
  intros Hs. unfold splitOccupationAge.
  destruct (parsed st !! "occupation") as [occ|] eqn:Ho;
    [|exists st; split; [done|by apply Follows_refl]].
  destruct (parsed st !! "age") eqn:Ha;
    [exists st; split; [done|by apply Follows_refl]|].
  destruct (shaped_texts st Hs "occupation" ltac:(decided)) as [E|[s E]];
    [congruence|].
  rewrite Ho in E. injection E as ->.
  destruct (occupationAge s) as [[age occupation]|];
    [|exists st; split; [done|by apply Follows_refl]].
  eexists. split; [reflexivity|].
  eapply Follows_trans; [apply (Follows_set "age" age st); [decided|done]|].
  exact (Follows_set "occupation" (trim occupation)
           (withParsed (<["age" := VStr age]> (parsed st)) st) ltac:(decided)
           (follows_shape _ _ (Follows_set "age" age st ltac:(decided) Hs))).
Qed.

Lemma translate_follows (h : Host) (key : string) (st : Importer) :
  FieldsReady h -> key ∈ textKeys -> Shaped st ->
  exists st', translateParsed h key st = Ok tt st' /\ Follows st st'.
Proof.
  intros Hr Hk Hs. unfold translateParsed.
  destruct (shaped_texts st Hs key Hk) as [E|[s E]]; rewrite E.
  - exists st. split; [done|by apply Follows_refl].
  - destruct (translateRoll_ok h s st (fields_dice h Hr)) as [r Ht].
    rewrite (bind_ok _ _ _ _ _ Ht). eexists. split; [reflexivity|].
    by apply Follows_set.
Qed.

(** The two policies of a field with a "none" sentinel. *)
Lemma none_follows (h : Host) (key keyNone : string) (absent : bool) (st : Importer) :
  compiles h key -> compiles h keyNone -> ownGroup h key -> key ∈ textKeys ->
  Shaped st ->
  exists st',
    (let* found := check h key defaults in
     let* none :=
       match found with
       | None => ret absent
       | Some _ => let* st := get in matched (check h keyNone (sentinel key st))
       end in
     if none then setParsed key (VStr (js "0")) else ret tt) st = Ok tt st'
    /\ Follows st st'
    /\ (absent = true -> isText key st').
Proof.
  intros Hc Hcn Ho Hk Hs.
  destruct (check_follows h key defaults st Hc Ho eq_refl Hs
              (or_intror (conj eq_refl Hk))) as (r & st1 & E1 & F1 & T1).
  rewrite (bind_ok _ _ _ _ _ E1).
  assert (Hset : exists st',
            setParsed key (VStr (js "0")) st1 = Ok tt st'
            /\ Follows st st' /\ isText key st').
  { eexists. split; [reflexivity|]. split; [|apply isText_set].
    eapply Follows_trans; [exact F1|]. apply Follows_set; [done|apply F1]. }
  destruct r as [o|].
  - destruct (T1 eq_refl ltac:(done)) as [s Hsk].
    unfold bind at 1. unfold bind at 1, get at 1.
    destruct (sentinel_check h key keyNone st1 s Hcn Hsk) as [[_ E]|[_ E]]; rewrite E.
    + exists st1. split; [done|]. split; [done|]. intros _. by exists s.
    + destruct Hset as (st' & E' & F' & T'). exists st'. by rewrite E'.
  - unfold bind at 1, ret at 1. destruct absent.
    + destruct Hset as (st' & E' & F' & T'). exists st'. by rewrite E'.
    + exists st1. split; [done|]. split; [done|]. done.
Qed.

Lemma attributes_follow (h : Host) (st : Importer) :
  FieldsReady h -> Shaped st ->
  exists st',
    parseCharacter_attributes h st = Ok tt st'
    /\ Follows st st' /\ isText "db" st' /\ isText "armor" st'.
Proof.
  intros Hr Hs.
  assert (Hkey : forall key, key ∈ attributeKeys -> compiles h key /\ ownGroup h key).
  { intros key Hin. split.
    - apply ready_compiles; [done|]. apply elem_of_app. right.
      apply elem_of_app. right. apply elem_of_app. by left.
    - apply ready_ownGroup; [done|]. apply elem_of_app. right.
      apply elem_of_app. by right. }
  assert (Hnone : forall key, key ∈ sentinelKeys -> compiles h key).
  { intros key Hin. apply ready_compiles; [done|]. apply elem_of_app. right.
    apply elem_of_app. right. apply elem_of_app. by right. }
  destruct (Hkey "db"%string ltac:(decided)) as [Hc1 Ho1].
  destruct (Hkey "build"%string ltac:(decided)) as [Hc2 Ho2].
  destruct (Hkey "armor"%string ltac:(decided)) as [Hc3 Ho3].
  destruct (Hkey "mov"%string ltac:(decided)) as [Hc4 Ho4].
  destruct (Hkey "lck"%string ltac:(decided)) as [Hc5 Ho5].
  destruct (Hkey "sanLoss"%string ltac:(decided)) as [Hc6 Ho6].
  destruct (Hkey "attacksPerRound"%string ltac:(decided)) as [Hc7 Ho7].
  assert (Kbuild : "build"%string ∈ textKeys) by decided.
  assert (Ksan : "sanLoss"%string ∈ textKeys) by decided.
  assert (Kmov : "mov"%string ∈ numberKeys) by decided.
  assert (Klck : "lck"%string ∈ numberKeys) by decided.
  destruct (none_follows h "db" "dbNone" true st Hc1
              (Hnone "dbNone"%string ltac:(decided)) Ho1 ltac:(decided) Hs)
    as (a1 & E1 & F1 & T1).
  destruct (translate_follows h "db" a1 Hr ltac:(decided) (follows_shape _ _ F1))
    as (a2 & E2 & F2).
  destruct (check_follows h "build" defaults a2 Hc2 Ho2 eq_refl (follows_shape _ _ F2)
              (or_intror (conj eq_refl Kbuild))) as (r3 & a3 & E3 & F3 & _).
  destruct (none_follows h "armor" "armorNone" true a3 Hc3
              (Hnone "armorNone"%string ltac:(decided)) Ho3 ltac:(decided)
              (follows_shape _ _ F3))
    as (a4 & E4 & F4 & T4).
  destruct (check_follows h "mov" numeric a4 Hc4 Ho4 eq_refl (follows_shape _ _ F4)
              (or_introl (conj eq_refl Kmov))) as (r5 & a5 & E5 & F5 & _).
  destruct (check_follows h "lck" numeric a5 Hc5 Ho5 eq_refl (follows_shape _ _ F5)
              (or_introl (conj eq_refl Klck))) as (r6 & a6 & E6 & F6 & _).
  destruct (check_follows h "sanLoss" defaults a6 Hc6 Ho6 eq_refl (follows_shape _ _ F6)
              (or_intror (conj eq_refl Ksan))) as (r7 & a7 & E7 & F7 & _).
  destruct (translate_follows h "sanLoss" a7 Hr ltac:(decided) (follows_shape _ _ F7))
    as (a8 & E8 & F8).
  destruct (none_follows h "attacksPerRound" "attacksPerRoundNone" false a8 Hc7
              (Hnone "attacksPerRoundNone"%string ltac:(decided)) Ho7 ltac:(decided)
              (follows_shape _ _ F8))
    as (a9 & E9 & F9 & _).
  exists a9. split.
  { unfold parseCharacter_attributes, attributes_before_attacks,
      attributes_before_armor.
    fold (absentOrNone h "db" "dbNone") in E1.
    fold (absentOrNone h "armor" "armorNone") in E4.
    fold (presentAndNone h "attacksPerRound" "attacksPerRoundNone") in E9.
    unfold bind at 1. unfold bind at 1. unfold bind at 1.
    rewrite E1. unfold bind at 1. rewrite E2. unfold bind at 1. rewrite E3.
    unfold ret at 1. unfold bind at 1. rewrite E4.
    unfold bind at 1. rewrite E5. unfold bind at 1. rewrite E6.
    unfold bind at 1. rewrite E7. rewrite E8. exact E9. }
  assert (F49 : Follows a4 a9).
  { eapply Follows_trans; [exact F5|]. eapply Follows_trans; [exact F6|].
    eapply Follows_trans; [exact F7|]. by eapply Follows_trans. }
  assert (F14 : Follows a1 a4).
  { eapply Follows_trans; [exact F2|]. by eapply Follows_trans. }
  split; [|split].
  - eapply Follows_trans; [exact F1|]. by eapply Follows_trans.
  - apply (follows_texts _ _ F49); [decided|].
    apply (follows_texts _ _ F14); [decided|]. by apply T1.
  - apply (follows_texts _ _ F49); [decided|]. by apply T4.
Qed.

(** The field stages, from the importer [parseCharacter] starts with. *)
Lemma fields_follow (h : Host) (raw : jsstring) :
  FieldsReady h ->
  exists st',
    parseCharacter_fields h raw constructor = Ok tt st'
    /\ Follows (withText (normalize raw) constructor) st'
    /\ isText "name" st' /\ isText "db" st' /\ isText "armor" st'.
Proof.
  intros Hr.
  set (st0 := withText (normalize raw) constructor).
  assert (Hs0 : Shaped st0) by (split; intros key _; by left).
  destruct (scan_follows h characteristicKeys Hr ltac:(done) (length (text st0)) st0 Hs0)
    as (min & st1 & E1 & F1 & _).
  destruct (header_follows h min st1 Hr (follows_shape _ _ F1)) as (st2 & E2 & F2 & T2).
  destruct (split_follows st2 (follows_shape _ _ F2)) as (st3 & E3 & F3).
  destruct (attributes_follow h st3 Hr (follows_shape _ _ F3))
    as (st4 & E4 & F4 & Tdb & Tarmor).
  exists st4. split.
  { unfold parseCharacter_fields, parseCharacter_header.
    unfold bind at 1. unfold bind at 1, modify at 1. fold st0.
    unfold bind at 1, get at 1. unfold bind at 1. rewrite E1.
    unfold bind at 1. rewrite E2. rewrite E3. exact E4. }
  split.
  { eapply Follows_trans; [exact F1|]. eapply Follows_trans; [exact F2|].
    by eapply Follows_trans. }
  split; [|done].
  apply (follows_texts _ _ F4); [decided|].
  by apply (follows_texts _ _ F3); [decided|].
Qed.

(** X21. With a registry whose field patterns compile and capture one group
    each, the field stages of [parseCharacter] return on every pasted text
    and throw nothing.  In the record they leave, every characteristic, the
    movement and the luck are absent or numbers, every header and attribute
    text is absent or a text, and the name, the damage bonus and the armor
    are always set; nothing is notified, and the buffer is not longer than
    the pasted text. *)
Theorem parseCharacter_fields_shape (h : Host) (raw : jsstring) :
  FieldsReady h ->
  exists st',
    parseCharacter_fields h raw constructor = Ok tt st'
    /\ (forall key, key ∈ numberKeys -> numberOrAbsent key st')
    /\ (forall key, key ∈ textKeys -> textOrAbsent key st')
    /\ isText "name" st' /\ isText "db" st' /\ isText "armor" st'
    /\ notifications st' = []
    /\ (length (text st') <= length raw)%nat.
Proof.
  intros Hr.
  destruct (fields_follow h raw Hr) as (st' & Hrun & F & Hname & Hdb & Harmor).
  exists st'. split; [exact Hrun|].
  split; [apply F|]. split; [apply F|].
  split; [exact Hname|]. split; [exact Hdb|]. split; [exact Harmor|]. split.
  - by rewrite (follows_quiet _ _ F).
  - etrans; [apply (follows_buffer _ _ F)|]. cbn [text withText].
    apply normalize_length.
Qed.

Lemma sample_fields_ready : FieldsReady Sample.host.
Proof.
  split.
  - repeat (apply Forall_cons; split; [eapply sample_compiles; reflexivity|]).
    apply Forall_nil_2.
  - repeat (apply Forall_cons; split;
            [eapply sample_ownGroup; [reflexivity | reflexivity]|]).
    apply Forall_nil_2.
  - intros d Hd. injection Hd as <-. by eexists.
Qed.

Lemma parseCharacter_fields_shape_witness :
  exists st',
    parseCharacter_fields Sample.host
      (js "John Doe, 34, Mechanic. STR 12 CON 14 SIZ 13 DEX 11 HP 14 Armor: none")
      constructor = Ok tt st'
    /\ numberOrAbsent "str" st'
    /\ isText "name" st' /\ isText "db" st' /\ isText "armor" st'
    /\ notifications st' = [].
Proof.
  destruct (parseCharacter_fields_shape Sample.host
              (js "John Doe, 34, Mechanic. STR 12 CON 14 SIZ 13 DEX 11 HP 14 Armor: none")
              sample_fields_ready)
    as (st' & Hrun & Hn & _ & Hname & Hdb & Harmor & Hq & _).
  exists st'. split; [exact Hrun|]. split; [apply Hn; decided|].
  split; [exact Hname|]. split; [exact Hdb|]. split; [exact Harmor|exact Hq].
Defined.

(** ** The damage-bonus terms and the category of a weapon *)

(** X22. The inner loop of [processCombat] on a damage text: with a damage
    bonus whose two patterns compile and only match what they can delete the
    loop returns; neither pattern matches the damage text it leaves, which
    is not longer than the one it was given; a flag that was set stays set,
    the flags are as they were when the text is, and a text that got shorter
    has set a flag. *)
Theorem stripDb_leaves_no_bonus (h : Host) (st : Importer) (db : jsstring)
    (reH reF : RegExp) :
  parsed st !! "db" = Some (VStr db) ->
  newRegExp h (halfdbSource h db) "iu" = Some reH -> consumes reH ->
  newRegExp h (fulldbSource h db) "iu" = Some reF -> consumes reF ->
  forall fuel damage ahdb addb,
    (length damage < fuel)%nat ->
    exists damage' ahdb' addb',
      stripDb fuel h damage ahdb addb st = Ok (damage', ahdb', addb') st
      /\ re_exec reH damage' = None /\ re_exec reF damage' = None
      /\ (length damage' <= length damage)%nat
      /\ (ahdb = true -> ahdb' = true) /\ (addb = true -> addb' = true)
      /\ (damage' = damage -> ahdb' = ahdb /\ addb' = addb)
      /\ ((length damage' < length damage)%nat -> ahdb' = true \/ addb' = true).
Proof.
  intros Hdb HreH HcH HreF HcF.
  induction fuel as [|fuel IH]; intros damage ahdb addb Hlen; [lia|].
  cbn [stripDb].
  rewrite (bind_ok _ _ _ _ _ (dbExec_ok h halfdbSource damage db reH st Hdb HreH)).
  destruct (re_exec reH damage) as [f|] eqn:Hf.
  - destruct (consumes_shortens _ _ _ HcH Hf) as [-> Hlt].
    destruct (IH (replaceFirst (m_source f) [] damage) true addb ltac:(lia))
      as (d & a1 & a2 & Hrun & H1 & H2 & Hle & Ha & Hb & _ & _).
    exists d, a1, a2. split; [exact Hrun|].
    split; [done|]. split; [done|]. split; [lia|].
    split; [intros _; by apply Ha|]. split; [done|]. split.
    + intros ->. lia.
    + intros _. left. by apply Ha.
  - rewrite (bind_ok _ _ _ _ _ (dbExec_ok h fulldbSource damage db reF st Hdb HreF)).
    destruct (re_exec reF damage) as [f|] eqn:Hf'.
    + destruct (consumes_shortens _ _ _ HcF Hf') as [-> Hlt].
      destruct (IH (replaceFirst (m_source f) [] damage) ahdb true ltac:(lia))
        as (d & a1 & a2 & Hrun & H1 & H2 & Hle & Ha & Hb & _ & _).
      exists d, a1, a2. split; [exact Hrun|].
      split; [done|]. split; [done|]. split; [lia|].
      split; [done|]. split; [intros _; by apply Hb|]. split.
      * intros ->. lia.
      * intros _. right. by apply Hb.
    + exists damage, ahdb, addb. split; [done|].
      repeat (split; [done|]). intros ?. lia.
Qed.

Lemma stripDb_leaves_no_bonus_witness :
  stripDb 7 Sample.host (js "1D6+db") false false afterAttributes
  = Ok (js "1D6", false, true) afterAttributes.
Proof.
  destruct (stripDb_leaves_no_bonus Sample.host afterAttributes (js "0")
              (Sample.compile (Sample.halfdbRx (js "0")))
              (Sample.compile (Sample.fulldbRx (js "0")))
              eq_refl eq_refl (compile_consumes (Sample.halfdbRx (js "0")) eq_refl)
              eq_refl (compile_consumes (Sample.fulldbRx (js "0")) eq_refl)
              7%nat (js "1D6+db") false false ltac:(cbn; lia))
    as (d & a1 & a2 & Hrun & _).
  rewrite Hrun. vm_compute in Hrun.
  by injection Hrun as <- <- <-.
Defined.

Lemma matched_iff (h : Host) (key : string) (name : jsstring) (st : Importer) :
  compiles h key ->
  exists b, matched (check h key (onName name)) st = Ok b st
            /\ (b = true <-> exists m, matches h key name m).
Proof.
  intros Hc. unfold matched.
  destruct (check_cases h key name Hc) as [Hu|[m Hm]].
  - exists false.
    rewrite (bind_ok _ _ _ _ _ (check_unmatched h key (onName name) st Hc Hu)).
    split; [done|]. split; [done|]. intros [m Hm].
    by destruct (unmatched_not_matches h key name m).
  - exists true.
    rewrite (bind_ok _ _ _ _ _
               (eq_trans (check_matched h key (onName name) st m Hm) eq_refl)).
    split; [done|]. split; [|done]. intros _. by exists m.
Qed.

Lemma orElse_iff (a b : M bool) (st : Importer) (P Q : Prop) :
  (exists x, a st = Ok x st /\ (x = true <-> P)) ->
  (exists y, b st = Ok y st /\ (y = true <-> Q)) ->
  exists z, orElse a b st = Ok z st /\ (z = true <-> P \/ Q).
Proof.
  intros (x & Ha & Hx) (y & Hb & Hy). unfold orElse. rewrite (bind_ok _ _ _ _ _ Ha).
  destruct x.
  - exists true. split; [done|]. split; [intros _; left; by apply Hx|done].
  - exists y. split; [done|]. split; [intros ?; right; by apply Hy|].
    intros [HP|HQ]; [|by apply Hy]. apply Hx in HP. done.
Qed.

(** The five category checks on a weapon name. *)
Lemma isRangedName_spec (h : Host) (name : jsstring) (st : Importer) :
  Forall (compiles h) combatKeys ->
  exists b,
    isRangedName h name st = Ok b st
    /\ (b = true <-> exists key m, key ∈ rangedKeys /\ matches h key name m).
Proof.
  intros Hk. unfold isRangedName.
  destruct (orElse_iff
              (matched (check h "handgun" (onName name)))
              (orElse (matched (check h "rifle" (onName name)))
                 (orElse (matched (check h "smb" (onName name)))
                    (orElse (matched (check h "machineGun" (onName name)))
                       (matched (check h "launched" (onName name))))))
              st
              (exists m, matches h "handgun" name m)
              ((exists m, matches h "rifle" name m)
               \/ (exists m, matches h "smb" name m)
               \/ (exists m, matches h "machineGun" name m)
               \/ (exists m, matches h "launched" name m)))
    as (b & Hrun & Hb).
  { apply matched_iff. combat_key. }
  { repeat (apply orElse_iff; [apply matched_iff; combat_key|]).
    apply matched_iff. combat_key. }
  exists b. split; [exact Hrun|]. rewrite Hb. unfold rangedKeys. split.
  - intros [[m Hm]|[[m Hm]|[[m Hm]|[[m Hm]|[m Hm]]]]]; eexists _, m;
      (split; [|exact Hm]); decided.
  - intros (key & m & Hin & Hm).
    rewrite !elem_of_cons, elem_of_nil in Hin.
    destruct Hin as [->|[->|[->|[->|[->|[]]]]]]; eauto 10.
Qed.

(** X23. The weapon a turn of [processCombat] records, when the weapon
    pattern matches with the percentage it has to show: the record pushed on
    the attacks is built under the cleaned name from a damage text, and it
    is marked ranged exactly when one of the five category patterns matches
    that name or that damage text is in three parts (a shotgun); a club with
    a three-part damage is ranged without any category.  It is a melee
    weapon exactly when it is not ranged. *)
Theorem weapon_ranged_iff (h : Host) (v : CombatVars) (st : Importer) (m : Match) :
  CombatReady h st ->
  unmatched h "weaponDodge" (trim (c_text v)) ->
  matches h "weapon" (trim (c_text v)) m ->
  requiredOk (onText (trim (c_text v)) (weaponRequired (c_lastPercent v))) m = true ->
  exists v' st' data damage isRanged ahdb addb,
    combatStep h v st = Ok v' st'
    /\ items "attacks" st' = items "attacks" st ++ [IWeapon data]
    /\ data = weaponData (cleanString (default [] (group "name" (groupsOf m))))
                damage (percentOf h m) isRanged ahdb addb
    /\ (rngd (w_properties data) = true
        <-> (exists key n, key ∈ rangedKeys /\ matches h key (w_name data) n)
            \/ length (splitOn 47 damage) = 3%nat)
    /\ melee (w_properties data) = negb (rngd (w_properties data)).
Proof.
  intros Hr Hu Hm Hreq. unfold combatStep.
  rewrite (bind_ok _ _ _ _ _
             (check_unmatched h "weaponDodge" (onText (trim (c_text v)) None) st
                ltac:(destruct Hr; combat_key) Hu)).
  fold (weaponRequired (c_lastPercent v)).
  pose proof (check_matched h _ (onText (trim (c_text v))
                                   (weaponRequired (c_lastPercent v))) st m Hm) as Hc.
  rewrite Hreq in Hc. rewrite (bind_ok _ _ _ _ _ Hc).
  set (st1 := removed _ m st).
  assert (Hr1 : CombatReady h st1) by (by apply CombatReady_removed).
  cbn [o_groups o_source outputOf].
  set (name := cleanString (default [] (group "name" (groupsOf m)))).
  destruct (translateRoll_ok h
              (cleanString (default [] (group "damage" (groupsOf m)))) st1
              (ready_dice h st1 Hr1)) as [damage Hd].
  rewrite (bind_ok _ _ _ _ _ Hd).
  destruct (isRangedName_spec h name st1 (ready_patterns h st1 Hr1))
    as (isRanged & Hi & Hranged).
  rewrite (bind_ok _ _ _ _ _ Hi).
  destruct (ready_db h st1 Hr1) as (db & Hdb & (reH & HreH & HcH) & (reF & HreF & HcF)).
  destruct (stripDb_ok h st1 db reH reF Hdb HreH HcH HreF HcF
              (S (length damage)) damage false false ltac:(lia)) as [[[d a1] a2] Hs].
  rewrite (bind_ok _ _ _ _ _ Hs).
  fold (percentOf h m).
  pose proof (push_ok "attacks"
                (IWeapon (weaponData name d (percentOf h m) isRanged a1 a2))
                st1 (ready_attacks h st1 Hr1)) as Hpush.
  unfold bind in Hpush. unfold bind.
  destruct (initArray "attacks" st1) as [u st2 | |]; try done.
  rewrite Hpush. unfold ret.
  eexists _, _, (weaponData name d (percentOf h m) isRanged a1 a2), d, isRanged, a1, a2.
  split; [reflexivity|]. split.
  { rewrite items_pushed. unfold st1, items. by rewrite parsed_removed. }
  split; [done|].
  cbn [w_name w_properties weaponData rngd melee].
  split; [|done].
  rewrite orb_true_iff, Hranged, Nat.eqb_eq. tauto.
Qed.

Lemma weapon_ranged_iff_witness :
  exists v' st' data,
    combatStep Sample.host (combatStart (js "Club 40%, damage 1D6/1D8/1D10"))
      afterAttributes = Ok v' st'
    /\ items "attacks" st' = [IWeapon data]
    /\ w_name data = js "Club"
    /\ melee (w_properties data) = negb (rngd (w_properties data)).
Proof.
  destruct (weapon_ranged_iff Sample.host
              (combatStart (js "Club 40%, damage 1D6/1D8/1D10")) afterAttributes
              {| m_source := js "Club 40%, damage 1D6/1D8/1D10"; m_index := 0;
                 m_groups := Some [("name", Some (js "Club"));
                                   ("percentage", Some (js "40"));
                                   ("damage", Some (js "1D6/1D8/1D10"))] |}
              sample_ready)
    as (v' & st' & data & damage & isRanged & ahdb & addb
        & Hrun & Hitems & Hdata & _ & Hmelee).
  - eapply sample_unmatched; [reflexivity|]. by vm_compute.
  - eapply sample_matches; [reflexivity|]. by vm_compute.
  - reflexivity.
  - exists v', st', data. split; [exact Hrun|]. split; [exact Hitems|].
    split; [by rewrite Hdata|exact Hmelee].
Defined.

(** The club of this turn is recorded as a ranged weapon, though none of the
    five category patterns matches its name. *)
Example club_with_three_damages_is_ranged :
  exists v' st' data,
    combatStep Sample.host (combatStart (js "Club 40%, damage 1D6/1D8/1D10"))
      afterAttributes = Ok v' st'
    /\ items "attacks" st' = [IWeapon data]
    /\ rngd (w_properties data) = true
    /\ isRangedName Sample.host (js "Club") afterAttributes = Ok false afterAttributes.
Proof. eexists _, _, _. split; [by vm_compute|]. repeat split; by vm_compute. Qed.

(** ** From the parsed fields to the actor *)

(** X24. What [createActor] does with the record of the field stages: on
    every pasted text the guess of [needsConversion] is a comparison of
    numbers, true exactly when no characteristic that was read is above 30,
    and [actorData] returns, on the record as it is and on the record run
    through [convert7E]: the sanity loss it splits is a text or absent. *)
Theorem createActor_on_parsed_fields (h : Host) (raw : jsstring) :
  FieldsReady h ->
  exists st',
    parseCharacter_fields h raw constructor = Ok tt st'
    /\ (needsConversion h (parsed st') = true
        <-> forall key z, key ∈ characteristics ->
                          parsed st' !! key = Some (VNum (Int z)) -> (z <= 30)%Z)
    /\ is_Some (actorData h (parsed st'))
    /\ is_Some (actorData h (convert7E h (parsed st'))).
Proof.
  intros Hr.
  destruct (fields_follow h raw Hr) as (st' & Hrun & F & _).
  exists st'. split; [exact Hrun|].
  destruct (follows_shape _ _ F) as [Hnum Htxt].
  assert (Hsan : forall p, p !! "sanLoss" = parsed st' !! "sanLoss" ->
                           is_Some (actorData h p)).
  { intros p Hp. unfold actorData. rewrite Hp.
    destruct (Htxt "sanLoss"%string ltac:(decided)) as [->|[s ->]]; by eexists. }
  split; [|split; [by apply Hsan|]].
  - rewrite needsConversion_forallb, forallb_forall. split.
    + intros Hall key z Hkey Hz.
      apply list_elem_of_In in Hkey. specialize (Hall key Hkey).
      rewrite (above30_number h _ key z Hz) in Hall.
      apply negb_true_iff, Z.ltb_ge in Hall. exact Hall.
    + intros Hall key Hkey. apply list_elem_of_In in Hkey.
      assert (Hk : key ∈ numberKeys).
      { revert key Hkey. apply Forall_forall. decided. }
      destruct (Hnum key Hk) as [E|[z E]].
      * unfold above30. by rewrite E.
      * rewrite (above30_number h _ key z E).
        apply negb_true_iff, Z.ltb_ge. by apply (Hall key z).
  - apply Hsan. apply convert7E_other; [decided|done].
Qed.

Lemma createActor_on_parsed_fields_witness :
  exists st',
    parseCharacter_fields Sample.host
      (js "John Doe, 34, Mechanic. STR 12 CON 14 SIZ 13 DEX 11 HP 14 Armor: none")
      constructor = Ok tt st'
    /\ needsConversion Sample.host (parsed st') = true
    /\ is_Some (actorData Sample.host (parsed st')).
Proof.
  destruct (createActor_on_parsed_fields Sample.host
              (js "John Doe, 34, Mechanic. STR 12 CON 14 SIZ 13 DEX 11 HP 14 Armor: none")
              sample_fields_ready)
    as (st' & Hrun & _ & Hactor & _).
  exists st'. split; [exact Hrun|]. split; [|exact Hactor].
  assert (Hst : st' = match parseCharacter_fields Sample.host
                        (js "John Doe, 34, Mechanic. STR 12 CON 14 SIZ 13 DEX 11 HP 14 Armor: none")
                        constructor with
                      | Ok _ s => s
                      | _ => constructor
                      end) by (by rewrite Hrun).
  rewrite Hst. vm_compute. reflexivity.
Defined.

